(** * Swarm session tracking: the store operations and the routes over them

    A shallow embedding of [server/database/db.js] (the [swarmDb] and
    [credentialsDb] objects), of [server/database/swarm-schema.sql] and of
    the swarm routes of [server/routes/claude-flow.js].

    Conventions of the embedding.
    - A SQL table with a UNIQUE key is a finite map on that key; a table
      without one is a list of rows.
    - A nullable column is an [option]; NULL is [None].
    - The wall clock is read by the caller: every operation that evaluates
      [Date.now()], [new Date()] or CURRENT_TIMESTAMP takes the instant it
      reads as its first argument [now], in epoch milliseconds.  The ISO
      string of [toISOString()] is represented by that instant.  An
      operation that reads both [Date.now()] and CURRENT_TIMESTAMP takes
      the instant of [Date.now()] and stores [CURRENT_TIMESTAMP now], the
      same instant at the resolution of a second.
    - A JavaScript number that holds an integer is a [Z], and [+] on such
      numbers is [js_add], the sum rounded to a double; the averages of
      the metrics are doubles ([spec_float] at the parameters of
      binary64).
    - [try { ... } catch (err) { throw err; }] rethrows, so a failing
      statement is an [inl] carrying the error message.
    - The [users] table is outside the embedding, and with it the foreign
      keys that point to it. *)

From Stdlib Require Import ZArith String List Lia DecimalString SpecFloat.
From stdpp Require Import base option gmap strings list.

Local Open Scope Z_scope.
Local Open Scope string_scope.

(** ** JavaScript helpers *)

(** [x === 'lit'] on strings. *)
Definition str_eq (a b : string) : bool := String.eqb a b.

(** [!x] for a request field that is either absent or a string: absent
    ([undefined]) and the empty string are falsy. *)
Definition falsy (x : option string) : bool :=
  match x with
  | None => true
  | Some s => str_eq s ""
  end.

(** [x || d] for an optional string. *)
Definition or_default (x : option string) (d : string) : string :=
  match x with
  | None => d
  | Some s => s
  end.

(** [req.user?.id || 1]: an absent user and the id 0 both give 1. *)
Definition request_user (user : option Z) : Z :=
  match user with
  | None => 1
  | Some uid => if Z.eqb uid 0 then 1 else uid
  end.

(** [a + b] on numbers that hold integers.  A double holds every integer
    up to 2^53 in absolute value; beyond, it keeps the 53 leading bits
    and the sum is rounded to the nearest such integer, to the one with
    an even last kept bit when two are equally near.  (The overflow to
    Infinity, beyond 2^1024, is outside this definition.) *)
Definition round_double (z : Z) : Z :=
  let a := Z.abs z in
  if Z.leb a (2 ^ 53) then z
  else
    let shift := Z.log2 a - 52 in
    let q := Z.shiftr a shift in
    let r := a - Z.shiftl q shift in
    let half := 2 ^ (shift - 1) in
    let q' :=
      match Z.compare r half with
      | Lt => q
      | Gt => q + 1
      | Eq => if Z.even q then q else q + 1
      end in
    Z.sgn z * Z.shiftl q' shift.

Definition js_add (a b : Z) : Z := round_double (a + b).

(** ** Rows of the schema *)

Definition timestamp := Z.

(** CURRENT_TIMESTAMP of SQLite at the instant [now]: the text
    'YYYY-MM-DD HH:MM:SS', the time at the resolution of a second,
    represented by the first millisecond of that second. *)
Definition CURRENT_TIMESTAMP (now : Z) : timestamp := 1000 * (now / 1000).

(** A row of [swarm_sessions]; [session_id] is the key of the table. *)
Record SwarmSession := mkSession {
  row_id : Z;
  user_id : Z;
  project_name : string;
  project_path : string;
  swarm_type : string;
  queen_agent : option string;
  task_description : string;
  status : string;
  namespace : option string;
  created_at : timestamp;
  completed_at : option timestamp;
  error_message : option string;
  metadata : option string
}.

(** A row of [swarm_workers]; [worker_id] is not declared UNIQUE. *)
Record SwarmWorker := mkWorker {
  w_id : Z;
  swarm_session_id : Z;
  worker_id : string;
  agent_type : string;
  agent_name : string;
  task : string;
  w_status : string;
  started_at : option timestamp;
  w_completed_at : option timestamp;
  input_tokens : Z;
  output_tokens : Z;
  total_tokens : Z;
  result : option string;
  w_error_message : option string;
  w_metadata : option string
}.

(** The columns of [user_credentials] that [getActiveCredential] reads. *)
Record Credential := mkCredential {
  c_user_id : Z;
  credential_type : string;
  credential_value : string;
  is_active : bool;
  c_created_at : timestamp
}.

(** The database handle [db]: the three tables the swarm routes touch and
    the AUTOINCREMENT counters of the two swarm tables.  The table
    [agent_metrics] is kept apart (see [updateAgentMetrics]), since its
    rows hold JavaScript numbers. *)
Record Db := mkDb {
  swarm_sessions : gmap string SwarmSession;
  session_seq : Z;
  swarm_workers : list SwarmWorker;
  worker_seq : Z;
  user_credentials : list Credential
}.

Definition empty_db : Db := mkDb ∅ 0 [] 0 [].

Definition with_sessions (db : Db) (t : gmap string SwarmSession) : Db :=
  mkDb t (session_seq db) (swarm_workers db) (worker_seq db) (user_credentials db).

Definition with_workers (db : Db) (t : list SwarmWorker) : Db :=
  mkDb (swarm_sessions db) (session_seq db) t (worker_seq db) (user_credentials db).

(** ** Session store ([swarmDb]) *)

(** The three statuses for which [updateSwarmStatus] stamps a completion
    time. *)
Definition is_terminal (st : string) : bool :=
  str_eq st "completed" || str_eq st "failed" || str_eq st "aborted".

(** A number inside a template literal: its decimal digits. *)
Definition number_to_string (n : Z) : string :=
  NilZero.string_of_int (Z.to_int n).

(** [`${projectName}-${Date.now()}`]. *)
Definition namespace_of (projectName : string) (now : Z) : string :=
  projectName ++ "-" ++ number_to_string now.

(** [swarmDb.createSwarmSession].  The INSERT leaves [status] to its
    DEFAULT 'active', [created_at] to CURRENT_TIMESTAMP and the other
    unlisted columns NULL; a [session_id] already present violates the
    UNIQUE constraint and the statement throws.  [metadata] is the text
    of [JSON.stringify(metadata)]. *)
Definition createSwarmSession (now : Z)
    (userId : Z) (sessionId projectName projectPath swarmType taskDescription : string)
    (metadata : string) (db : Db) : string + (Db * (Z * string * string)) :=
  let namespace := namespace_of projectName now in
  match swarm_sessions db !! sessionId with
  | Some _ => inl "UNIQUE constraint failed: swarm_sessions.session_id"
  | None =>
      let rowid := session_seq db + 1 in
      let row := mkSession rowid userId projectName projectPath swarmType None
                   taskDescription "active" (Some namespace) (CURRENT_TIMESTAMP now)
                   None None (Some metadata) in
      inr (mkDb (<[sessionId := row]> (swarm_sessions db)) rowid
                (swarm_workers db) (worker_seq db) (user_credentials db),
           (rowid, sessionId, namespace))
  end.

(** [swarmDb.getSwarmSession]: the row, or [undefined]. *)
Definition getSwarmSession (sessionId : string) (db : Db) : option SwarmSession :=
  swarm_sessions db !! sessionId.

(** The SET clause of [updateSwarmStatus]. *)
Definition set_session_status (st : string) (errorMessage : option string)
    (completedAt : option timestamp) (row : SwarmSession) : SwarmSession :=
  mkSession (row_id row) (user_id row) (project_name row) (project_path row)
    (swarm_type row) (queen_agent row) (task_description row)
    st (namespace row) (created_at row) completedAt errorMessage (metadata row).

(** [swarmDb.updateSwarmStatus]: returns [result.changes > 0]. *)
Definition updateSwarmStatus (now : Z) (sessionId st : string)
    (errorMessage : option string) (db : Db) : Db * bool :=
  let completedAt := if is_terminal st then Some now else None in
  match swarm_sessions db !! sessionId with
  | Some row =>
      (with_sessions db
         (<[sessionId := set_session_status st errorMessage completedAt row]>
            (swarm_sessions db)),
       true)
  | None => (db, false)
  end.

(** ** Worker store ([swarmDb]) *)

(** SQL [COALESCE(a, b)]. *)
Definition coalesce {A} (a b : option A) : option A :=
  match a with
  | Some x => Some x
  | None => b
  end.

(** Whether some session row carries the integer key [rid]: the target of
    the foreign key of [swarm_workers.swarm_session_id]. *)
Definition session_rowid_exists (rid : Z) (db : Db) : bool :=
  existsb (fun kv => Z.eqb (row_id (snd kv)) rid) (map_to_list (swarm_sessions db)).

(** [swarmDb.createWorker]: [status] is left to its DEFAULT 'pending', the
    token counters to 0, the timestamps NULL. *)
Definition createWorker (swarmSessionId : Z) (workerId agentType agentName task : string)
    (metadata : string) (db : Db) : string + (Db * (Z * string)) :=
  if session_rowid_exists swarmSessionId db then
    let rowid := worker_seq db + 1 in
    let row := mkWorker rowid swarmSessionId workerId agentType agentName task
                 "pending" None None 0 0 0 None None (Some metadata) in
    inr (mkDb (swarm_sessions db) (session_seq db)
              (List.app (swarm_workers db) [row]) rowid (user_credentials db),
         (rowid, workerId))
  else inl "FOREIGN KEY constraint failed".

(** The WHERE clause [worker_id = ?]. *)
Definition worker_matches (workerId : string) (w : SwarmWorker) : bool :=
  str_eq (worker_id w) workerId.

(** [result.changes] of an UPDATE ... WHERE worker_id = ?. *)
Definition worker_changes (workerId : string) (db : Db) : nat :=
  length (List.filter (worker_matches workerId) (swarm_workers db)).

(** The SET clause of [updateWorkerStatus]. *)
Definition set_worker_status (st : string) (res errorMessage : option string)
    (startedAt completedAt : option timestamp) (w : SwarmWorker) : SwarmWorker :=
  mkWorker (w_id w) (swarm_session_id w) (worker_id w) (agent_type w) (agent_name w)
    (task w) st (coalesce (started_at w) startedAt) completedAt
    (input_tokens w) (output_tokens w) (total_tokens w)
    res errorMessage (w_metadata w).

(** [swarmDb.updateWorkerStatus]. *)
Definition updateWorkerStatus (now : Z) (workerId st : string)
    (res errorMessage : option string) (db : Db) : Db * bool :=
  let startedAt := if str_eq st "active" then Some now else None in
  let completedAt :=
    if str_eq st "completed" || str_eq st "failed" then Some now else None in
  (with_workers db
     (List.map (fun w => if worker_matches workerId w
                         then set_worker_status st res errorMessage startedAt completedAt w
                         else w)
        (swarm_workers db)),
   Nat.ltb 0 (worker_changes workerId db)).

(** The SET clause of [updateWorkerTokens]. *)
Definition set_worker_tokens (inputTokens outputTokens totalTokens : Z)
    (w : SwarmWorker) : SwarmWorker :=
  mkWorker (w_id w) (swarm_session_id w) (worker_id w) (agent_type w) (agent_name w)
    (task w) (w_status w) (started_at w) (w_completed_at w)
    inputTokens outputTokens totalTokens
    (result w) (w_error_message w) (w_metadata w).

(** [swarmDb.updateWorkerTokens]; the token counts are numbers that hold
    integers, and [totalTokens] is their sum as a double. *)
Definition updateWorkerTokens (workerId : string) (inputTokens outputTokens : Z)
    (db : Db) : Db * bool :=
  let totalTokens := js_add inputTokens outputTokens in
  (with_workers db
     (List.map (fun w => if worker_matches workerId w
                         then set_worker_tokens inputTokens outputTokens totalTokens w
                         else w)
        (swarm_workers db)),
   Nat.ltb 0 (worker_changes workerId db)).

(** ** Credentials ([credentialsDb]) *)

(** ORDER BY created_at DESC LIMIT 1: the newest row, the earliest stored
    among equally new ones. *)
Fixpoint newest (rows : list Credential) : option Credential :=
  match rows with
  | [] => None
  | c :: rest =>
      match newest rest with
      | Some d => if Z.ltb (c_created_at c) (c_created_at d) then Some d else Some c
      | None => Some c
      end
  end.

(** [credentialsDb.getActiveCredential]: [row?.credential_value || null],
    so an empty stored value counts as none. *)
Definition getActiveCredential (userId : Z) (credentialType : string) (db : Db)
    : option string :=
  let rows :=
    List.filter (fun c => Z.eqb (c_user_id c) userId
                          && str_eq (credential_type c) credentialType
                          && is_active c)
      (user_credentials db) in
  match newest rows with
  | Some row =>
      if str_eq (credential_value row) "" then None else Some (credential_value row)
  | None => None
  end.

(** ** Agent metrics ([swarmDb.updateAgentMetrics]) *)

(** The arithmetic of JavaScript numbers that the running averages use:
    [+], [*], [/], the comparison [<=], the conversion of an integer
    column to a number, and the test for NaN. *)
Class Number (F : Type) := {
  nle : F -> F -> Prop;
  of_int : Z -> F;
  nadd : F -> F -> F;
  nmul : F -> F -> F;
  ndiv : F -> F -> F;
  is_nan : F -> bool
}.

(** Doubles: IEEE 754 binary64, 53 bits of precision and exponents below
    1024, with the operations of [SpecFloat] (rounding to nearest, ties
    to even). *)
Definition double : Type := spec_float.

Definition double_of_Z (z : Z) : double := binary_normalize 53 1024 z 0 false.

#[export] Instance double_number : Number double := {
  nle a b := SFleb a b = true;
  of_int := double_of_Z;
  nadd := SFadd 53 1024;
  nmul := SFmul 53 1024;
  ndiv := SFdiv 53 1024;
  is_nan x := match x with S754_nan => true | _ => false end
}.

(** A row of [agent_metrics] without its integer key; (user_id,
    agent_type) is UNIQUE and is the key of the table. *)
Record AgentMetric (F : Type) := mkMetric {
  usage_count : Z;
  total_input_tokens : Z;
  total_output_tokens : Z;
  m_total_tokens : Z;
  avg_completion_time_ms : option F;
  success_rate : option F;
  last_used : timestamp;
  updated_at : timestamp
}.

Arguments mkMetric {F}.
Arguments usage_count {F}.
Arguments total_input_tokens {F}.
Arguments total_output_tokens {F}.
Arguments m_total_tokens {F}.
Arguments avg_completion_time_ms {F}.
Arguments success_rate {F}.
Arguments last_used {F}.
Arguments updated_at {F}.

Section AgentMetrics.
Context {F : Type} `{Number F}.

(** What a REAL column holds after a number is bound to it: SQLite stores
    NaN as NULL, and every other double as it is. *)
Definition real_column (x : F) : option F :=
  if is_nan x then None else Some x.

(** A REAL column as an operand of [*]: the [null] that a NULL column
    reads as counts as 0. *)
Definition column_number (c : option F) : F :=
  match c with
  | Some x => x
  | None => of_int 0
  end.

(** [success ? 1 : 0], also the [success ? 1.0 : 0.0] of the INSERT. *)
Definition success_value (success : bool) : F :=
  if success then of_int 1 else of_int 0.

(** The branch [if (existing)]: the new row computed from the old. *)
Definition updated_metric (now : Z) (existing : AgentMetric F)
    (inputTokens outputTokens : Z) (completionTimeMs : F) (success : bool)
    : AgentMetric F :=
  let totalTokens := js_add inputTokens outputTokens in
  let newUsageCount := js_add (usage_count existing) 1 in
  let newTotalInputTokens := js_add (total_input_tokens existing) inputTokens in
  let newTotalOutputTokens := js_add (total_output_tokens existing) outputTokens in
  let newTotalTokens := js_add (m_total_tokens existing) totalTokens in
  let newAvgTime :=
    ndiv (nadd (nmul (column_number (avg_completion_time_ms existing))
                     (of_int (usage_count existing)))
               completionTimeMs)
         (of_int newUsageCount) in
  let successCount :=
    nadd (nmul (column_number (success_rate existing)) (of_int (usage_count existing)))
         (success_value success) in
  let newSuccessRate := ndiv successCount (of_int newUsageCount) in
  mkMetric newUsageCount newTotalInputTokens newTotalOutputTokens newTotalTokens
    (real_column newAvgTime) (real_column newSuccessRate) now now.

(** The branch [else]: the row of the INSERT. *)
Definition inserted_metric (now : Z) (inputTokens outputTokens : Z)
    (completionTimeMs : F) (success : bool) : AgentMetric F :=
  let totalTokens := js_add inputTokens outputTokens in
  mkMetric 1 inputTokens outputTokens totalTokens
    (real_column completionTimeMs) (real_column (success_value success)) now now.

(** [swarmDb.updateAgentMetrics]; it returns [true] on both branches. *)
Definition updateAgentMetrics (now : Z) (userId : Z) (agentType : string)
    (inputTokens outputTokens : Z) (completionTimeMs : F) (success : bool)
    (tbl : gmap (Z * string) (AgentMetric F))
    : gmap (Z * string) (AgentMetric F) * bool :=
  match tbl !! (userId, agentType) with
  | Some existing =>
      (<[(userId, agentType) :=
           updated_metric now existing inputTokens outputTokens completionTimeMs success]> tbl,
       true)
  | None =>
      (<[(userId, agentType) :=
           inserted_metric now inputTokens outputTokens completionTimeMs success]> tbl,
       true)
  end.

(** One call of [updateAgentMetrics] with the instant it reads. *)
Record MetricCall := mkCall {
  mc_now : Z;
  mc_userId : Z;
  mc_agentType : string;
  mc_inputTokens : Z;
  mc_outputTokens : Z;
  mc_completionTimeMs : F;
  mc_success : bool
}.

Definition apply_call (tbl : gmap (Z * string) (AgentMetric F)) (c : MetricCall)
    : gmap (Z * string) (AgentMetric F) :=
  fst (updateAgentMetrics (mc_now c) (mc_userId c) (mc_agentType c)
         (mc_inputTokens c) (mc_outputTokens c) (mc_completionTimeMs c)
         (mc_success c) tbl).

(** A sequence of calls, oldest first. *)
Definition apply_calls (calls : list MetricCall)
    (tbl : gmap (Z * string) (AgentMetric F)) : gmap (Z * string) (AgentMetric F) :=
  fold_left apply_call calls tbl.

End AgentMetrics.

Arguments MetricCall F : clear implicits.

(** ** HTTP replies *)

(** The JSON bodies the swarm routes send. *)
Inductive Body :=
| CreatedBody (sessionId namespace swarmType projectName status : string)
| AbortedBody (sessionId status : string)
| ErrorBody (error : string) (details : option string)
| ExecutedBody (success : bool) (sessionId : string) (duration : Z) (output error : string).

(** [res.status(code).json(body)]; a bare [res.json] has code 200. *)
Record Reply := mkReply { code : Z; body : Body }.

(** ** POST /swarm/create *)

(** The destructured request body, and [req.user?.id].  [cr_metadata] is
    the text of [JSON.stringify({ agentTypes })]. *)
Record CreateRequest := mkCreateRequest {
  cr_projectName : option string;
  cr_projectPath : option string;
  cr_taskDescription : option string;
  cr_swarmType : option string;
  cr_metadata : string;
  cr_user : option Z
}.

(** The route handler; [uuid] is the value of [crypto.randomUUID()]. *)
Definition swarm_create (now : Z) (uuid : string) (req : CreateRequest) (db : Db)
    : Db * Reply :=
  let swarmType := or_default (cr_swarmType req) "quick" in
  let userId := request_user (cr_user req) in
  if falsy (cr_projectName req) || falsy (cr_projectPath req)
     || falsy (cr_taskDescription req)
  then (db, mkReply 400 (ErrorBody "Missing required fields"
              (Some "projectName, projectPath, and taskDescription are required")))
  else
    let projectName := or_default (cr_projectName req) "" in
    let projectPath := or_default (cr_projectPath req) "" in
    let taskDescription := or_default (cr_taskDescription req) "" in
    let sessionId := "swarm-" ++ uuid in
    match createSwarmSession now userId sessionId projectName projectPath swarmType
            taskDescription (cr_metadata req) db with
    | inr (db', (_, sid, ns)) =>
        (db', mkReply 200 (CreatedBody sid ns swarmType projectName "active"))
    | inl message =>
        (db, mkReply 500 (ErrorBody "Failed to create swarm" (Some message)))
    end.

(** ** POST /swarm/abort/:sessionId *)

Definition swarm_abort (now : Z) (sessionId : string) (db : Db) : Db * Reply :=
  match getSwarmSession sessionId db with
  | None => (db, mkReply 404 (ErrorBody "Swarm session not found" None))
  | Some _ =>
      let db' := fst (updateSwarmStatus now sessionId "aborted" None db) in
      (db', mkReply 200 (AbortedBody sessionId "aborted"))
  end.

(** ** POST /swarm/execute *)

(** One frame [data: {...}] of the event stream. *)
Record SseEvent := mkEvent {
  ev_type : string;
  ev_message : string;
  ev_sessionId : string;
  ev_duration : option Z;
  ev_output : option string;
  ev_error : option string
}.

(** The response object [res]: the frames written so far, the JSON reply
    if one was sent, and whether [res.end()] was called. *)
Record Res := mkRes {
  written : list SseEvent;
  reply : option Reply;
  ended : bool
}.

Definition fresh_res : Res := mkRes [] None false.

(** The closure [sendEvent]: writes only when [streaming]. *)
Definition sendEvent (streaming : bool) (ev : SseEvent) (res : Res) : Res :=
  if streaming then mkRes (List.app (written res) [ev]) (reply res) (ended res) else res.

Definition res_end (res : Res) : Res := mkRes (written res) (reply res) true.

Definition res_json (r : Reply) (res : Res) : Res :=
  mkRes (written res) (Some r) (ended res).

(** [if (streaming) res.end() else res.status(..).json(..)]. *)
Definition finish (streaming : bool) (r : Reply) (res : Res) : Res :=
  if streaming then res_end res else res_json r res.

(** The arguments of one call of [spawn]. *)
Record Spawn := mkSpawn {
  command : string;
  args : list string;
  cwd : string;
  env_ANTHROPIC_API_KEY : string
}.

Record ExecRequest := mkExecRequest {
  er_sessionId : option string;
  er_taskDescription : option string;
  er_swarmType : option string;
  er_streaming : option bool;
  er_user : option Z
}.

(** What the callbacks registered on the child process close over. *)
Record Runner := mkRunner {
  r_sessionId : string;
  r_streaming : bool;
  startTime : Z;
  stdout : string;
  stderr : string;
  r_res : Res
}.

(** The handler either answers by itself or has spawned the child process
    and registered its callbacks. *)
Inductive Execution :=
| Answered (res : Res)
| Started (child : Spawn) (runner : Runner).

(** The child processes an execution has spawned. *)
Definition spawned (e : Execution) : list Spawn :=
  match e with
  | Answered _ => []
  | Started child _ => [child]
  end.

Definition response_of (e : Execution) : Res :=
  match e with
  | Answered res => res
  | Started _ runner => r_res runner
  end.

Definition config_error_message : string :=
  "Claude API key not configured. Please add your Claude API key in settings.".

(** The route handler up to the registration of the callbacks. *)
Definition swarm_execute (now : Z) (req : ExecRequest) (db : Db) : Execution :=
  let swarmType := or_default (er_swarmType req) "quick" in
  let streaming := default true (er_streaming req) in
  if falsy (er_sessionId req) || falsy (er_taskDescription req)
  then Answered (res_json (mkReply 400 (ErrorBody "Missing required fields"
                   (Some "sessionId and taskDescription are required"))) fresh_res)
  else
    let sessionId := or_default (er_sessionId req) "" in
    let taskDescription := or_default (er_taskDescription req) "" in
    let userId := request_user (er_user req) in
    match getSwarmSession sessionId db with
    | None =>
        Answered (res_json (mkReply 404 (ErrorBody "Swarm session not found" None))
                    fresh_res)
    | Some swarmSession =>
        let res :=
          sendEvent streaming
            (mkEvent "status" "Initializing swarm..." sessionId None None None)
            fresh_res in
        match getActiveCredential userId "claude_api_key" db with
        | None =>
            let res :=
              sendEvent streaming
                (mkEvent "error" config_error_message sessionId None None None) res in
            Answered (finish streaming
                        (mkReply 400 (ErrorBody config_error_message None)) res)
        | Some claudeApiKey =>
            let args :=
              List.app ["claude-flow@alpha"; "swarm"; taskDescription; "--claude"]
                (if str_eq swarmType "hive-mind" then ["--hive-mind"] else []) in
            let startTime := now in
            let claudeFlowProcess :=
              mkSpawn "npx" args (project_path swarmSession) claudeApiKey in
            Started claudeFlowProcess
              (mkRunner sessionId streaming startTime "" "" res)
        end
    end.

(** [claudeFlowProcess.stdout.on('data', ...)]. *)
Definition on_stdout (chunk : string) (r : Runner) : Runner :=
  mkRunner (r_sessionId r) (r_streaming r) (startTime r)
    (stdout r ++ chunk) (stderr r)
    (sendEvent (r_streaming r)
       (mkEvent "output" chunk (r_sessionId r) None None None) (r_res r)).

(** [claudeFlowProcess.stderr.on('data', ...)]. *)
Definition on_stderr (chunk : string) (r : Runner) : Runner :=
  mkRunner (r_sessionId r) (r_streaming r) (startTime r)
    (stdout r) (stderr r ++ chunk)
    (sendEvent (r_streaming r)
       (mkEvent "error" chunk (r_sessionId r) None None None) (r_res r)).

(** A chunk of output of the child process, on either channel. *)
Inductive Chunk :=
| OnStdout (chunk : string)
| OnStderr (chunk : string).

Definition on_data (r : Runner) (c : Chunk) : Runner :=
  match c with
  | OnStdout chunk => on_stdout chunk r
  | OnStderr chunk => on_stderr chunk r
  end.

(** The data callbacks run in the order of arrival. *)
Definition on_chunks (chunks : list Chunk) (r : Runner) : Runner :=
  fold_left on_data chunks r.

Definition with_res (r : Runner) (res : Res) : Runner :=
  mkRunner (r_sessionId r) (r_streaming r) (startTime r) (stdout r) (stderr r) res.

(** [claudeFlowProcess.on('close', (code) => ...)]; [code] is [null] when
    a signal ended the process, and only [code === 0] counts as success. *)
Definition on_close (now : Z) (exit_code : option Z) (r : Runner) (db : Db)
    : Db * Runner :=
  let duration := now - startTime r in
  let ok := match exit_code with Some c => Z.eqb c 0 | None => false end in
  let sessionId := r_sessionId r in
  let '(db', res) :=
    if ok then
      (fst (updateSwarmStatus now sessionId "completed" None db),
       sendEvent (r_streaming r)
         (mkEvent "completed" "Swarm completed successfully" sessionId
            (Some duration) (Some (stdout r)) None) (r_res r))
    else
      (fst (updateSwarmStatus now sessionId "failed" (Some (stderr r)) db),
       sendEvent (r_streaming r)
         (mkEvent "failed" "Swarm execution failed" sessionId
            (Some duration) None (Some (stderr r))) (r_res r)) in
  (db', with_res r
          (finish (r_streaming r)
             (mkReply 200 (ExecutedBody ok sessionId duration (stdout r) (stderr r)))
             res)).

(** [claudeFlowProcess.on('error', (error) => ...)]. *)
Definition on_error (now : Z) (message : string) (r : Runner) (db : Db)
    : Db * Runner :=
  let sessionId := r_sessionId r in
  let db' := fst (updateSwarmStatus now sessionId "failed" (Some message) db) in
  let res :=
    sendEvent (r_streaming r)
      (mkEvent "error" message sessionId None None None) (r_res r) in
  (db', with_res r
          (finish (r_streaming r)
             (mkReply 500 (ErrorBody "Failed to execute swarm" (Some message))) res)).

(** ** Sequences of store operations *)

(** The operations that write [swarm_sessions.status]: the create route,
    [updateSwarmStatus] (which is also what the [close] and [error]
    callbacks of the execute route call) and the abort route. *)
Inductive Op :=
| OpCreate (uuid : string) (req : CreateRequest)
| OpSetStatus (sessionId st : string) (errorMessage : option string)
| OpAbort (sessionId : string).

(** One operation, run at the instant [now]. *)
Definition step (db : Db) (o : Z * Op) : Db :=
  match o with
  | (now, OpCreate uuid req) => fst (swarm_create now uuid req db)
  | (now, OpSetStatus sessionId st errorMessage) =>
      fst (updateSwarmStatus now sessionId st errorMessage db)
  | (now, OpAbort sessionId) => fst (swarm_abort now sessionId db)
  end.

Definition run (ops : list (Z * Op)) (db : Db) : Db := fold_left step ops db.

(** ** Predicates used in the statements *)

(** A row is consistent when its completion time is there exactly for a
    terminal status. *)
Definition consistent (row : SwarmSession) : Prop :=
  is_Some (completed_at row) <-> is_terminal (status row) = true.

Definition all_consistent (db : Db) : Prop :=
  forall sid row, swarm_sessions db !! sid = Some row -> consistent row.

(** The text that arrived on the error channel, in order of arrival. *)
Fixpoint stderr_text (chunks : list Chunk) : string :=
  match chunks with
  | [] => ""
  | OnStderr chunk :: rest => chunk ++ stderr_text rest
  | OnStdout _ :: rest => stderr_text rest
  end.

(** ** Doubles that are not negative, and their order *)

(** The record of [shr] carries no trace of a bit shifted out. *)
Definition clean (mrs : shr_record) : Prop := shr_r mrs = false /\ shr_s mrs = false.

(** [b] is [a] shifted right by [k] bits. *)
Definition shifted (k : Z) (a b : shr_record) : Prop :=
  shr_m b = shr_m a / 2 ^ k
  /\ (clean a -> shr_m a mod 2 ^ k = 0 -> clean b).

(** What [binary_round_aux] makes of the rounded mantissa [m] at the
    exponent [e] of the format. *)
Definition pack (s : bool) (m e : Z) : spec_float :=
  if Z.eqb m 0 then S754_zero s
  else if Z.eqb m (2 ^ 53) then
    if Z.leb (e + 1) 971 then S754_finite s (2 ^ 52)%positive (e + 1) else S754_infinity s
  else if Z.leb e 971 then S754_finite s (Z.to_pos m) e else S754_infinity s.

(** The value of a mantissa and an exponent in units of 2^-2200, which is
    below every exponent that occurs. *)
Definition val (m e : Z) : Z := m * 2 ^ (e + 2200).

(** The least multiple of the unit that is not below the value which a
    mantissa and a location stand for. *)
Definition ceiling (mx : Z) (lx : location) : Z :=
  match lx with
  | loc_Exact => mx
  | loc_Inexact _ => mx + 1
  end.

(** A double that is a zero or positive, well formed, and at most the
    double of mantissa [mB] and exponent [eB] in the order of
    [SFcompare]. *)
Definition below (x : double) (mB : positive) (eB : Z) : Prop :=
  match x with
  | S754_zero _ => True
  | S754_finite false m e =>
      bounded 53 1024 m e = true /\ (e < eB \/ (e = eB /\ Zpos m <= Zpos mB))
  | _ => False
  end.

(** Rows of [agent_metrics] with a count between 1 and 2^53 and a success
    rate that is a number between 0 and 1. *)
Definition metric_ok (m : AgentMetric double) : Prop :=
  1 <= usage_count m <= 2 ^ 53
  /\ exists rate, success_rate m = Some rate /\ below rate (2 ^ 52)%positive (-52).

Definition metrics_ok (tbl : gmap (Z * string) (AgentMetric double)) : Prop :=
  forall key m, tbl !! key = Some m -> metric_ok m.

(** ** Sample data *)

Definition dquote : string := String (Ascii.ascii_of_nat 34) "".

(** [JSON.stringify({ agentTypes: [] })]. *)
Definition sample_metadata : string :=
  "{" ++ dquote ++ "agentTypes" ++ dquote ++ ":[]}".

Definition sample_request : CreateRequest :=
  mkCreateRequest (Some "acme") (Some "/srv/acme") (Some "fix bug") None
    sample_metadata (Some 7).

Definition sample_ops : list (Z * Op) :=
  [(1000, OpCreate "u1" sample_request);
   (2000, OpSetStatus "swarm-u1" "completed" None)].

(** One session, created at 1000. *)
Definition sample_db_active : Db :=
  fst (swarm_create 1000 "u1" sample_request empty_db).

Definition sample_row_active : SwarmSession :=
  mkSession 1 7 "acme" "/srv/acme" "quick" None "fix bug" "active"
    (Some "acme-1000") 1000 None None (Some sample_metadata).

(** The same session, completed at 2000. *)
Definition sample_db_completed : Db := run sample_ops empty_db.

Definition sample_row_completed : SwarmSession :=
  mkSession 1 7 "acme" "/srv/acme" "quick" None "fix bug" "completed"
    (Some "acme-1000") 1000 (Some 2000) None (Some sample_metadata).

(** A store with the sample session and an active credential of its
    owner. *)
Definition sample_db_keyed : Db :=
  mkDb (swarm_sessions sample_db_active) (session_seq sample_db_active) [] 0
    [mkCredential 7 "claude_api_key" "sk-old" true 10;
     mkCredential 7 "claude_api_key" "sk-new" true 20;
     mkCredential 7 "claude_api_key" "sk-off" false 30].

Definition sample_exec_request : ExecRequest :=
  mkExecRequest (Some "swarm-u1") (Some "fix bug") None None (Some 7).

Definition sample_child : Spawn :=
  mkSpawn "npx" ["claude-flow@alpha"; "swarm"; "fix bug"; "--claude"] "/srv/acme" "sk-new".

Definition sample_runner : Runner :=
  mkRunner "swarm-u1" true 1500 "" ""
    (mkRes [mkEvent "status" "Initializing swarm..." "swarm-u1" None None None]
       None false).

Definition sample_chunks : list Chunk :=
  [OnStderr "warn: "; OnStdout "working"; OnStderr "no such file"].

(** The sample session with one worker, as [createWorker] leaves it. *)
Definition sample_db_worker : Db :=
  match createWorker 1 "w1" "debugger" "Debugger" "find the bug" "{}" sample_db_active with
  | inr (db, _) => db
  | inl _ => sample_db_active
  end.

Definition sample_worker_pending : SwarmWorker :=
  mkWorker 1 1 "w1" "debugger" "Debugger" "find the bug" "pending"
    None None 0 0 0 None None (Some "{}").

(** Three runs of the debugger agent of user 7 (a success, a failure, a
    success), with one run of another agent in between. *)
Definition sample_calls : list (MetricCall double) :=
  [mkCall 100 7 "debugger" 1000 200 (double_of_Z 1500) true;
   mkCall 200 7 "debugger" 800 100 (double_of_Z 500) false;
   mkCall 250 7 "linter" 10 10 (double_of_Z 20) true;
   mkCall 300 7 "debugger" 600 300 (double_of_Z 1000) true].

(** * The rest of the store and of the routes *)

From Stdlib Require Import Ascii.
From Stdlib.Strings Require Import Byte.
From stdpp Require Import sorting.

Local Open Scope Z_scope.
Local Open Scope string_scope.

(** ** Queries: LIMIT and ORDER BY *)

(** [LIMIT ?]: SQLite takes a negative bound as no bound. *)
Definition sql_limit {A} (n : Z) (rows : list A) : list A :=
  if Z.ltb n 0 then rows else take (Z.to_nat n) rows.

(** The order of NULL and values in SQLite: NULL is below every value. *)
Definition null_le (a b : option Z) : Prop :=
  match a, b with
  | None, _ => True
  | Some _, None => False
  | Some x, Some y => x <= y
  end.

#[export] Instance null_le_dec a b : Decision (null_le a b).
Proof. destruct a, b; simpl; apply _. Defined.

(** ORDER BY created_at DESC on [swarm_sessions]. *)
Definition newer_session (a b : SwarmSession) : Prop := created_at b <= created_at a.

#[export] Instance newer_session_dec a b : Decision (newer_session a b).
Proof. unfold newer_session. apply _. Defined.

(** ORDER BY started_at DESC on [swarm_workers]. *)
Definition later_worker (a b : SwarmWorker) : Prop :=
  null_le (started_at b) (started_at a).

#[export] Instance later_worker_dec a b : Decision (later_worker a b).
Proof. unfold later_worker. apply _. Defined.

(** The rows of [swarm_sessions], in the order of a table scan.  The order
    among rows that ORDER BY does not tell apart is SQLite's choice; here
    it is the one the merge sort leaves, and no statement depends on
    it. *)
Definition session_rows (db : Db) : list SwarmSession :=
  List.map snd (map_to_list (swarm_sessions db)).

(** [swarmDb.getSwarmSessions]; the filter on [project_name] is added only
    for a truthy [projectName], and [limit] defaults to 50.  The rows keep
    their [metadata] as text. *)
Definition getSwarmSessions (userId : Z) (projectName : option string)
    (limit : option Z) (db : Db) : list SwarmSession :=
  let wanted row :=
    Z.eqb (user_id row) userId
    && (if falsy projectName then true
        else str_eq (project_name row) (or_default projectName "")) in
  sql_limit (default 50 limit)
    (merge_sort newer_session (List.filter wanted (session_rows db))).

(** The SET clause of [setQueenAgent]. *)
Definition set_queen (queenAgent : option string) (row : SwarmSession) : SwarmSession :=
  mkSession (row_id row) (user_id row) (project_name row) (project_path row)
    (swarm_type row) queenAgent (task_description row)
    (status row) (namespace row) (created_at row) (completed_at row)
    (error_message row) (metadata row).

(** [swarmDb.setQueenAgent]. *)
Definition setQueenAgent (sessionId : string) (queenAgent : option string) (db : Db)
    : Db * bool :=
  match swarm_sessions db !! sessionId with
  | Some row =>
      (with_sessions db (<[sessionId := set_queen queenAgent row]> (swarm_sessions db)),
       true)
  | None => (db, false)
  end.

(** [swarmDb.getWorkers]. *)
Definition getWorkers (swarmSessionId : Z) (db : Db) : list SwarmWorker :=
  merge_sort later_worker
    (List.filter (fun w => Z.eqb (swarm_session_id w) swarmSessionId) (swarm_workers db)).

(** ** GET /swarm/session/:sessionId *)

(** The answer of a route: a payload sent with [res.json], or
    [res.status(code).json({ error, details })]. *)
Inductive Answer (A : Type) :=
| Sent (payload : A)
| Refused (code : Z) (error : string) (details : option string).

Arguments Sent {A}.
Arguments Refused {A}.

(** [{ session, workers, workerCount }]. *)
Definition swarm_session_route (sessionId : string) (db : Db)
    : Answer (SwarmSession * list SwarmWorker * nat) :=
  match getSwarmSession sessionId db with
  | None => Refused 404 "Swarm session not found" None
  | Some session =>
      let workers := getWorkers (row_id session) db in
      Sent (session, workers, length workers)
  end.

(** ** The relay of the execute route *)

(** The frame [sendEvent] writes for a chunk. *)
Definition chunk_event (sessionId : string) (c : Chunk) : SseEvent :=
  match c with
  | OnStdout chunk => mkEvent "output" chunk sessionId None None None
  | OnStderr chunk => mkEvent "error" chunk sessionId None None None
  end.

(** The text that arrived on the output channel, in order of arrival. *)
Fixpoint stdout_text (chunks : list Chunk) : string :=
  match chunks with
  | [] => ""
  | OnStdout chunk :: rest => chunk ++ stdout_text rest
  | OnStderr _ :: rest => stdout_text rest
  end.

(** ** Memory operation log ([swarmDb]) *)

(** A row of [memory_operations]. *)
Record MemoryOperation := mkMemoryOperation {
  mo_id : Z;
  mo_user_id : Z;
  mo_swarm_session_id : option Z;
  operation_type : string;
  mo_namespace : option string;
  key_name : option string;
  query_text : option string;
  result_count : Z;
  latency_ms : Z;
  mo_success : bool;
  mo_error_message : option string;
  mo_created_at : timestamp;
  mo_metadata : option string
}.

(** The table [memory_operations] with its AUTOINCREMENT counter. *)
Record MemoryLog := mkMemoryLog {
  mo_rows : list MemoryOperation;
  mo_seq : Z
}.

Definition empty_log : MemoryLog := mkMemoryLog [] 0.

(** [swarmDb.logMemoryOperation]; the defaults of its trailing parameters
    are written out by the callers below.  A non-NULL [swarmSessionId]
    must be the integer key of a session.  The INSERT leaves [created_at]
    to its DEFAULT, CURRENT_TIMESTAMP. *)
Definition logMemoryOperation (now : Z) (userId : Z) (operationType namespace : string)
    (keyName queryText : option string) (resultCount latencyMs : Z) (success : bool)
    (errorMessage : option string) (swarmSessionId : option Z) (metadata : string)
    (db : Db) (log : MemoryLog) : string + (MemoryLog * Z) :=
  let referenced :=
    match swarmSessionId with
    | Some rid => session_rowid_exists rid db
    | None => true
    end in
  if referenced then
    let rowid := mo_seq log + 1 in
    let row := mkMemoryOperation rowid userId swarmSessionId operationType
                 (Some namespace) keyName queryText resultCount latencyMs success
                 errorMessage (CURRENT_TIMESTAMP now) (Some metadata) in
    inr (mkMemoryLog (List.app (mo_rows log) [row]) rowid, rowid)
  else inl "FOREIGN KEY constraint failed".

(** ORDER BY created_at DESC on [memory_operations]. *)
Definition newer_operation (a b : MemoryOperation) : Prop :=
  mo_created_at b <= mo_created_at a.

#[export] Instance newer_operation_dec a b : Decision (newer_operation a b).
Proof. unfold newer_operation. apply _. Defined.

(** [swarmDb.getMemoryOperations]; [limit] defaults to 100 and the filter
    on [namespace] is added only for a truthy [namespace]. *)
Definition getMemoryOperations (userId : Z) (limit : option Z)
    (namespace : option string) (log : MemoryLog) : list MemoryOperation :=
  let wanted row :=
    Z.eqb (mo_user_id row) userId
    && (if falsy namespace then true
        else match mo_namespace row with
             | Some ns => str_eq ns (or_default namespace "")
             | None => false
             end) in
  sql_limit (default 100 limit)
    (merge_sort newer_operation (List.filter wanted (mo_rows log))).

(** ** POST /memory/store and POST /memory/query *)

(** The arguments of [spawn] in the memory routes. *)
Record MemorySpawn := mkMemorySpawn {
  ms_command : string;
  ms_args : list string;
  ms_cwd : string;
  env_MEMORY_NAMESPACE : string;
  ms_ANTHROPIC_API_KEY : string
}.

(** A route that either answers at once or spawns a child process and
    registers callbacks closing over [R]. *)
Inductive Launch (R : Type) :=
| Rejected (code : Z) (error : string) (details : option string)
| Launched (child : MemorySpawn) (runner : R).

Arguments Rejected {R}.
Arguments Launched {R}.

Definition launched {R} (l : Launch R) : list MemorySpawn :=
  match l with
  | Rejected _ _ _ => []
  | Launched child _ => [child]
  end.

(** What the [close] callback of a memory route sends. *)
Inductive MemoryAnswer (A : Type) :=
| MemorySent (payload : A)
| MemoryFailed (error details : string) (latency : Z).

Arguments MemorySent {A}.
Arguments MemoryFailed {A}.

(** [stderr || null]. *)
Definition or_null (s : string) : option string :=
  if str_eq s "" then None else Some s.

Record StoreRequest := mkStoreRequest {
  sr_namespace : option string;
  sr_key : option string;
  sr_content : option string;
  sr_projectPath : option string;
  sr_user : option Z
}.

(** What the callbacks of the store route close over. *)
Record StoreRunner := mkStoreRunner {
  st_userId : Z;
  st_namespace : string;
  st_key : string;
  st_startTime : Z;
  st_stdout : string;
  st_stderr : string
}.

(** The store route up to the registration of the callbacks; [cwd0] is
    [process.cwd()]. *)
Definition memory_store (now : Z) (cwd0 : string) (req : StoreRequest) (db : Db)
    : Launch StoreRunner :=
  let projectPath := or_default (sr_projectPath req) cwd0 in
  let userId := request_user (sr_user req) in
  if falsy (sr_namespace req) || falsy (sr_key req) || falsy (sr_content req)
  then Rejected 400 "Missing required fields"
         (Some "namespace, key, and content are required")
  else
    let namespace := or_default (sr_namespace req) "" in
    let key := or_default (sr_key req) "" in
    let content := or_default (sr_content req) "" in
    match getActiveCredential userId "claude_api_key" db with
    | None => Rejected 400 "Claude API key not configured"
                (Some "Please add your Claude API key in settings")
    | Some claudeApiKey =>
        let startTime := now in
        let args := ["claude-flow@alpha"; "memory"; "store"; key; content] in
        Launched (mkMemorySpawn "npx" args projectPath namespace claudeApiKey)
          (mkStoreRunner userId namespace key startTime "" "")
    end.

(** The data callbacks of the store route. *)
Definition store_on_data (r : StoreRunner) (c : Chunk) : StoreRunner :=
  match c with
  | OnStdout chunk =>
      mkStoreRunner (st_userId r) (st_namespace r) (st_key r) (st_startTime r)
        (st_stdout r ++ chunk) (st_stderr r)
  | OnStderr chunk =>
      mkStoreRunner (st_userId r) (st_namespace r) (st_key r) (st_startTime r)
        (st_stdout r) (st_stderr r ++ chunk)
  end.

(** The [close] callback of the store route: it logs the operation, then
    answers.  The log is written with the defaults [swarmSessionId = null]
    and [metadata = {}]. *)
Definition store_on_close (now : Z) (exit_code : option Z) (r : StoreRunner)
    (db : Db) (log : MemoryLog)
    : string + (MemoryLog * MemoryAnswer (string * string * Z * string)) :=
  let latency := now - st_startTime r in
  let ok := match exit_code with Some c => Z.eqb c 0 | None => false end in
  match logMemoryOperation now (st_userId r) "store" (st_namespace r)
          (Some (st_key r)) None 0 latency ok (or_null (st_stderr r)) None "{}"
          db log with
  | inl message => inl message
  | inr (log', _) =>
      inr (log',
           if ok
           then MemorySent (st_namespace r, st_key r, latency, st_stdout r)
           else MemoryFailed "Failed to store memory" (st_stderr r) latency)
  end.

Record QueryRequest := mkQueryRequest {
  qr_namespace : option string;
  qr_query : option string;
  qr_operationType : option string;
  qr_projectPath : option string;
  qr_user : option Z
}.

(** What the callbacks of the query route close over. *)
Record QueryRunner := mkQueryRunner {
  q_userId : Z;
  q_namespace : string;
  q_query : string;
  q_operationType : string;
  q_startTime : Z;
  q_stdout : string;
  q_stderr : string
}.

(** The query route up to the registration of the callbacks. *)
Definition memory_query (now : Z) (cwd0 : string) (req : QueryRequest) (db : Db)
    : Launch QueryRunner :=
  let operationType := or_default (qr_operationType req) "query" in
  let projectPath := or_default (qr_projectPath req) cwd0 in
  let userId := request_user (qr_user req) in
  if falsy (qr_namespace req) || falsy (qr_query req)
  then Rejected 400 "Missing required fields" (Some "namespace and query are required")
  else
    let namespace := or_default (qr_namespace req) "" in
    let query := or_default (qr_query req) "" in
    match getActiveCredential userId "claude_api_key" db with
    | None => Rejected 400 "Claude API key not configured"
                (Some "Please add your Claude API key in settings")
    | Some claudeApiKey =>
        let startTime := now in
        let commandType :=
          if str_eq operationType "vector-search" then "vector-search" else "query" in
        let args := ["claude-flow@alpha"; "memory"; commandType; query] in
        Launched (mkMemorySpawn "npx" args projectPath namespace claudeApiKey)
          (mkQueryRunner userId namespace query operationType startTime "" "")
    end.

Definition query_on_data (r : QueryRunner) (c : Chunk) : QueryRunner :=
  match c with
  | OnStdout chunk =>
      mkQueryRunner (q_userId r) (q_namespace r) (q_query r) (q_operationType r)
        (q_startTime r) (q_stdout r ++ chunk) (q_stderr r)
  | OnStderr chunk =>
      mkQueryRunner (q_userId r) (q_namespace r) (q_query r) (q_operationType r)
        (q_startTime r) (q_stdout r) (q_stderr r ++ chunk)
  end.

(** The value of [results] in the reply of the query route. *)
Inductive QueryResults (json : Type) :=
| NoResults
| ParsedResults (value : json)
| TextResults (text : string).

Arguments NoResults {json}.
Arguments ParsedResults {json}.
Arguments TextResults {json}.

Section MemoryQuery.
(** [JSON.parse] ([None] when it throws) and, for an array, its length
    ([Array.isArray(v) ? v.length : 1] is [array_length_or_one]). *)
Context {json : Type} (JSON_parse : string -> option json)
        (array_length : json -> option nat).

Definition array_length_or_one (v : json) : Z :=
  match array_length v with
  | Some n => Z.of_nat n
  | None => 1
  end.

(** The parsing step of the [close] callback. *)
Definition parse_results (ok : bool) (stdout : string) : QueryResults json * Z :=
  if ok && negb (str_eq stdout "") then
    match JSON_parse stdout with
    | Some results => (ParsedResults results, array_length_or_one results)
    | None => (TextResults stdout, 1)
    end
  else (NoResults, 0).

(** The [close] callback of the query route. *)
Definition query_on_close (now : Z) (exit_code : option Z) (r : QueryRunner)
    (db : Db) (log : MemoryLog)
    : string + (MemoryLog
                * MemoryAnswer (string * string * QueryResults json * Z * Z)) :=
  let latency := now - q_startTime r in
  let ok := match exit_code with Some c => Z.eqb c 0 | None => false end in
  let '(results, resultCount) := parse_results ok (q_stdout r) in
  match logMemoryOperation now (q_userId r) (q_operationType r) (q_namespace r)
          None (Some (q_query r)) resultCount latency ok (or_null (q_stderr r))
          None "{}" db log with
  | inl message => inl message
  | inr (log', _) =>
      inr (log',
           if ok
           then MemorySent (q_namespace r, q_query r, results, resultCount, latency)
           else MemoryFailed "Failed to query memory" (q_stderr r) latency)
  end.

End MemoryQuery.

(** ** Reading the agent metrics *)

(** ORDER BY usage_count DESC on [agent_metrics]; a listed row comes with
    its key (user_id, agent_type). *)
Definition busier_metric {F} (a b : Z * string * AgentMetric F) : Prop :=
  usage_count (snd b) <= usage_count (snd a).

#[export] Instance busier_metric_dec {F} (a b : Z * string * AgentMetric F) :
  Decision (busier_metric a b).
Proof. unfold busier_metric. apply _. Defined.

(** [swarmDb.getAgentMetrics]; the filter on [agent_type] is added only
    for a truthy [agentType]. *)
Definition getAgentMetrics {F} (userId : Z) (agentType : option string)
    (tbl : gmap (Z * string) (AgentMetric F)) : list (Z * string * AgentMetric F) :=
  let wanted (kv : Z * string * AgentMetric F) :=
    Z.eqb (fst (fst kv)) userId
    && (if falsy agentType then true
        else str_eq (snd (fst kv)) (or_default agentType "")) in
  merge_sort busier_metric (List.filter wanted (map_to_list tbl)).

(** The calls of a sequence that address the pair (userId, agentType). *)
Definition calls_for {F} (userId : Z) (agentType : string)
    (calls : list (MetricCall F)) : list (MetricCall F) :=
  List.filter (fun c => Z.eqb (mc_userId c) userId && str_eq (mc_agentType c) agentType)
    calls.

Definition sum_of {A} (f : A -> Z) (l : list A) : Z :=
  fold_right (fun x acc => f x + acc) 0 l.

(** ** Templates ([swarmDb] and swarm-schema.sql) *)

(** A row of [swarm_templates]; [agent_types] is the array whose JSON text
    the column holds ([JSON.stringify] on the way in, [JSON.parse] on the
    way out). *)
Record SwarmTemplate := mkTemplate {
  t_id : Z;
  t_user_id : option Z;
  template_name : string;
  t_description : option string;
  t_swarm_type : string;
  agent_types : list string;
  default_namespace : option string;
  task_template : option string;
  is_system : bool;
  t_created_at : timestamp;
  t_updated_at : timestamp
}.

(** The table [swarm_templates] with its AUTOINCREMENT counter. *)
Record Templates := mkTemplates {
  t_rows : list SwarmTemplate;
  t_seq : Z
}.

Definition empty_templates : Templates := mkTemplates [] 0.

(** One row of a multi-row INSERT; no column of the table is UNIQUE apart
    from the generated key, so the row is always added. *)
Definition insert_template (now : Z) (userId : option Z) (name : string)
    (description : option string) (swarmType : string) (agentTypes : list string)
    (defaultNamespace taskTemplate : option string) (isSystem : bool)
    (t : Templates) : Templates :=
  let rowid := t_seq t + 1 in
  mkTemplates
    (List.app (t_rows t)
       [mkTemplate rowid userId name description swarmType agentTypes
          defaultNamespace taskTemplate isSystem now now])
    rowid.

(** The statement [INSERT OR IGNORE INTO swarm_templates ... VALUES] that
    ends swarm-schema.sql. *)
Definition insert_system_templates (now : Z) (t : Templates) : Templates :=
  let add name description swarmType agentTypes ns task t :=
    insert_template now None name (Some description) swarmType agentTypes
      (Some ns) (Some task) true t in
  add "Testing" "Create comprehensive test suites" "quick"
    ["test-writer"; "test-runner"; "code-analyzer"] "testing"
    "Create tests for: {{path}}"
  (add "Documentation" "Generate comprehensive documentation" "quick"
    ["documentation"; "code-analyzer"] "docs" "Document: {{path}}"
  (add "Refactoring" "Refactor code for better quality" "hive-mind"
    ["architect"; "code-analyzer"; "refactoring-agent"; "test-writer"] "refactor"
    "Refactor: {{description}}"
  (add "Code Review" "Comprehensive code review with suggestions" "quick"
    ["code-analyzer"; "security-auditor"; "performance-optimizer"] "review"
    "Review code in: {{path}}"
  (add "Feature Development" "Develop new features from requirements" "hive-mind"
    ["architect"; "code-generator"; "test-writer"; "documentation"] "feature"
    "Implement feature: {{description}}"
  (add "Bug Fix Swarm" "Quickly identify and fix bugs in code" "quick"
    ["code-analyzer"; "debugger"; "test-writer"] "bugfix"
    "Analyze and fix: {{description}}" t))))).

(** The schema script executed [n] times, as by [n] calls of
    [initializeDatabase]; [nows] are the instants of the executions. *)
Definition run_schema (nows : list Z) (t : Templates) : Templates :=
  fold_left (fun t now => insert_system_templates now t) nows t.

(** [swarmDb.createSwarmTemplate]. *)
Definition createSwarmTemplate (now : Z) (userId : Z)
    (templateName : string) (description : option string) (swarmType : string)
    (agentTypes : list string) (defaultNamespace taskTemplate : option string)
    (t : Templates) : Templates * (Z * string) :=
  let t' := insert_template now (Some userId) templateName description swarmType
              agentTypes defaultNamespace taskTemplate false t in
  (t', (t_seq t', templateName)).

(** ORDER BY is_system DESC, created_at DESC. *)
Definition template_before (a b : SwarmTemplate) : Prop :=
  Z.b2z (is_system b) < Z.b2z (is_system a)
  \/ (Z.b2z (is_system b) = Z.b2z (is_system a) /\ t_created_at b <= t_created_at a).

#[export] Instance template_before_dec a b : Decision (template_before a b).
Proof. unfold template_before. apply _. Defined.

(** A truthy [userId]: neither [null] nor 0. *)
Definition truthy_id (userId : option Z) : bool :=
  match userId with
  | Some uid => negb (Z.eqb uid 0)
  | None => false
  end.

Definition owned_by (userId : option Z) (row : SwarmTemplate) : bool :=
  match userId, t_user_id row with
  | Some uid, Some owner => Z.eqb owner uid
  | _, _ => false
  end.

(** [swarmDb.getSwarmTemplates]. *)
Definition getSwarmTemplates (userId : option Z) (includeSystem : bool)
    (t : Templates) : list SwarmTemplate :=
  let select wanted := merge_sort template_before (List.filter wanted (t_rows t)) in
  if includeSystem && truthy_id userId
  then select (fun row => is_system row || owned_by userId row)
  else if includeSystem then select (fun row => is_system row)
  else if truthy_id userId then select (fun row => owned_by userId row)
  else [].

(** GET /templates; [includeSystem] is [req.query.includeSystem]. *)
Definition templates_route (user : option Z) (includeSystem : option string)
    (t : Templates) : Answer (list SwarmTemplate * nat) :=
  let userId := request_user user in
  let includeSystem :=
    match includeSystem with
    | Some s => negb (str_eq s "false")
    | None => true
    end in
  let templates := getSwarmTemplates (Some userId) includeSystem t in
  Sent (templates, length templates).

Record TemplateRequest := mkTemplateRequest {
  tr_templateName : option string;
  tr_description : option string;
  tr_swarmType : option string;
  tr_agentTypes : option (list string);
  tr_defaultNamespace : option string;
  tr_taskTemplate : option string;
  tr_user : option Z
}.

(** [!agentTypes]: an array is truthy even when empty, so only an absent
    one is falsy. *)
Definition falsy_array {A} (x : option (list A)) : bool :=
  match x with
  | None => true
  | Some _ => false
  end.

(** POST /templates. *)
Definition create_template_route (now : Z) (req : TemplateRequest) (t : Templates)
    : Templates * Answer (Z * string) :=
  let userId := request_user (tr_user req) in
  if falsy (tr_templateName req) || falsy (tr_swarmType req)
     || falsy_array (tr_agentTypes req)
  then (t, Refused 400 "Missing required fields"
             (Some "templateName, swarmType, and agentTypes are required"))
  else
    let '(t', template) :=
      createSwarmTemplate now userId (or_default (tr_templateName req) "")
        (tr_description req) (or_default (tr_swarmType req) "")
        (default [] (tr_agentTypes req))
        (tr_defaultNamespace req) (tr_taskTemplate req) t in
    (t', Sent template).

(** ** API keys and credentials *)

(** One hexadecimal digit of [Buffer.toString('hex')]. *)
Definition hex_digit (n : N) : ascii :=
  match n with
  | 0%N => "0" | 1%N => "1" | 2%N => "2" | 3%N => "3"
  | 4%N => "4" | 5%N => "5" | 6%N => "6" | 7%N => "7"
  | 8%N => "8" | 9%N => "9" | 10%N => "a" | 11%N => "b"
  | 12%N => "c" | 13%N => "d" | 14%N => "e" | _ => "f"
  end%char.

(** [buffer.toString('hex')]: two digits per byte, high digit first. *)
Fixpoint to_hex (bytes : list Byte.byte) : string :=
  match bytes with
  | [] => ""
  | b :: rest =>
      String (hex_digit (N.div (Byte.to_N b) 16))
        (String (hex_digit (N.modulo (Byte.to_N b) 16)) (to_hex rest))
  end.

(** [apiKeysDb.generateApiKey]; [random] is [crypto.randomBytes(32)]. *)
Definition generateApiKey (random : list Byte.byte) : string :=
  "ck_" ++ to_hex random.

(** [githubTokensDb.getActiveGithubToken]. *)
Definition getActiveGithubToken (userId : Z) (db : Db) : option string :=
  getActiveCredential userId "github_token" db.

(** ** The agent selector of the client (AgentSelector.jsx) *)

(** [selected.includes(agentType)]. *)
Definition includes (selected : list string) (agentType : string) : bool :=
  existsb (fun a => str_eq a agentType) selected.

(** [handleToggle]: the new selection. *)
Definition handleToggle (selected : list string) (agentType : string) : list string :=
  if includes selected agentType
  then List.filter (fun a => negb (str_eq a agentType)) selected
  else List.app selected [agentType].

(** ** Sequences of operations on sessions and workers *)

(** The operations of [swarmDb] and of the routes that write
    [swarm_sessions] or [swarm_workers]. *)
Inductive StoreOp :=
| SCreate (uuid : string) (req : CreateRequest)
| SSetStatus (sessionId st : string) (errorMessage : option string)
| SAbort (sessionId : string)
| SSetQueen (sessionId : string) (queenAgent : option string)
| SCreateWorker (swarmSessionId : Z) (workerId agentType agentName task metadata : string)
| SWorkerStatus (workerId st : string) (res errorMessage : option string)
| SWorkerTokens (workerId : string) (inputTokens outputTokens : Z).

(** One operation, run at the instant [now]; a statement that throws
    leaves the store as it was. *)
Definition store_step (db : Db) (o : Z * StoreOp) : Db :=
  match o with
  | (now, SCreate uuid req) => fst (swarm_create now uuid req db)
  | (now, SSetStatus sessionId st errorMessage) =>
      fst (updateSwarmStatus now sessionId st errorMessage db)
  | (now, SAbort sessionId) => fst (swarm_abort now sessionId db)
  | (_, SSetQueen sessionId queenAgent) => fst (setQueenAgent sessionId queenAgent db)
  | (_, SCreateWorker swarmSessionId workerId agentType agentName task metadata) =>
      match createWorker swarmSessionId workerId agentType agentName task metadata db with
      | inr (db', _) => db'
      | inl _ => db
      end
  | (now, SWorkerStatus workerId st res errorMessage) =>
      fst (updateWorkerStatus now workerId st res errorMessage db)
  | (_, SWorkerTokens workerId inputTokens outputTokens) =>
      fst (updateWorkerTokens workerId inputTokens outputTokens db)
  end.

Definition run_store (ops : list (Z * StoreOp)) (db : Db) : Db :=
  fold_left store_step ops db.

(** Integrity of the two swarm tables: the integer keys of the sessions
    are positive, below the counter and pairwise distinct; every worker
    points to a session and its token total is the sum of its counts as
    a double. *)
Definition store_ok (db : Db) : Prop :=
  0 <= session_seq db
  /\ (forall sid row, swarm_sessions db !! sid = Some row ->
        1 <= row_id row <= session_seq db)
  /\ (forall sid1 sid2 row1 row2,
        swarm_sessions db !! sid1 = Some row1 ->
        swarm_sessions db !! sid2 = Some row2 ->
        row_id row1 = row_id row2 -> sid1 = sid2)
  /\ (forall w, w ∈ swarm_workers db ->
        total_tokens w = js_add (input_tokens w) (output_tokens w)
        /\ exists sid row,
             swarm_sessions db !! sid = Some row /\ row_id row = swarm_session_id w).

(** The value of a hexadecimal digit; the inverse of [hex_digit], used to
    read a key back. *)
Definition hex_value (c : ascii) : N :=
  let n := N_of_ascii c in
  if N.leb 97 n then (n - 87)%N else (n - 48)%N.

(** The characters of lowercase hexadecimal: [0] to [9] and [a] to [f]. *)
Definition is_hex_digit (c : ascii) : bool :=
  let n := N_of_ascii c in
  (N.leb 48 n && N.leb n 57) || (N.leb 97 n && N.leb n 102).

Fixpoint all_chars (p : ascii -> bool) (s : string) : bool :=
  match s with
  | EmptyString => true
  | String c rest => p c && all_chars p rest
  end.

(** The condition [user_id = ? AND credential_type = ? AND is_active = 1]. *)
Definition active_for (userId : Z) (credentialType : string) (c : Credential) : Prop :=
  c_user_id c = userId /\ credential_type c = credentialType /\ is_active c = true.

(** ** Sample data for the rest of the store *)

Definition sample_request_beta : CreateRequest :=
  mkCreateRequest (Some "beta") (Some "/srv/beta") (Some "add login")
    (Some "hive-mind") sample_metadata (Some 8).

(** Two sessions, one worker that was started and has reported tokens,
    and the first session completed. *)
Definition sample_store_ops : list (Z * StoreOp) :=
  [(1000, SCreate "u1" sample_request);
   (1100, SCreate "u2" sample_request_beta);
   (1200, SCreateWorker 1 "w1" "debugger" "Debugger" "find the bug" "{}");
   (1300, SWorkerStatus "w1" "active" None None);
   (1400, SWorkerTokens "w1" 1200 345);
   (2000, SSetStatus "swarm-u1" "completed" None)].

Definition sample_store : Db := run_store sample_store_ops empty_db.

Definition sample_row_beta : SwarmSession :=
  mkSession 2 8 "beta" "/srv/beta" "hive-mind" None "add login" "active"
    (Some "beta-1100") 1000 None None (Some sample_metadata).

Definition sample_worker_started : SwarmWorker :=
  mkWorker 1 1 "w1" "debugger" "Debugger" "find the bug" "active"
    (Some 1300) None 1200 345 1545 None None (Some "{}").

Definition sample_store_request : StoreRequest :=
  mkStoreRequest (Some "acme") (Some "style") (Some "tabs, not spaces") None (Some 7).

Definition sample_query_request : QueryRequest :=
  mkQueryRequest (Some "acme") (Some "indentation") (Some "semantic") None (Some 7).

Definition sample_template_request : TemplateRequest :=
  mkTemplateRequest (Some "Nightly") (Some "Runs every night") (Some "quick")
    (Some []) None None (Some 7).

(** A stand-in for [JSON.parse] on the sample outputs: a JSON value is
    the length of an array; only ["[]"] parses. *)
Definition sample_parse (s : string) : option nat :=
  if str_eq s "[]" then Some 0%nat else None.

Definition sample_array_length (v : nat) : option nat := Some v.

(** * Properties *)

(** ** String comparison and the terminal statuses *)

Lemma str_eq_true a b : str_eq a b = true <-> a = b.
Proof. apply String.eqb_eq. Qed.

Lemma str_eq_false a b : str_eq a b = false <-> a <> b.
Proof. apply String.eqb_neq. Qed.

Lemma is_terminal_spec st :
  is_terminal st = true <-> st = "completed" \/ st = "failed" \/ st = "aborted".
Proof.
  unfold is_terminal. rewrite !orb_true_iff, !str_eq_true. tauto.
Qed.

(** ** [updateSwarmStatus] row by row *)

Lemma updateSwarmStatus_hit now sid st err db row :
  swarm_sessions db !! sid = Some row ->
  updateSwarmStatus now sid st err db =
    (with_sessions db
       (<[sid := set_session_status st err
                   (if is_terminal st then Some now else None) row]>
          (swarm_sessions db)),
     true).
Proof. intros Hrow. unfold updateSwarmStatus. now rewrite Hrow. Qed.

Lemma updateSwarmStatus_miss now sid st err db :
  swarm_sessions db !! sid = None ->
  updateSwarmStatus now sid st err db = (db, false).
Proof. intros Hrow. unfold updateSwarmStatus. now rewrite Hrow. Qed.

Lemma updateSwarmStatus_lookup now sid st err db row :
  swarm_sessions db !! sid = Some row ->
  swarm_sessions (fst (updateSwarmStatus now sid st err db)) !! sid =
    Some (set_session_status st err (if is_terminal st then Some now else None) row).
Proof.
  intros Hrow. rewrite (updateSwarmStatus_hit _ _ _ _ _ _ Hrow). simpl.
  apply lookup_insert_eq.
Qed.

Lemma updateSwarmStatus_other now sid st err db sid' :
  sid <> sid' ->
  swarm_sessions (fst (updateSwarmStatus now sid st err db)) !! sid' =
    swarm_sessions db !! sid'.
Proof.
  intros Hne. unfold updateSwarmStatus.
  destruct (swarm_sessions db !! sid) as [row|]; simpl; [|reflexivity].
  now apply lookup_insert_ne.
Qed.

Lemma swarm_abort_lookup now sid db row :
  swarm_sessions db !! sid = Some row ->
  swarm_sessions (fst (swarm_abort now sid db)) !! sid =
    Some (set_session_status "aborted" None (Some now) row).
Proof.
  intros Hrow. unfold swarm_abort, getSwarmSession. rewrite Hrow. simpl.
  now rewrite (updateSwarmStatus_lookup _ _ _ _ _ _ Hrow).
Qed.

(** ** The invariant that ties [completed_at] to the status *)

Lemma set_session_status_consistent now st err row :
  consistent (set_session_status st err (if is_terminal st then Some now else None) row).
Proof.
  unfold consistent. simpl. destruct (is_terminal st); split; intro Hx.
  - reflexivity.
  - now exists now.
  - destruct Hx as [x Hx]. discriminate.
  - discriminate.
Qed.

Lemma updateSwarmStatus_consistent now sid st err db :
  all_consistent db -> all_consistent (fst (updateSwarmStatus now sid st err db)).
Proof.
  intros Hdb sid' row'. destruct (decide (sid = sid')) as [<-|Hne].
  - destruct (swarm_sessions db !! sid) as [row|] eqn:Hrow.
    + rewrite (updateSwarmStatus_lookup _ _ _ _ _ _ Hrow).
      intros [= <-]. apply set_session_status_consistent.
    + rewrite (updateSwarmStatus_miss _ _ _ _ _ Hrow). simpl. apply Hdb.
  - rewrite updateSwarmStatus_other by assumption. apply Hdb.
Qed.

Lemma swarm_abort_consistent now sid db :
  all_consistent db -> all_consistent (fst (swarm_abort now sid db)).
Proof.
  intros Hdb. unfold swarm_abort.
  destruct (getSwarmSession sid db); simpl; [|assumption].
  now apply updateSwarmStatus_consistent.
Qed.

Lemma swarm_create_consistent now uuid req db :
  all_consistent db -> all_consistent (fst (swarm_create now uuid req db)).
Proof.
  intros Hdb. unfold swarm_create.
  destruct (falsy (cr_projectName req) || falsy (cr_projectPath req)
            || falsy (cr_taskDescription req)); simpl; [assumption|].
  generalize ("swarm-" ++ uuid). intros sid0. unfold createSwarmSession.
  destruct (swarm_sessions db !! sid0) eqn:Hfree; simpl; [assumption|].
  intros sid row. cbn [swarm_sessions fst].
  destruct (decide (sid0 = sid)) as [<-|Hne].
  - rewrite lookup_insert_eq. intros [= <-]. unfold consistent. simpl.
    split; [intros [x Hx]; discriminate | discriminate].
  - rewrite lookup_insert_ne by assumption. apply Hdb.
Qed.

Lemma step_consistent db o : all_consistent db -> all_consistent (step db o).
Proof.
  destruct o as [now [uuid req | sid st err | sid]]; simpl.
  - apply swarm_create_consistent.
  - apply updateSwarmStatus_consistent.
  - apply swarm_abort_consistent.
Qed.

Lemma run_consistent ops : forall db, all_consistent db -> all_consistent (run ops db).
Proof.
  induction ops as [|o ops IH]; intros db Hdb; simpl; [assumption|].
  apply IH, step_consistent, Hdb.
Qed.

Lemma empty_db_consistent : all_consistent empty_db.
Proof. intros sid row. simpl. now rewrite lookup_empty. Qed.

Lemma sample_db_active_row :
  swarm_sessions sample_db_active !! "swarm-u1" = Some sample_row_active.
Proof. reflexivity. Qed.

Lemma sample_db_completed_row :
  swarm_sessions sample_db_completed !! "swarm-u1" = Some sample_row_completed.
Proof. reflexivity. Qed.

(** ** C1: terminal statuses and [completed_at] *)

(** C1, as the claim states it, fails: a session that is [completed] is
    moved to [aborted] by the abort route, and back to [active] by
    [updateSwarmStatus]; a terminal status is not final. *)
Lemma terminal_status_overwritten :
  status <$> swarm_sessions sample_db_completed !! "swarm-u1" = Some "completed"
  /\ is_terminal "completed" = true
  /\ status <$> swarm_sessions (fst (swarm_abort 3000 "swarm-u1" sample_db_completed))
                  !! "swarm-u1" = Some "aborted"
  /\ status <$> swarm_sessions
                  (fst (updateSwarmStatus 3000 "swarm-u1" "active" None sample_db_completed))
                  !! "swarm-u1" = Some "active"
  /\ status <$> swarm_sessions (fst (swarm_abort 3000 "swarm-u1" sample_db_completed))
                  !! "swarm-u1"
     <> status <$> swarm_sessions sample_db_completed !! "swarm-u1".
Proof. vm_compute. repeat split; discriminate. Qed.

(** C1, amended: in every store reached from the empty one by session
    creations, status updates and aborts, each session has a completion
    time exactly when its status is terminal; a status update or an abort
    of an existing session always stores the status it is given, whatever
    the status was. *)
Theorem completed_at_iff_terminal ops sid row :
  swarm_sessions (run ops empty_db) !! sid = Some row ->
  (is_Some (completed_at row) <-> is_terminal (status row) = true)
  /\ (forall now st err,
        status <$> swarm_sessions
                     (fst (updateSwarmStatus now sid st err (run ops empty_db))) !! sid
        = Some st)
  /\ (forall now,
        status <$> swarm_sessions (fst (swarm_abort now sid (run ops empty_db))) !! sid
        = Some "aborted").
Proof.
  intros Hrow. split; [|split].
  - exact (run_consistent ops empty_db empty_db_consistent sid row Hrow).
  - intros now st err. now rewrite (updateSwarmStatus_lookup _ _ _ _ _ _ Hrow).
  - intros now. now rewrite (swarm_abort_lookup _ _ _ _ Hrow).
Qed.

Lemma completed_at_iff_terminal_witness :
  swarm_sessions (run sample_ops empty_db) !! "swarm-u1" = Some sample_row_completed
  /\ (is_Some (completed_at sample_row_completed)
      <-> is_terminal (status sample_row_completed) = true).
Proof.
  split; [reflexivity|].
  apply (completed_at_iff_terminal sample_ops "swarm-u1" sample_row_completed).
  reflexivity.
Defined.

(** ** C2: the same terminal status written twice *)

(** C2, as the claim states it, fails: the second [updateSwarmStatus]
    with the same terminal status replaces the completion time of the
    first by the instant of the second call. *)
Lemma second_status_update_moves_completed_at :
  let db1 := fst (updateSwarmStatus 2000 "swarm-u1" "completed" None sample_db_active) in
  let db2 := fst (updateSwarmStatus 3000 "swarm-u1" "completed" None db1) in
  completed_at <$> swarm_sessions db1 !! "swarm-u1" = Some (Some 2000)
  /\ completed_at <$> swarm_sessions db2 !! "swarm-u1" = Some (Some 3000)
  /\ completed_at <$> swarm_sessions db2 !! "swarm-u1"
     <> completed_at <$> swarm_sessions db1 !! "swarm-u1".
Proof. vm_compute. repeat split; discriminate. Qed.

(** C2, amended: two successive [updateSwarmStatus] calls on an existing
    session with the same terminal status leave [completed_at] at the
    instant read by the second call (the last write wins); it keeps the
    value of the first call exactly when both calls read the same
    instant. *)
Theorem completed_at_last_write_wins now1 now2 sid st err1 err2 db row :
  swarm_sessions db !! sid = Some row ->
  is_terminal st = true ->
  let db1 := fst (updateSwarmStatus now1 sid st err1 db) in
  let db2 := fst (updateSwarmStatus now2 sid st err2 db1) in
  completed_at <$> swarm_sessions db1 !! sid = Some (Some now1)
  /\ completed_at <$> swarm_sessions db2 !! sid = Some (Some now2)
  /\ (completed_at <$> swarm_sessions db2 !! sid
      = completed_at <$> swarm_sessions db1 !! sid <-> now1 = now2).
Proof.
  intros Hrow Hst db1 db2.
  pose proof (updateSwarmStatus_lookup now1 sid st err1 db row Hrow) as H1.
  fold db1 in H1.
  pose proof (updateSwarmStatus_lookup now2 sid st err2 db1 _ H1) as H2.
  fold db2 in H2. rewrite Hst in H1, H2. rewrite H1, H2. simpl.
  repeat split; congruence.
Qed.

Lemma completed_at_last_write_wins_witness :
  completed_at <$> swarm_sessions
    (fst (updateSwarmStatus 3000 "swarm-u1" "failed" (Some "again")
       (fst (updateSwarmStatus 2000 "swarm-u1" "failed" (Some "boom") sample_db_active))))
    !! "swarm-u1" = Some (Some 3000).
Proof.
  apply (completed_at_last_write_wins 2000 3000 "swarm-u1" "failed"
           (Some "boom") (Some "again") sample_db_active sample_row_active);
    reflexivity.
Defined.

(** ** C3: what [updateSwarmStatus] writes and reports *)

(** C3, as the claim states it, fails: a non-terminal status does not
    leave the timestamps alone, it erases the completion time of a session
    that had one. *)
Lemma non_terminal_status_clears_completed_at :
  is_terminal "active" = false
  /\ completed_at <$> swarm_sessions sample_db_completed !! "swarm-u1" = Some (Some 2000)
  /\ completed_at <$> swarm_sessions
       (fst (updateSwarmStatus 3000 "swarm-u1" "active" None sample_db_completed))
       !! "swarm-u1" = Some None
  /\ completed_at <$> swarm_sessions
       (fst (updateSwarmStatus 3000 "swarm-u1" "active" None sample_db_completed))
       !! "swarm-u1"
     <> completed_at <$> swarm_sessions sample_db_completed !! "swarm-u1".
Proof. vm_compute. repeat split; discriminate. Qed.

(** C3, amended: on an existing session [updateSwarmStatus] reports
    [true], stores the status and the error text it is given, sets
    [completed_at] to the current instant when the status is terminal and
    to NULL when it is not, and leaves [created_at] and every other column
    as they were; when no row has the identifier it reports [false] and
    the store is unchanged. *)
Theorem updateSwarmStatus_effect now sid st err db :
  match swarm_sessions db !! sid with
  | Some row =>
      snd (updateSwarmStatus now sid st err db) = true
      /\ swarm_sessions (fst (updateSwarmStatus now sid st err db)) !! sid =
           Some (mkSession (row_id row) (user_id row) (project_name row)
                   (project_path row) (swarm_type row) (queen_agent row)
                   (task_description row) st (namespace row) (created_at row)
                   (if is_terminal st then Some now else None) err (metadata row))
  | None => updateSwarmStatus now sid st err db = (db, false)
  end.
Proof.
  destruct (swarm_sessions db !! sid) as [row|] eqn:Hrow.
  - split.
    + now rewrite (updateSwarmStatus_hit _ _ _ _ _ _ Hrow).
    + now rewrite (updateSwarmStatus_lookup _ _ _ _ _ _ Hrow).
  - now apply updateSwarmStatus_miss.
Qed.

(** ** C10: the abort route *)

(** C10: on an existing session, whatever its status, the abort route
    answers 200 with [status: "aborted"] and stores the status [aborted],
    a NULL error message and the current instant as completion time; the
    other columns and the other sessions are untouched. *)
Theorem abort_overwrites now sid db row :
  swarm_sessions db !! sid = Some row ->
  snd (swarm_abort now sid db) = mkReply 200 (AbortedBody sid "aborted")
  /\ swarm_sessions (fst (swarm_abort now sid db)) !! sid =
       Some (mkSession (row_id row) (user_id row) (project_name row)
               (project_path row) (swarm_type row) (queen_agent row)
               (task_description row) "aborted" (namespace row) (created_at row)
               (Some now) None (metadata row))
  /\ (forall sid', sid <> sid' ->
        swarm_sessions (fst (swarm_abort now sid db)) !! sid' = swarm_sessions db !! sid').
Proof.
  intros Hrow. split; [|split].
  - unfold swarm_abort, getSwarmSession. now rewrite Hrow.
  - now rewrite (swarm_abort_lookup _ _ _ _ Hrow).
  - intros sid' Hne. unfold swarm_abort, getSwarmSession. rewrite Hrow. simpl.
    now apply updateSwarmStatus_other.
Qed.

Lemma abort_overwrites_witness :
  (status <$> swarm_sessions sample_db_completed !! "swarm-u1" = Some "completed")
  /\ snd (swarm_abort 3000 "swarm-u1" sample_db_completed)
     = mkReply 200 (AbortedBody "swarm-u1" "aborted")
  /\ swarm_sessions (fst (swarm_abort 3000 "swarm-u1" sample_db_completed)) !! "swarm-u1" =
       Some (mkSession 1 7 "acme" "/srv/acme" "quick" None "fix bug" "aborted"
               (Some "acme-1000") 1000 (Some 3000) None (Some sample_metadata)).
Proof.
  split; [reflexivity|].
  pose proof (abort_overwrites 3000 "swarm-u1" sample_db_completed sample_row_completed
                eq_refl) as [Hreply [Hrow _]].
  split; [exact Hreply | exact Hrow].
Defined.

(** ** C9: validation of the create route *)

(** C9: when [projectName], [projectPath] or [taskDescription] is absent
    or empty, the create route answers 400 and the store is the one it was
    given: no row is inserted. *)
Theorem create_rejects_empty_fields now uuid req db :
  falsy (cr_projectName req) = true
  \/ falsy (cr_projectPath req) = true
  \/ falsy (cr_taskDescription req) = true ->
  swarm_create now uuid req db =
    (db, mkReply 400 (ErrorBody "Missing required fields"
           (Some "projectName, projectPath, and taskDescription are required"))).
Proof.
  intros Hempty. unfold swarm_create.
  assert (falsy (cr_projectName req) || falsy (cr_projectPath req)
          || falsy (cr_taskDescription req) = true) as ->; [|reflexivity].
  rewrite !orb_true_iff. tauto.
Qed.

Lemma create_rejects_empty_fields_witness :
  let req := mkCreateRequest (Some "acme") (Some "") (Some "fix bug") None
               sample_metadata (Some 7) in
  fst (swarm_create 1000 "u2" req sample_db_active) = sample_db_active
  /\ code (snd (swarm_create 1000 "u2" req sample_db_active)) = 400.
Proof.
  intros req.
  rewrite (create_rejects_empty_fields 1000 "u2" req sample_db_active
             (or_intror (or_introl eq_refl))).
  split; reflexivity.
Defined.

(** A request with the three fields and a fresh identifier does insert
    the row, with status [active] and no completion time. *)
Lemma create_inserts_active_row :
  snd (swarm_create 1000 "u1" sample_request empty_db)
    = mkReply 200 (CreatedBody "swarm-u1" "acme-1000" "quick" "acme" "active")
  /\ swarm_sessions (fst (swarm_create 1000 "u1" sample_request empty_db)) !! "swarm-u1"
     = Some sample_row_active.
Proof. split; reflexivity. Qed.

(** ** C7: the credential check of the execute route *)

Lemma swarm_execute_started now req db child runner :
  swarm_execute now req db = Started child runner ->
  getActiveCredential (request_user (er_user req)) "claude_api_key" db
    = Some (env_ANTHROPIC_API_KEY child)
  /\ r_sessionId runner = or_default (er_sessionId req) ""
  /\ stdout runner = "" /\ stderr runner = ""
  /\ is_Some (swarm_sessions db !! r_sessionId runner).
Proof.
  unfold swarm_execute, getSwarmSession.
  destruct (falsy (er_sessionId req) || falsy (er_taskDescription req)); [discriminate|].
  destruct (swarm_sessions db !! or_default (er_sessionId req) "") as [row|] eqn:Hrow;
    [|discriminate].
  destruct (getActiveCredential _ _ db) as [key|]; [|discriminate].
  intros [= <- <-]. simpl. rewrite Hrow. repeat split. now exists row.
Qed.

(** C7: when the owner has no active credential, the execute route
    spawns no child process; and when the request names an existing
    session, it answers with the configuration error: as an [error] event
    followed by the end of the stream when streaming, as a 400 reply
    otherwise. *)
Theorem no_credential_no_spawn now req db :
  getActiveCredential (request_user (er_user req)) "claude_api_key" db = None ->
  spawned (swarm_execute now req db) = []
  /\ (forall sid taskDescription row,
        er_sessionId req = Some sid -> sid <> "" ->
        er_taskDescription req = Some taskDescription -> taskDescription <> "" ->
        swarm_sessions db !! sid = Some row ->
        swarm_execute now req db =
          Answered
            (if default true (er_streaming req)
             then mkRes [mkEvent "status" "Initializing swarm..." sid None None None;
                         mkEvent "error" config_error_message sid None None None]
                        None true
             else mkRes [] (Some (mkReply 400 (ErrorBody config_error_message None)))
                        false)).
Proof.
  intros Hkey. split.
  - destruct (swarm_execute now req db) as [res|child runner] eqn:Hexec; [reflexivity|].
    apply swarm_execute_started in Hexec as [Hsome _]. congruence.
  - intros sid taskDescription row Hsid Hs Htask Ht Hrow.
    unfold swarm_execute, getSwarmSession. rewrite Hsid, Htask. simpl.
    apply str_eq_false in Hs, Ht. rewrite Hs, Ht. simpl. rewrite Hrow, Hkey.
    now destruct (default true (er_streaming req)).
Qed.

Lemma no_credential_no_spawn_witness :
  getActiveCredential 7 "claude_api_key" sample_db_active = None
  /\ spawned (swarm_execute 1500 sample_exec_request sample_db_active) = []
  /\ reply (response_of
              (swarm_execute 1500
                 (mkExecRequest (Some "swarm-u1") (Some "fix bug") None (Some false) (Some 7))
                 sample_db_active))
     = Some (mkReply 400 (ErrorBody config_error_message None)).
Proof.
  split; [reflexivity|]. split.
  - apply (no_credential_no_spawn 1500 sample_exec_request sample_db_active).
    reflexivity.
  - destruct (no_credential_no_spawn 1500
                (mkExecRequest (Some "swarm-u1") (Some "fix bug") None (Some false) (Some 7))
                sample_db_active eq_refl) as [_ Hanswer].
    rewrite (Hanswer "swarm-u1" "fix bug" sample_row_active);
      first [reflexivity | discriminate].
Defined.

(** ** C8: the exit code of the child process *)

Lemma append_assoc (a b c : string) : (a ++ b) ++ c = a ++ (b ++ c).
Proof.
  induction a as [|x a IH]; [reflexivity|].
  change (String x ((a ++ b) ++ c) = String x (a ++ (b ++ c))). now f_equal.
Qed.

Lemma append_empty_r (a : string) : a ++ "" = a.
Proof.
  induction a as [|x a IH]; [reflexivity|].
  change (String x (a ++ "") = String x a). now f_equal.
Qed.

Lemma on_chunks_sessionId chunks : forall r,
  r_sessionId (on_chunks chunks r) = r_sessionId r.
Proof.
  induction chunks as [|c chunks IH]; intros r; simpl; [reflexivity|].
  unfold on_chunks in IH. rewrite IH. now destruct c.
Qed.

Lemma on_chunks_stderr chunks : forall r,
  stderr (on_chunks chunks r) = stderr r ++ stderr_text chunks.
Proof.
  induction chunks as [|c chunks IH]; intros r; simpl.
  - now rewrite append_empty_r.
  - unfold on_chunks in IH. rewrite IH. destruct c; simpl; [reflexivity|].
    apply append_assoc.
Qed.

(** C8: once the execute route has started the child process, the close
    callback stores [completed] (and no error message) for the exit code
    0, and [failed] with the text accumulated from the error channel for
    any other exit code; both stamp the completion time. *)
Theorem exit_code_sets_status t0 req db0 child r0 chunks now exit_code db row :
  swarm_execute t0 req db0 = Started child r0 ->
  swarm_sessions db !! r_sessionId r0 = Some row ->
  let db' := fst (on_close now exit_code (on_chunks chunks r0) db) in
  (exit_code = Some 0 ->
     swarm_sessions db' !! r_sessionId r0 =
       Some (mkSession (row_id row) (user_id row) (project_name row)
               (project_path row) (swarm_type row) (queen_agent row)
               (task_description row) "completed" (namespace row) (created_at row)
               (Some now) None (metadata row)))
  /\ (exit_code <> Some 0 ->
        swarm_sessions db' !! r_sessionId r0 =
          Some (mkSession (row_id row) (user_id row) (project_name row)
                  (project_path row) (swarm_type row) (queen_agent row)
                  (task_description row) "failed" (namespace row) (created_at row)
                  (Some now) (Some (stderr_text chunks)) (metadata row))).
Proof.
  intros Hexec Hrow db'.
  apply swarm_execute_started in Hexec as (_ & _ & _ & Herr & _).
  assert (stderr (on_chunks chunks r0) = stderr_text chunks) as Htext
    by now rewrite on_chunks_stderr, Herr.
  subst db'. unfold on_close. rewrite on_chunks_sessionId, Htext. split.
  - intros ->. simpl. now rewrite (updateSwarmStatus_lookup _ _ _ _ _ _ Hrow).
  - intros Hcode.
    assert (match exit_code with Some c => Z.eqb c 0 | None => false end = false) as ->.
    { destruct exit_code as [c|]; [|reflexivity].
      apply Z.eqb_neq. congruence. }
    simpl. now rewrite (updateSwarmStatus_lookup _ _ _ _ _ _ Hrow).
Qed.

Lemma exit_code_sets_status_witness :
  swarm_execute 1500 sample_exec_request sample_db_keyed
    = Started sample_child sample_runner
  /\ (status <$> swarm_sessions
        (fst (on_close 9000 (Some 0) (on_chunks sample_chunks sample_runner)
                sample_db_keyed)) !! "swarm-u1" = Some "completed")
  /\ (error_message <$> swarm_sessions
        (fst (on_close 9000 (Some 2) (on_chunks sample_chunks sample_runner)
                sample_db_keyed)) !! "swarm-u1" = Some (Some "warn: no such file")).
Proof.
  split; [reflexivity|]. split.
  - pose proof (exit_code_sets_status 1500 sample_exec_request sample_db_keyed
                  sample_child sample_runner sample_chunks 9000 (Some 0)
                  sample_db_keyed sample_row_active eq_refl eq_refl) as [Hzero _].
    exact (f_equal (fmap status) (Hzero eq_refl)).
  - pose proof (exit_code_sets_status 1500 sample_exec_request sample_db_keyed
                  sample_child sample_runner sample_chunks 9000 (Some 2)
                  sample_db_keyed sample_row_active eq_refl eq_refl) as [_ Hnonzero].
    refine (f_equal (fmap error_message) (Hnonzero _)). discriminate.
Defined.

(** ** Worker rows under an UPDATE ... WHERE worker_id = ? *)

Lemma lookup_map {A B} (f : A -> B) (l : list A) : forall i,
  List.map f l !! i = f <$> l !! i.
Proof.
  induction l as [|x l IH]; intros [|i]; simpl; try reflexivity. apply IH.
Qed.

Lemma worker_changes_positive wid db i w :
  swarm_workers db !! i = Some w -> worker_id w = wid ->
  Nat.ltb 0 (worker_changes wid db) = true.
Proof.
  unfold worker_changes. generalize (swarm_workers db) as l. intros l.
  revert i. induction l as [|x l IH]; intros [|i]; simpl; try discriminate.
  - intros [= ->] <-. unfold worker_matches. now rewrite String.eqb_refl.
  - intros Hl Hw. specialize (IH i Hl Hw).
    destruct (worker_matches wid x); simpl; [reflexivity | exact IH].
Qed.

(** ** C4: the timestamps of [updateWorkerStatus] *)

(** C4: [updateWorkerStatus] reports a change and, on every row of the
    worker, keeps a [started_at] that is already there, sets it to the
    current instant only when there is none and the new status is
    [active], and leaves a completion time (the current instant) exactly
    when the new status is [completed] or [failed]; a later call with
    [active] does not move a [started_at] once set. *)
Theorem worker_status_timestamps now wid st res err db i w :
  swarm_workers db !! i = Some w ->
  worker_id w = wid ->
  let db' := fst (updateWorkerStatus now wid st res err db) in
  snd (updateWorkerStatus now wid st res err db) = true
  /\ exists w',
       swarm_workers db' !! i = Some w'
       /\ w_status w' = st
       /\ started_at w' =
            match started_at w with
            | Some t => Some t
            | None => if str_eq st "active" then Some now else None
            end
       /\ (is_Some (w_completed_at w') <-> st = "completed" \/ st = "failed")
       /\ (is_Some (w_completed_at w') -> w_completed_at w' = Some now)
       /\ (forall now2 res2 err2,
             is_Some (started_at w') ->
             started_at <$>
               swarm_workers (fst (updateWorkerStatus now2 wid "active" res2 err2 db')) !! i
             = Some (started_at w')).
Proof.
  intros Hw Hid db'. split.
  { unfold updateWorkerStatus. simpl. exact (worker_changes_positive _ _ _ _ Hw Hid). }
  assert (worker_matches wid w = true) as Hhit
    by (unfold worker_matches; apply str_eq_true, Hid).
  eexists. split; [|split; [|split; [|split; [|split]]]].
  - subst db'. unfold updateWorkerStatus. simpl.
    rewrite lookup_map, Hw. simpl. rewrite Hhit. reflexivity.
  - reflexivity.
  - simpl. now destruct (started_at w).
  - simpl. destruct (str_eq st "completed" || str_eq st "failed") eqn:Hst.
    + apply orb_true_iff in Hst. rewrite !str_eq_true in Hst.
      split; [intros _; exact Hst | intros _; now exists now].
    + apply orb_false_iff in Hst. rewrite !str_eq_false in Hst.
      split; [intros [x Hx]; discriminate | tauto].
  - simpl. destruct (str_eq st "completed" || str_eq st "failed").
    + reflexivity.
    + intros [x Hx]. discriminate.
  - intros now2 res2 err2 [t Ht]. simpl in Ht. subst db'.
    unfold updateWorkerStatus. simpl. rewrite !lookup_map, Hw. simpl.
    rewrite Hhit. simpl. unfold worker_matches at 1. simpl.
    fold (worker_matches wid w). rewrite Hhit. simpl. now rewrite Ht.
Qed.

Lemma worker_status_timestamps_witness :
  swarm_workers sample_db_worker !! 0%nat = Some sample_worker_pending
  /\ started_at <$>
       swarm_workers (fst (updateWorkerStatus 2000 "w1" "active" None None sample_db_worker))
         !! 0%nat = Some (Some 2000)
  /\ started_at <$>
       swarm_workers
         (fst (updateWorkerStatus 3000 "w1" "active" None None
            (fst (updateWorkerStatus 2000 "w1" "active" None None sample_db_worker))))
         !! 0%nat = Some (Some 2000).
Proof.
  split; [reflexivity|].
  destruct (worker_status_timestamps 2000 "w1" "active" None None sample_db_worker
              0%nat sample_worker_pending eq_refl eq_refl)
    as (_ & w' & Hrow & _ & Hstart & _ & _ & Hagain).
  simpl in Hstart. split.
  - now rewrite Hrow, <- Hstart.
  - rewrite (Hagain 3000 None None); [now rewrite Hstart | rewrite Hstart; now exists 2000].
Defined.

(** ** C5: the token total of a worker *)

Lemma round_double_exact z : Z.abs z <= 2 ^ 53 -> round_double z = z.
Proof.
  intros Hz. unfold round_double. cbv zeta.
  destruct (Z.leb_spec (Z.abs z) (2 ^ 53)) as [_|Hgt]; [reflexivity | lia].
Qed.

Lemma js_add_exact a b : Z.abs (a + b) <= 2 ^ 53 -> js_add a b = a + b.
Proof. apply round_double_exact. Qed.

(** The rounding of [js_add] is that of the addition of doubles. *)
Lemma js_add_double :
  SFadd 53 1024 (double_of_Z (2 ^ 53)) (double_of_Z 1)
    = double_of_Z (js_add (2 ^ 53) 1)
  /\ SFadd 53 1024 (double_of_Z (2 ^ 53 + 2)) (double_of_Z 1)
    = double_of_Z (js_add (2 ^ 53 + 2) 1)
  /\ SFadd 53 1024 (double_of_Z (2 ^ 60)) (double_of_Z 129)
    = double_of_Z (js_add (2 ^ 60) 129)
  /\ SFadd 53 1024 (double_of_Z (- 2 ^ 54)) (double_of_Z (-6))
    = double_of_Z (js_add (- 2 ^ 54) (-6))
  /\ SFadd 53 1024 (double_of_Z 1200) (double_of_Z 345)
    = double_of_Z (js_add 1200 345).
Proof. vm_compute. repeat split. Qed.




(** ** C6: the running averages of [updateAgentMetrics] *)

(** *** Rounding to nearest does not pass a double of the format *)

(** The number of binary digits, as [SpecFloat] counts them. *)
Lemma digits2_pos_size p : digits2_pos p = Pos.size p.
Proof. induction p as [p IH|p IH|]; simpl; now rewrite ?IH. Qed.

Lemma Zdigits2_log2 m : 0 < m -> Zdigits2 m = Z.log2 m + 1.
Proof.
  destruct m as [|p|p]; try lia. intros _. simpl.
  rewrite digits2_pos_size. destruct p as [p|p|]; simpl; try lia.
Qed.

Lemma Zdigits2_bounds m : 0 < m -> 0 < Zdigits2 m /\ 2 ^ (Zdigits2 m - 1) <= m < 2 ^ Zdigits2 m.
Proof.
  intros Hm. rewrite Zdigits2_log2 by exact Hm.
  pose proof (Z.log2_nonneg m). pose proof (Z.log2_spec m Hm) as Hs.
  replace (Z.log2 m + 1 - 1) with (Z.log2 m) by lia.
  replace (Z.log2 m + 1) with (Z.succ (Z.log2 m)) by lia. split; [lia | exact Hs].
Qed.

Lemma Zdigits2_unique m d : 0 < d -> 2 ^ (d - 1) <= m < 2 ^ d -> Zdigits2 m = d.
Proof.
  intros Hd Hm. assert (0 < m) as Hpos by (pose proof (Z.pow_pos_nonneg 2 (d - 1)); lia).
  rewrite Zdigits2_log2 by exact Hpos.
  rewrite (Z.log2_unique m (d - 1)); [lia | lia |].
  replace (Z.succ (d - 1)) with d by lia. exact Hm.
Qed.

Lemma Zdigits2_le m d : 0 <= d -> 0 < m < 2 ^ d -> Zdigits2 m <= d.
Proof.
  intros Hd Hm. destruct (Zdigits2_bounds m ltac:(lia)) as [Hpos [Hlo Hhi]].
  destruct (Z.le_gt_cases (Zdigits2 m) d) as [|Hgt]; [assumption|].
  pose proof (Z.pow_le_mono_r 2 d (Zdigits2 m - 1) ltac:(lia) ltac:(lia)). lia.
Qed.

Lemma Zdigits2_ge m d : 0 < d -> 2 ^ (d - 1) <= m -> d <= Zdigits2 m.
Proof.
  intros Hd Hm.
  assert (0 < m) as Hpos by (pose proof (Z.pow_pos_nonneg 2 (d - 1)); lia).
  destruct (Zdigits2_bounds m Hpos) as [Hdpos [Hlo Hhi]].
  destruct (Z.le_gt_cases d (Zdigits2 m)) as [|Hgt]; [assumption|].
  pose proof (Z.pow_le_mono_r 2 (Zdigits2 m) (d - 1) ltac:(lia) ltac:(lia)). lia.
Qed.

Lemma fexp_eq e : fexp 53 1024 e = Z.max (e - 53) (-1074).
Proof. reflexivity. Qed.

(** [shr] divides the mantissa by a power of 2, and records nothing when
    nothing is lost. *)
Lemma shifted_0 a : shifted 0 a a.
Proof. split; [now rewrite Z.div_1_r | tauto]. Qed.

Lemma shifted_1 a : 0 <= shr_m a -> shifted 1 a (shr_1 a).
Proof.
  destruct a as [m r s]. unfold shifted, clean. simpl.
  intros Hm. destruct m as [|[p|p|]|p]; try lia; simpl.
  - split; [reflexivity|]. intros [-> ->] _. split; reflexivity.
  - split; [now rewrite Pos2Z.inj_xI, Z.mul_comm, Z.div_add_l by lia|].
    intros _. rewrite Pos2Z.inj_xI. change (2 ^ 1) with 2. intros Hmod. exfalso.
    rewrite Z.add_comm, Z.mul_comm, Z.mod_add in Hmod by lia. discriminate.
  - split; [now rewrite Pos2Z.inj_xO, Z.mul_comm, Z.div_mul by lia|].
    intros [-> ->] _. split; reflexivity.
  - split; [reflexivity|]. intros _ Hmod. discriminate.
Qed.

Lemma shifted_trans j k a b c :
  0 <= j -> 0 <= k -> 0 <= shr_m a ->
  shifted j a b -> shifted k b c -> shifted (j + k) a c.
Proof.
  intros Hj Hk Hm [Hb Hcb] [Hc Hcc].
  assert (0 < 2 ^ j) by (apply Z.pow_pos_nonneg; lia).
  assert (0 < 2 ^ k) by (apply Z.pow_pos_nonneg; lia).
  unfold shifted. rewrite Z.pow_add_r by assumption. split.
  - rewrite Hc, Hb. apply Z.div_div; lia.
  - intros Ha Hmod. rewrite Z.rem_mul_r in Hmod by lia.
    pose proof (Z.mod_pos_bound (shr_m a) (2 ^ j) ltac:(lia)).
    pose proof (Z.mod_pos_bound (shr_m a / 2 ^ j) (2 ^ k) ltac:(lia)).
    apply Hcc; [apply Hcb; [exact Ha | nia] | rewrite Hb; nia].
Qed.

Lemma shifted_nonneg k a b : 0 <= k -> 0 <= shr_m a -> shifted k a b -> 0 <= shr_m b.
Proof.
  intros Hk Hm [-> _]. apply Z.div_pos; [exact Hm | apply Z.pow_pos_nonneg; lia].
Qed.

Lemma iter_pos_shifted p : forall a,
  0 <= shr_m a -> shifted (Zpos p) a (SpecFloat.iter_pos shr_1 p a).
Proof.
  induction p as [p IH|p IH|]; intros a Hm; simpl.
  - pose proof (shifted_1 a Hm) as H1.
    pose proof (shifted_nonneg 1 _ _ ltac:(lia) Hm H1) as Hm1.
    pose proof (IH _ Hm1) as H2.
    pose proof (shifted_nonneg (Zpos p) _ _ ltac:(lia) Hm1 H2) as Hm2.
    pose proof (IH _ Hm2) as H3.
    replace (Zpos p~1) with (1 + (Zpos p + Zpos p)) by lia.
    apply (shifted_trans 1 (Zpos p + Zpos p) _ _ _ ltac:(lia) ltac:(lia) Hm H1).
    exact (shifted_trans (Zpos p) (Zpos p) _ _ _ ltac:(lia) ltac:(lia) Hm1 H2 H3).
  - pose proof (IH _ Hm) as H2.
    pose proof (shifted_nonneg (Zpos p) _ _ ltac:(lia) Hm H2) as Hm2.
    pose proof (IH _ Hm2) as H3.
    replace (Zpos p~0) with (Zpos p + Zpos p) by lia.
    exact (shifted_trans (Zpos p) (Zpos p) _ _ _ ltac:(lia) ltac:(lia) Hm H2 H3).
  - now apply shifted_1.
Qed.

Lemma shr_shifted a e n :
  0 <= shr_m a ->
  exists b, shr a e n = (b, e + Z.max 0 n) /\ shifted (Z.max 0 n) a b.
Proof.
  intros Hm. destruct n as [|p|p]; simpl.
  - exists a. rewrite Z.add_0_r. split; [reflexivity | apply shifted_0].
  - exists (SpecFloat.iter_pos shr_1 p a). split; [reflexivity | now apply iter_pos_shifted].
  - exists a. rewrite Z.add_0_r. split; [reflexivity | apply shifted_0].
Qed.

Lemma round_nearest_even_bounds m l :
  m <= round_nearest_even m l <= m + 1
  /\ (l = loc_Exact -> round_nearest_even m l = m).
Proof.
  destruct l as [|[| |]]; simpl; try destruct (Z.even m); split; (lia || tauto || discriminate).
Qed.

Lemma loc_of_shr_record_clean a : clean a -> loc_of_shr_record a = loc_Exact.
Proof. destruct a as [m r s]. intros [Hr Hs]. simpl in *. now subst. Qed.

Lemma shr_record_of_loc_m m l : shr_m (shr_record_of_loc m l) = m.
Proof. now destruct l as [|[| |]]. Qed.

Lemma shr_record_of_loc_clean m : clean (shr_record_of_loc m loc_Exact).
Proof. split; reflexivity. Qed.

Lemma pow2_pos k : 0 <= k -> 0 < 2 ^ k.
Proof. intros Hk. apply Z.pow_pos_nonneg; lia. Qed.

Lemma pow2_le j k : 0 <= j <= k -> 2 ^ j <= 2 ^ k.
Proof. intros Hjk. apply Z.pow_le_mono_r; lia. Qed.

Lemma pow2_lt j k : 0 <= j < k -> 2 ^ j < 2 ^ k.
Proof. intros Hjk. apply Z.pow_lt_mono_r; lia. Qed.

Lemma pow2_split j k : 0 <= j <= k -> 2 ^ k = 2 ^ j * 2 ^ (k - j).
Proof. intros Hjk. rewrite <- Z.pow_add_r by lia. f_equal. lia. Qed.

(** The mantissa after the first shift of [binary_round_aux], when the
    exponent [ex] is not above the one of the format. *)
Lemma shifted_mantissa mx ex :
  0 <= mx ->
  ex <= fexp 53 1024 (Zdigits2 mx + ex) ->
  let e1 := fexp 53 1024 (Zdigits2 mx + ex) in
  let m0 := mx / 2 ^ (e1 - ex) in
  0 <= m0 < 2 ^ 53 /\ -1074 <= e1 /\ (-1074 < e1 -> 2 ^ 52 <= m0).
Proof.
  intros Hmx Hk e1 m0. subst e1 m0. rewrite fexp_eq in *.
  set (d := Zdigits2 mx) in *.
  set (e1 := Z.max (d + ex - 53) (-1074)) in *.
  assert (0 < 2 ^ (e1 - ex)) as Hpow by (apply pow2_pos; lia).
  destruct (Z.eq_dec mx 0) as [->|Hne].
  - rewrite Z.div_0_l by lia. change (Zdigits2 0) with 0 in d. subst d.
    split; [split; [lia | now apply pow2_pos]|]. lia.
  - destruct (Zdigits2_bounds mx ltac:(lia)) as [Hd [Hlo Hhi]]. fold d in Hd, Hlo, Hhi.
    split; [split|split].
    + apply Z.div_pos; lia.
    + apply Z.div_lt_upper_bound; [lia|].
      rewrite <- Z.pow_add_r by lia.
      pose proof (pow2_le d (e1 - ex + 53) ltac:(lia)). lia.
    + lia.
    + intros He1. assert (e1 = d + ex - 53) as Heq by lia.
      apply Z.div_le_lower_bound; [lia|].
      rewrite <- Z.pow_add_r by lia.
      replace (e1 - ex + 52) with (d - 1) by lia. exact Hlo.
Qed.

(** [binary_round_aux] keeps the mantissa shifted to the exponent of the
    format, or the next one. *)
Lemma round_aux_result s mx ex lx :
  0 <= mx ->
  ex <= fexp 53 1024 (Zdigits2 mx + ex) ->
  let e1 := fexp 53 1024 (Zdigits2 mx + ex) in
  let m0 := mx / 2 ^ (e1 - ex) in
  exists m1,
    m0 <= m1 <= m0 + 1
    /\ (lx = loc_Exact -> mx mod 2 ^ (e1 - ex) = 0 -> m1 = m0)
    /\ binary_round_aux 53 1024 s mx ex lx = pack s m1 e1.
Proof.
  intros Hmx Hk e1 m0.
  assert (0 <= m0 < 2 ^ 53 /\ -1074 <= e1 /\ (-1074 < e1 -> 2 ^ 52 <= m0))
    as (Hm0 & He1 & Hnormal) by exact (shifted_mantissa mx ex Hmx Hk).
  unfold binary_round_aux, shr_fexp. fold e1.
  destruct (shr_shifted (shr_record_of_loc mx lx) ex (e1 - ex)
              ltac:(rewrite shr_record_of_loc_m; exact Hmx))
    as (b & -> & Hb & Hclean).
  rewrite shr_record_of_loc_m in Hb, Hclean.
  replace (Z.max 0 (e1 - ex)) with (e1 - ex) in * by lia.
  replace (ex + (e1 - ex)) with e1 by lia. fold m0 in Hb.
  destruct (round_nearest_even_bounds (shr_m b) (loc_of_shr_record b)) as [Hround Hexact].
  set (m1 := round_nearest_even (shr_m b) (loc_of_shr_record b)) in *.
  rewrite Hb in Hround, Hexact.
  exists m1. split; [exact Hround|]. split.
  { intros -> Hmod. apply Hexact, loc_of_shr_record_clean, Hclean;
      [apply shr_record_of_loc_clean | exact Hmod]. }
  assert (0 <= shr_m (shr_record_of_loc m1 loc_Exact)) as Hm1nn.
  { rewrite shr_record_of_loc_m. lia. }
  destruct (shr_shifted (shr_record_of_loc m1 loc_Exact) e1
              (fexp 53 1024 (Zdigits2 m1 + e1) - e1) Hm1nn)
    as (c & -> & Hc & _).
  rewrite shr_record_of_loc_m in Hc. rewrite Hc. clearbody m1. clear Hc c Hm1nn.
  rewrite fexp_eq. unfold pack.
  destruct (Z.eqb_spec m1 0) as [->|Hne0].
  { now rewrite Z.div_0_l by (apply Z.pow_nonzero; lia). }
  destruct (Z.eqb_spec m1 (2 ^ 53)) as [->|Hne53].
  { rewrite (Zdigits2_unique (2 ^ 53) 54) by lia.
    replace (Z.max 0 (Z.max (54 + e1 - 53) (-1074) - e1)) with 1 by lia.
    change (2 ^ 53 / 2 ^ 1) with (Zpos (2 ^ 52)). reflexivity. }
  assert (0 < m1 < 2 ^ 53) as Hm1 by lia.
  destruct (Zdigits2_bounds m1 ltac:(lia)) as [Hd [Hlo Hhi]].
  assert (Zdigits2 m1 <= 53) as Hd53.
  { destruct (Z.le_gt_cases (Zdigits2 m1) 53) as [|Hgt]; [assumption|].
    pose proof (pow2_le 53 (Zdigits2 m1 - 1) ltac:(lia)). lia. }
  replace (Z.max 0 (Z.max (Zdigits2 m1 + e1 - 53) (-1074) - e1)) with 0 by lia.
  rewrite Z.add_0_r, Z.div_1_r. destruct m1 as [|p|p]; try lia. reflexivity.
Qed.

(** The floats of the format: mantissas below 2^53, and full ones above
    the least exponent. *)
Lemma bounded_iff m e :
  bounded 53 1024 m e = true
  <-> Zpos m < 2 ^ 53 /\ -1074 <= e <= 971 /\ (-1074 < e -> 2 ^ 52 <= Zpos m).
Proof.
  unfold bounded, canonical_mantissa. rewrite andb_true_iff, Z.eqb_eq, Z.leb_le, fexp_eq.
  change (1024 - 53) with 971.
  change (Zpos (digits2_pos m)) with (Zdigits2 (Zpos m)).
  destruct (Zdigits2_bounds (Zpos m) ltac:(lia)) as [Hd [Hlo Hhi]].
  set (d := Zdigits2 (Zpos m)) in *. split.
  - intros [Hcanon Hmax].
    assert (d <= 53) as Hd53 by lia.
    pose proof (pow2_le d 53 ltac:(lia)).
    split; [lia|]. split; [lia|]. intros He. assert (d = 53) as Heq by lia.
    rewrite Heq in Hlo. exact Hlo.
  - intros (Hm & He & Hnormal).
    assert (d <= 53) as Hd53.
    { destruct (Z.le_gt_cases d 53) as [|Hgt]; [assumption|].
      pose proof (pow2_le 53 (d - 1) ltac:(lia)). lia. }
    split; [|lia].
    destruct (Z.eq_dec e (-1074)) as [->|Hne]; [lia|].
    assert (53 <= d) as Hd53'.
    { destruct (Z.le_gt_cases 53 d) as [|Hlt]; [assumption|].
      pose proof (pow2_le d 52 ltac:(lia)). specialize (Hnormal ltac:(lia)). lia. }
    lia.
Qed.

Lemma val_mono m m' e : -2200 <= e -> m <= m' -> val m e <= val m' e.
Proof.
  intros He Hm. unfold val. apply Z.mul_le_mono_nonneg_r; [|exact Hm].
  pose proof (pow2_pos (e + 2200) ltac:(lia)). lia.
Qed.

Lemma val_shift m e k : 0 <= k -> -2200 <= e -> val m (e + k) = val (m * 2 ^ k) e.
Proof.
  intros Hk He. unfold val.
  replace (e + k + 2200) with (k + (e + 2200)) by lia.
  rewrite Z.pow_add_r by lia. ring.
Qed.

Lemma val_le_inv m m' e : -2200 <= e -> val m e <= val m' e -> m <= m'.
Proof.
  intros He Hm. unfold val in Hm.
  pose proof (pow2_pos (e + 2200) ltac:(lia)). nia.
Qed.

Lemma pack_below m1 e1 mB eB :
  0 <= m1 <= 2 ^ 53 -> -1074 <= e1 -> (-1074 < e1 -> 2 ^ 52 <= m1) ->
  2 ^ 52 <= Zpos mB < 2 ^ 53 -> -1074 <= eB <= 971 ->
  val m1 e1 <= val (Zpos mB) eB ->
  below (pack false m1 e1) mB eB.
Proof.
  intros Hm1 He1 Hnormal HmB HeB Hval. unfold pack.
  destruct (Z.eqb_spec m1 0) as [->|Hne0]; [exact I|].
  assert (e1 <= eB) as Hle.
  { destruct (Z.le_gt_cases e1 eB) as [|Hgt]; [assumption|exfalso].
    specialize (Hnormal ltac:(lia)).
    replace e1 with (eB + (e1 - eB)) in Hval by lia.
    rewrite val_shift in Hval by lia. apply val_le_inv in Hval; [|lia].
    pose proof (pow2_le 1 (e1 - eB) ltac:(lia)). change (2 ^ 1) with 2 in *. nia. }
  destruct (Z.eqb_spec m1 (2 ^ 53)) as [->|Hne53].
  - assert (e1 < eB) as Hlt.
    { destruct (Z.lt_ge_cases e1 eB) as [|Hge]; [assumption|exfalso].
      assert (e1 = eB) as -> by lia. apply val_le_inv in Hval; lia. }
    destruct (Z.leb_spec (e1 + 1) 971) as [_|]; [|lia]. simpl. split.
    + apply bounded_iff. change (Zpos (2 ^ 52)) with (2 ^ 52). lia.
    + change (Zpos (2 ^ 52)) with (2 ^ 52). lia.
  - destruct (Z.leb_spec e1 971) as [_|]; [|lia].
    destruct m1 as [|p|p]; try lia. simpl. split.
    + apply bounded_iff. lia.
    + destruct (Z.eq_dec e1 eB) as [->|]; [|lia]. right. split; [reflexivity|].
      apply val_le_inv in Hval; [exact Hval | lia].
Qed.

(** Rounding does not go above a float of the format that the rounded
    value does not exceed. *)
Lemma round_aux_below mx ex lx mB eB :
  0 <= mx -> -2200 <= ex ->
  ex <= fexp 53 1024 (Zdigits2 mx + ex) ->
  2 ^ 52 <= Zpos mB < 2 ^ 53 -> -1074 <= eB <= 971 ->
  val (ceiling mx lx) ex <= val (Zpos mB) eB ->
  below (binary_round_aux 53 1024 false mx ex lx) mB eB.
Proof.
  intros Hmx Hex Hk HmB HeB Hval.
  destruct (round_aux_result false mx ex lx Hmx Hk) as (m1 & Hm1 & Hexact & ->).
  destruct (shifted_mantissa mx ex Hmx Hk) as (Hm0 & He1 & Hnormal).
  set (e1 := fexp 53 1024 (Zdigits2 mx + ex)) in *.
  set (k := e1 - ex) in *.
  set (m0 := mx / 2 ^ k) in *.
  assert (0 <= k) as Hk0 by lia.
  pose proof (pow2_pos k Hk0) as Hpow.
  assert (m0 * 2 ^ k <= mx < (m0 + 1) * 2 ^ k) as Hdiv.
  { pose proof (Z.div_mod mx (2 ^ k) ltac:(lia)) as Hdm. fold m0 in Hdm.
    pose proof (Z.mod_pos_bound mx (2 ^ k) Hpow). nia. }
  assert (mx <= ceiling mx lx) as Hceil by (destruct lx; simpl; lia).
  assert (e1 <= eB) as Hle.
  { destruct (Z.le_gt_cases e1 eB) as [|Hgt]; [assumption|exfalso].
    specialize (Hnormal ltac:(lia)).
    assert (val (2 ^ 52 * 2 ^ k) ex <= val (Zpos mB) eB) as Hlow.
    { etransitivity; [|exact Hval]. apply val_mono; [exact Hex | nia]. }
    rewrite <- val_shift in Hlow by lia.
    replace (ex + k) with (eB + (e1 - eB)) in Hlow by lia.
    rewrite val_shift in Hlow by lia. apply val_le_inv in Hlow; [|lia].
    pose proof (pow2_le 1 (e1 - eB) ltac:(lia)). change (2 ^ 1) with 2 in *. nia. }
  set (MB := Zpos mB * 2 ^ (eB - e1)).
  assert (val (Zpos mB) eB = val (MB * 2 ^ k) ex) as HvalB.
  { replace eB with (e1 + (eB - e1)) at 1 by lia. rewrite val_shift by lia.
    fold MB. replace e1 with (ex + k) at 1 by lia. now rewrite val_shift by lia. }
  rewrite HvalB in Hval. apply val_le_inv in Hval; [|exact Hex].
  assert (m1 <= MB) as Hbound.
  { destruct (Z.eq_dec m1 m0) as [->|Hup]; [nia|].
    assert (mx < MB * 2 ^ k) as Hlt.
    { destruct lx as [|c]; simpl in Hval; [|lia].
      destruct (Z.eq_dec mx (MB * 2 ^ k)) as [Heq|]; [exfalso|lia].
      apply Hup, Hexact; [reflexivity|]. rewrite Heq. apply Z.mod_mul. lia. }
    nia. }
  apply pack_below;
    [lia | exact He1 | intros He; specialize (Hnormal He); lia | exact HmB | exact HeB |].
  rewrite HvalB. replace e1 with (ex + k) by lia. rewrite val_shift by lia.
    apply val_mono; [exact Hex | nia].
Qed.

(** [binary_round] first aligns the mantissa to the exponent of the
    format. *)
Lemma iter_xO m d : Zpos (Pos.iter xO m d) = Zpos m * 2 ^ Zpos d.
Proof.
  apply (Pos.iter_ind _ xO m (fun d r => Zpos r = Zpos m * 2 ^ Zpos d)).
  - rewrite Pos2Z.inj_xO. change (2 ^ 1) with 2. lia.
  - intros p a' IH. rewrite Pos2Z.inj_xO, IH, Pos2Z.inj_succ, Z.pow_succ_r by lia. ring.
Qed.

Lemma shl_align_spec mx ex ex' :
  let ez := Z.min ex ex' in
  shl_align mx ex ex' = (Z.to_pos (Zpos mx * 2 ^ (ex - ez)), ez).
Proof.
  intros ez. subst ez. unfold shl_align.
  destruct (ex' - ex) as [|d|d] eqn:Hd.
  - rewrite Z.min_l by lia. now rewrite Z.sub_diag, Z.mul_1_r.
  - rewrite Z.min_l by lia. now rewrite Z.sub_diag, Z.mul_1_r.
  - rewrite Z.min_r by lia. replace (ex - ex') with (Zpos d) by lia.
    now rewrite <- iter_xO.
Qed.

Lemma Zdigits2_shift m k : 0 < m -> 0 <= k -> Zdigits2 (m * 2 ^ k) = Zdigits2 m + k.
Proof.
  intros Hm Hk. destruct (Zdigits2_bounds m Hm) as [Hd [Hlo Hhi]].
  pose proof (pow2_pos k Hk).
  apply Zdigits2_unique; [lia|].
  replace (Zdigits2 m + k - 1) with (Zdigits2 m - 1 + k) by lia.
  rewrite !Z.pow_add_r by lia. nia.
Qed.

Lemma binary_round_below m e mB eB :
  -2200 <= e ->
  2 ^ 52 <= Zpos mB < 2 ^ 53 -> -1074 <= eB <= 971 ->
  val (Zpos m) e <= val (Zpos mB) eB ->
  below (binary_round 53 1024 false m e) mB eB.
Proof.
  intros He HmB HeB Hval. unfold binary_round. rewrite shl_align_spec.
  change (Zpos (digits2_pos m)) with (Zdigits2 (Zpos m)).
  set (ez := Z.min e (fexp 53 1024 (Zdigits2 (Zpos m) + e))).
  assert (-2200 <= ez <= e) as Hez by (subst ez; rewrite fexp_eq; lia).
  pose proof (pow2_pos (e - ez) ltac:(lia)) as Hpow.
  assert (Zpos (Z.to_pos (Zpos m * 2 ^ (e - ez))) = Zpos m * 2 ^ (e - ez)) as Hmz
    by (apply Z2Pos.id; lia).
  apply round_aux_below; try assumption; try lia.
  - rewrite Hmz, Zdigits2_shift by lia.
    replace (Zdigits2 (Zpos m) + (e - ez) + ez) with (Zdigits2 (Zpos m) + e) by lia.
    subst ez. lia.
  - cbn [ceiling]. rewrite Hmz, <- val_shift by lia.
    now replace (ez + (e - ez)) with e by lia.
Qed.

(** The double of an integer between 1 and 2^53: it has a full mantissa
    and the value of the integer. *)
Lemma double_of_Z_normal n :
  1 <= n <= 2 ^ 53 ->
  exists mn en,
    double_of_Z n = S754_finite false mn en
    /\ 2 ^ 52 <= Zpos mn < 2 ^ 53 /\ -52 <= en <= 1
    /\ val (Zpos mn) en = val n 0.
Proof.
  intros Hn. destruct (Z.eq_dec n (2 ^ 53)) as [->|Hne].
  { exists (2 ^ 52)%positive, 1. split; [vm_compute; reflexivity|].
    split; [vm_compute; split; [discriminate | reflexivity]|]. split; [lia|].
    vm_compute. reflexivity. }
  destruct n as [|p|p]; try lia.
  unfold double_of_Z, binary_normalize, binary_round. rewrite shl_align_spec.
  change (Zpos (digits2_pos p)) with (Zdigits2 (Zpos p)).
  destruct (Zdigits2_bounds (Zpos p) ltac:(lia)) as [Hd [Hlo Hhi]].
  set (d := Zdigits2 (Zpos p)) in *.
  assert (d <= 53) as Hd53.
  { destruct (Z.le_gt_cases d 53) as [|Hgt]; [assumption|].
    pose proof (pow2_le 53 (d - 1) ltac:(lia)). lia. }
  rewrite Z.add_0_r, fexp_eq.
  replace (Z.min 0 (Z.max (d - 53) (-1074))) with (d - 53) by lia.
  replace (0 - (d - 53)) with (53 - d) by lia.
  pose proof (pow2_pos (53 - d) ltac:(lia)) as Hpow.
  set (mz := Zpos p * 2 ^ (53 - d)).
  assert (2 ^ 52 <= mz < 2 ^ 53) as Hmz.
  { subst mz. rewrite (pow2_split (d - 1) 52), (pow2_split d 53) by lia.
    replace (52 - (d - 1)) with (53 - d) by lia. nia. }
  assert (Zdigits2 mz = 53) as Hdz by (apply Zdigits2_unique; lia).
  destruct (round_aux_result false mz (d - 53) loc_Exact ltac:(lia)) as (m1 & _ & Hexact & Hres).
  { rewrite Hdz, fexp_eq. lia. }
  rewrite Hdz, fexp_eq in Hexact, Hres.
  replace (Z.max (53 + (d - 53) - 53) (-1074) - (d - 53)) with 0 in Hexact by lia.
  rewrite Z.div_1_r in Hexact. specialize (Hexact eq_refl (Z.mod_1_r _)). subst m1.
  replace (Zpos (Z.to_pos mz)) with mz by (symmetry; apply Z2Pos.id; lia).
  rewrite Hres. unfold pack.
  destruct (Z.eqb_spec mz 0) as [|_]; [lia|].
  destruct (Z.eqb_spec mz (2 ^ 53)) as [|_]; [lia|].
  replace (Z.max (53 + (d - 53) - 53) (-1074)) with (d - 53) by lia.
  destruct (Z.leb_spec (d - 53) 971) as [_|]; [|lia].
  exists (Z.to_pos mz), (d - 53). split; [reflexivity|].
  rewrite Z2Pos.id by lia. split; [exact Hmz|]. split; [lia|].
  subst mz. rewrite <- val_shift by lia. f_equal. lia.
Qed.

(** [below] in terms of [SFleb], of values, and of a larger bound. *)
Lemma below_leb x mB eB :
  below x mB eB ->
  SFleb (S754_zero false) x = true /\ SFleb x (S754_finite false mB eB) = true.
Proof.
  destruct x as [s|s| |[|] m e]; simpl; try contradiction.
  - intros _. now destruct s.
  - intros [_ Hlex]. split; [reflexivity|]. unfold SFleb, SFcompare.
    destruct Hlex as [Hlt|[-> Hle]].
    + apply Z.compare_lt_iff in Hlt. now rewrite Hlt.
    + rewrite Z.compare_refl. fold (Pos.compare m mB).
      destruct (Pos.compare_spec m mB); try reflexivity. lia.
Qed.

Lemma below_val m e mB eB :
  below (S754_finite false m e) mB eB ->
  2 ^ 52 <= Zpos mB -> eB <= 971 ->
  Zpos m < 2 ^ 53 /\ -1074 <= e <= eB /\ (-1074 < e -> 2 ^ 52 <= Zpos m)
  /\ val (Zpos m) e <= val (Zpos mB) eB.
Proof.
  intros [Hb Hlex] HmB HeB. apply bounded_iff in Hb as (Hm & He & Hnormal).
  split; [exact Hm|]. split; [lia|]. split; [exact Hnormal|].
  destruct Hlex as [Hlt|[-> Hle]]; [|apply val_mono; lia].
  replace eB with (e + (eB - e)) by lia. rewrite val_shift by lia.
  apply val_mono; [lia|]. pose proof (pow2_le 1 (eB - e) ltac:(lia)).
  change (2 ^ 1) with 2 in *. nia.
Qed.

Lemma below_trans x mB eB mC eC :
  below x mB eB ->
  eB < eC \/ (eB = eC /\ Zpos mB <= Zpos mC) ->
  below x mC eC.
Proof.
  destruct x as [s|s| |[|] m e]; simpl; try tauto.
  intros [Hb Hlex] HBC. split; [exact Hb|]. lia.
Qed.

(** The order of [SFcompare] on the doubles of two integers. *)
Lemma double_of_Z_mono n n' mn en mn' en' :
  1 <= n <= n' -> n' <= 2 ^ 53 ->
  double_of_Z n = S754_finite false mn en ->
  double_of_Z n' = S754_finite false mn' en' ->
  en < en' \/ (en = en' /\ Zpos mn <= Zpos mn').
Proof.
  intros Hn Hn' Hdn Hdn'.
  destruct (double_of_Z_normal n ltac:(lia)) as (m & e & Heq & Hm & He & Hval).
  rewrite Hdn in Heq. injection Heq as <- <-.
  destruct (double_of_Z_normal n' ltac:(lia)) as (m' & e' & Heq' & Hm' & He' & Hval').
  rewrite Hdn' in Heq'. injection Heq' as <- <-.
  assert (below (pack false (Zpos mn) en) mn' en') as Hbelow.
  { apply pack_below; try lia. rewrite Hval, Hval'. apply val_mono; lia. }
  unfold pack in Hbelow.
  destruct (Z.eqb_spec (Zpos mn) 0) as [|_]; [lia|].
  destruct (Z.eqb_spec (Zpos mn) (2 ^ 53)) as [|_]; [lia|].
  destruct (Z.leb_spec en 971) as [_|]; [|lia].
  simpl in Hbelow. tauto.
Qed.

(** [rate * count] stays at most [count] when the rate is at most 1. *)
Lemma mul_below x n mn en :
  below x (2 ^ 52)%positive (-52) ->
  1 <= n <= 2 ^ 53 ->
  double_of_Z n = S754_finite false mn en ->
  below (SFmul 53 1024 x (double_of_Z n)) mn en.
Proof.
  intros Hx Hn Hdn.
  destruct (double_of_Z_normal n Hn) as (m & e & Heq & Hmn & Hen & Hval).
  rewrite Hdn in Heq. injection Heq as <- <-. rewrite Hdn.
  destruct x as [s|s| |[|] mx ex]; simpl in Hx; try contradiction; [exact I|].
  destruct (below_val mx ex _ _ Hx ltac:(change (Zpos (2 ^ 52)) with (2 ^ 52); lia) ltac:(lia))
    as (Hmx & Hex & _ & Hvx).
  assert (Zpos mx <= 2 ^ (- ex)) as Hunit.
  { assert (val (Zpos (2 ^ 52)) (-52) = val (2 ^ (- ex)) ex) as Hone.
    { unfold val. change (Zpos (2 ^ 52)) with (2 ^ 52).
      rewrite <- !Z.pow_add_r by lia. f_equal. lia. }
    rewrite Hone in Hvx. apply val_le_inv in Hvx; lia. }
  cbn [SFmul xorb]. apply round_aux_below; try lia.
  - destruct (Zdigits2_bounds (Zpos (mx * mn)) ltac:(lia)) as [Hd [_ Hhi]].
    rewrite fexp_eq.
    assert (53 <= Zdigits2 (Zpos (mx * mn))); [|lia].
    destruct (Z.le_gt_cases 53 (Zdigits2 (Zpos (mx * mn)))) as [|Hlt]; [assumption|].
    pose proof (pow2_le (Zdigits2 (Zpos (mx * mn))) 52 ltac:(lia)).
    rewrite Pos2Z.inj_mul in *.
    assert (Zpos mn <= Zpos mx * Zpos mn) by nia. lia.
  - cbn [ceiling]. replace en with (ex + en + - ex) at 2 by lia.
    rewrite (val_shift (Zpos mn) (ex + en) (- ex)) by lia.
    apply val_mono; [lia|]. rewrite Pos2Z.inj_mul, (Z.mul_comm (Zpos mx)).
    apply Z.mul_le_mono_nonneg_l; lia.
Qed.

Lemma val_add m m' e : val (m + m') e = val m e + val m' e.
Proof. unfold val. ring. Qed.

Lemma js_add_succ n :
  1 <= n <= 2 ^ 53 ->
  n <= js_add n 1 <= 2 ^ 53 /\ (n < 2 ^ 53 -> js_add n 1 = n + 1).
Proof.
  intros Hn. destruct (Z.eq_dec n (2 ^ 53)) as [->|Hne].
  - split; [vm_compute; split; discriminate | lia].
  - rewrite js_add_exact by lia. lia.
Qed.

(** [product + (success ? 1 : 0)] stays at most the new count. *)
Lemma add_below p n mn en (s : bool) mN eN :
  1 <= n <= 2 ^ 53 ->
  double_of_Z n = S754_finite false mn en ->
  below p mn en ->
  double_of_Z (js_add n 1) = S754_finite false mN eN ->
  below (SFadd 53 1024 p (if s then double_of_Z 1 else double_of_Z 0)) mN eN.
Proof.
  intros Hn Hdn Hp HdN.
  destruct (js_add_succ n Hn) as [HN Hsucc].
  pose proof (double_of_Z_mono n (js_add n 1) _ _ _ _ ltac:(lia) ltac:(lia) Hdn HdN) as Hlex.
  destruct (double_of_Z_normal n Hn) as (m & e & Heq & Hmn & Hen & Hval).
  rewrite Hdn in Heq. injection Heq as <- <-.
  destruct (double_of_Z_normal (js_add n 1) ltac:(lia)) as (m & e & Heq & HmN & HeN & HvalN).
  rewrite HdN in Heq. injection Heq as <- <-.
  destruct s.
  - change (double_of_Z 1) with (S754_finite false (2 ^ 52) (-52)).
    destruct p as [sp|sp| |[|] mp ep]; simpl in Hp; try contradiction.
    + cbn [SFadd]. split; [reflexivity|].
      exact (double_of_Z_mono 1 (js_add n 1) _ _ _ _ ltac:(lia) ltac:(lia) eq_refl HdN).
    + destruct (below_val mp ep mn en Hp ltac:(lia) ltac:(lia)) as (Hmp & Hep & Hnormal & Hvp).
      destruct (Z.eq_dec ep 1) as [->|Hep1].
      { assert (n = 2 ^ 53) as ->.
        { destruct (Z.eq_dec n (2 ^ 53)) as [|Hne]; [assumption|exfalso].
          specialize (Hnormal ltac:(lia)).
          assert (val (Zpos mp) 1 = val (Zpos mp * 2 ^ 1) 0) as Hshift
            by (rewrite <- val_shift by lia; reflexivity).
          rewrite Hshift, Hval in Hvp. apply val_le_inv in Hvp; [|lia].
          change (2 ^ 1) with 2 in Hvp. lia. }
        injection Hdn as <- <-. injection HdN as <- <-.
        assert (mp = (2 ^ 52)%positive) as ->.
        { destruct Hp as [_ [Hlt|[_ Hle]]]; [lia|].
          specialize (Hnormal ltac:(lia)). change (Zpos (2 ^ 52)) with (2 ^ 52) in Hle. lia. }
        vm_compute. split; [reflexivity | right; split; [reflexivity | discriminate]]. }
      unfold SFadd. rewrite !shl_align_spec. cbn [fst cond_Zopp].
      set (ez := Z.min ep (-52)).
      replace (Z.min ep ez) with ez by lia. replace (Z.min (-52) ez) with ez by lia.
      pose proof (pow2_pos (ep - ez) ltac:(lia)) as Hpow1.
      pose proof (pow2_pos (-52 - ez) ltac:(lia)) as Hpow2.
      set (a := Z.to_pos (Zpos mp * 2 ^ (ep - ez))).
      set (b := Z.to_pos (Zpos (2 ^ 52) * 2 ^ (-52 - ez))).
      change (Zpos a + Zpos b) with (Zpos (a + b)). cbn [binary_normalize].
      apply binary_round_below; try lia.
      rewrite Pos2Z.inj_add, val_add. subst a b. rewrite !Z2Pos.id by lia.
      rewrite <- !val_shift by lia.
      replace (ez + (ep - ez)) with ep by lia. replace (ez + (-52 - ez)) with (-52) by lia.
      rewrite HvalN.
      destruct (Z.eq_dec n (2 ^ 53)) as [->|Hne].
      * injection Hdn as <- <-.
        change (js_add (2 ^ 53) 1) with (2 ^ 53).
        change (val (Zpos (2 ^ 52)) (-52)) with (val 1 0).
        change (val (2 ^ 53) 0) with (val (2 ^ 52) 0 + val 1 0 * 2 ^ 52).
        assert (val (Zpos mp) ep <= val (2 ^ 53 - 1) 0); [|unfold val in *; lia].
        destruct (Z.eq_dec ep 0) as [->|Hep0]; [apply val_mono; lia|].
        replace 0 with (ep + - ep) at 1 by lia. rewrite val_shift by lia.
        apply val_mono; [lia|]. pose proof (pow2_le 1 (- ep) ltac:(lia)).
        change (2 ^ 1) with 2 in *. nia.
      * rewrite Hsucc by lia. rewrite val_add, <- Hval.
        change (val (Zpos (2 ^ 52)) (-52)) with (val 1 0). lia.
  - change (double_of_Z 0) with (S754_zero false).
    destruct p as [sp|sp| |[|] mp ep]; simpl in Hp; try contradiction.
    + now destruct sp.
    + cbn [SFadd]. exact (below_trans (S754_finite false mp ep) mn en mN eN Hp Hlex).
Qed.

(** The quotient and the location that [SFdiv] rounds. *)
Lemma new_location_ceiling n r q :
  ceiling q (new_location n r) <= q + (if Z.eqb r 0 then 0 else 1).
Proof.
  unfold new_location, new_location_even, new_location_odd.
  destruct (Z.even n), (Z.eqb r 0); simpl; lia.
Qed.

Lemma div_core_spec m1 e1 m2 e2 :
  let e' := Z.min (fexp 53 1024 (Zdigits2 m1 + e1 - (Zdigits2 m2 + e2))) (e1 - e2) in
  let m' := m1 * 2 ^ (e1 - e2 - e') in
  SFdiv_core_binary 53 1024 m1 e1 m2 e2 = (m' / m2, e', new_location m2 (m' mod m2)).
Proof.
  intros e' m'. unfold SFdiv_core_binary. fold e'.
  assert (0 <= e1 - e2 - e') as Hs by (subst e'; lia).
  assert ((match e1 - e2 - e' with
           | 0 => m1
           | Zpos _ => Z.shiftl m1 (e1 - e2 - e')
           | Zneg _ => 0
           end) = m') as ->.
  { subst m'. destruct (e1 - e2 - e') as [|s|s] eqn:Hse; try lia.
    now rewrite Z.shiftl_mul_pow2 by lia. }
  unfold Z.div, Z.modulo. now destruct (Z.div_eucl m' m2).
Qed.

(** [successCount / newUsageCount] is at most 1 when the count of
    successes is at most the number of uses. *)
Lemma div_below q n mn en :
  1 <= n <= 2 ^ 53 ->
  double_of_Z n = S754_finite false mn en ->
  below q mn en ->
  below (SFdiv 53 1024 q (double_of_Z n)) (2 ^ 52)%positive (-52).
Proof.
  intros Hn Hdn Hq.
  destruct (double_of_Z_normal n Hn) as (m & e & Heq & Hmn & Hen & Hval).
  rewrite Hdn in Heq. injection Heq as <- <-. rewrite Hdn.
  destruct q as [sq|sq| |[|] mq eq_]; simpl in Hq; try contradiction; [exact I|].
  destruct (below_val mq eq_ mn en Hq ltac:(lia) ltac:(lia)) as (Hmq & Heq & Hnormal & Hvq).
  unfold SFdiv. rewrite div_core_spec.
  assert (Zdigits2 (Zpos mn) = 53) as -> by (apply Zdigits2_unique; lia).
  pose proof (Zdigits2_le (Zpos mq) 53 ltac:(lia) ltac:(lia)) as Hd1.
  destruct (Zdigits2_bounds (Zpos mq) ltac:(lia)) as [Hd1pos [Hlo1 _]].
  set (d1 := Zdigits2 (Zpos mq)) in *.
  rewrite fexp_eq.
  set (e' := Z.min (Z.max (d1 + eq_ - (53 + en) - 53) (-1074)) (eq_ - en)).
  set (s := eq_ - en - e').
  assert (0 <= s) as Hs by (subst s e'; lia).
  assert (e' <= -53) as He' by (subst e'; lia).
  assert (-1130 <= e') as He'lo by (subst e'; lia).
  pose proof (pow2_pos s Hs) as Hpows.
  pose proof (pow2_pos (- e') ltac:(lia)) as Hpowe.
  set (m' := Zpos mq * 2 ^ s).
  assert (0 < m') as Hm' by (subst m'; lia).
  assert (m' <= Zpos mn * 2 ^ (- e')) as Hquot.
  { assert (val (Zpos mq) eq_ = val m' (en + e')) as Ha
      by (subst m'; rewrite <- val_shift by lia; f_equal; subst s; lia).
    assert (val (Zpos mn) en = val (Zpos mn * 2 ^ (- e')) (en + e')) as Hb
      by (rewrite <- val_shift by lia; f_equal; lia).
    rewrite Ha, Hb in Hvq. apply val_le_inv in Hvq; lia. }
  pose proof (Z.div_mod m' (Zpos mn) ltac:(lia)) as Hdm.
  pose proof (Z.mod_pos_bound m' (Zpos mn) ltac:(lia)) as Hr.
  assert (0 <= m' / Zpos mn) as Hqq by (apply Z.div_pos; lia).
  cbn [xorb]. apply round_aux_below; try lia.
  - rewrite fexp_eq. destruct (Z.le_gt_cases e' (-1074)) as [|Hgt]; [lia|].
    assert (e' = d1 + eq_ - (53 + en) - 53) as He'eq by (subst e'; lia).
    assert (s = 106 - d1) as Hseq by (subst s; lia).
    assert (2 ^ 52 <= m' / Zpos mn) as Hbig.
    { apply Z.div_le_lower_bound; [lia|].
      assert (2 ^ 105 <= m'); [|lia].
      subst m'. rewrite Hseq, (pow2_split (d1 - 1) 105) by lia.
      replace (105 - (d1 - 1)) with (106 - d1) by lia.
      apply Z.mul_le_mono_nonneg_r; lia. }
    pose proof (Zdigits2_ge (m' / Zpos mn) 53 ltac:(lia) Hbig). lia.
  - change (Zpos (2 ^ 52)) with (2 ^ 52).
    assert (val (2 ^ 52) (-52) = val (2 ^ (- e')) e') as ->.
    { unfold val. rewrite <- !Z.pow_add_r by lia. f_equal. lia. }
    apply val_mono; [lia|].
    etransitivity; [apply new_location_ceiling|].
    destruct (Z.eqb_spec (m' mod Zpos mn) 0) as [Hr0|Hr0]; nia.
Qed.

(** *** The success rate *)

Lemma below_number rate :
  below rate (2 ^ 52)%positive (-52) ->
  is_nan rate = false /\ nle (of_int 0) rate /\ nle rate (of_int 1).
Proof.
  intros Hrate. split; [|exact (below_leb _ _ _ Hrate)].
  destruct rate as [s|s| |[|] m e]; simpl in *; tauto.
Qed.

Lemma inserted_metric_ok now i o t success :
  metric_ok (inserted_metric now i o t success).
Proof.
  split; [simpl; lia|]. destruct success.
  - exists (double_of_Z 1). split; [reflexivity|].
    split; [reflexivity | right; split; [reflexivity | apply Z.le_refl]].
  - exists (double_of_Z 0). split; [reflexivity | exact I].
Qed.

Lemma updated_metric_ok now m i o t success :
  metric_ok m -> metric_ok (updated_metric now m i o t success).
Proof.
  intros [Hcount (rate & Hrate & Hbelow)].
  destruct (js_add_succ (usage_count m) Hcount) as [Hnew _].
  destruct (double_of_Z_normal (usage_count m) Hcount) as (mn & en & Hdn & _).
  destruct (double_of_Z_normal (js_add (usage_count m) 1) ltac:(lia))
    as (mN & eN & HdN & _).
  pose proof (mul_below rate _ mn en Hbelow Hcount Hdn) as Hmul.
  pose proof (add_below _ _ mn en success mN eN Hcount Hdn Hmul HdN) as Hadd.
  pose proof (div_below _ (js_add (usage_count m) 1) mN eN ltac:(lia) HdN Hadd) as Hdiv.
  split; [simpl; lia|].
  eexists. split; [|exact Hdiv].
  cbn [updated_metric success_rate]. rewrite Hrate. cbn [column_number].
  unfold real_column, success_value.
  destruct (below_number _ Hdiv) as [Hnan _].
  destruct success; exact (f_equal (fun b : bool => if b then None else Some _) Hnan).
Qed.

Lemma apply_call_ok tbl (c : MetricCall double) :
  metrics_ok tbl -> metrics_ok (apply_call tbl c).
Proof.
  intros Htbl key m. unfold apply_call, updateAgentMetrics.
  destruct (tbl !! (mc_userId c, mc_agentType c)) as [old|] eqn:Hold; simpl;
    (destruct (decide (key = (mc_userId c, mc_agentType c))) as [->|Hne];
     [rewrite lookup_insert_eq; intros [= <-]
     | rewrite lookup_insert_ne by congruence; apply Htbl]).
  - apply updated_metric_ok. exact (Htbl _ _ Hold).
  - apply inserted_metric_ok.
Qed.

Lemma apply_calls_ok (calls : list (MetricCall double)) : forall tbl,
  metrics_ok tbl -> metrics_ok (apply_calls calls tbl).
Proof.
  induction calls as [|c calls IH]; intros tbl Htbl; simpl; [assumption|].
  apply IH, apply_call_ok, Htbl.
Qed.

(** C6: an update of an existing row stores, for the completion time
    and for the success rate, (old average * old count + new value) /
    new count, computed on doubles, the new count being the old one plus
    1, and the first update of a pair stores the new values themselves
    with the count 1; after any sequence of updates of an empty table,
    every success rate is a number between 0 and 1. *)
Theorem metrics_running_average (tbl : gmap (Z * string) (AgentMetric double))
    (c : MetricCall double) (calls : list (MetricCall double)) :
  (exists m', apply_call tbl c !! (mc_userId c, mc_agentType c) = Some m'
     /\ match tbl !! (mc_userId c, mc_agentType c) with
        | Some m =>
            usage_count m' = js_add (usage_count m) 1
            /\ (Z.abs (usage_count m + 1) <= 2 ^ 53 ->
                usage_count m' = usage_count m + 1)
            /\ avg_completion_time_ms m' =
                 real_column
                   (ndiv (nadd (nmul (column_number (avg_completion_time_ms m))
                                     (of_int (usage_count m)))
                               (mc_completionTimeMs c))
                         (of_int (usage_count m')))
            /\ success_rate m' =
                 real_column
                   (ndiv (nadd (nmul (column_number (success_rate m))
                                     (of_int (usage_count m)))
                               (if mc_success c then of_int 1 else of_int 0))
                         (of_int (usage_count m')))
        | None =>
            usage_count m' = 1
            /\ avg_completion_time_ms m' = real_column (mc_completionTimeMs c)
            /\ success_rate m' =
                 real_column (if mc_success c then of_int 1 else of_int 0)
        end)
  /\ (forall key m,
        apply_calls calls ∅ !! key = Some m ->
        exists rate,
          success_rate m = Some rate
          /\ nle (of_int 0) rate /\ nle rate (of_int 1)).
Proof.
  split.
  - unfold apply_call, updateAgentMetrics.
    destruct (tbl !! (mc_userId c, mc_agentType c)) as [m|]; simpl;
      rewrite lookup_insert_eq; eexists; (split; [reflexivity|]);
      simpl; repeat split.
    intros Hcount. now apply js_add_exact.
  - intros key m Hm.
    assert (metrics_ok (apply_calls calls ∅)) as Hok.
    { apply apply_calls_ok. intros k x. rewrite lookup_empty. discriminate. }
    destruct (Hok key m Hm) as [_ (rate & Hrate & Hbelow)].
    exists rate. split; [exact Hrate|]. exact (proj2 (below_number rate Hbelow)).
Qed.

Lemma metrics_running_average_witness :
  apply_calls sample_calls ∅ !! (7, "debugger")
    = Some (mkMetric 3 2400 600 3000
              (Some (S754_finite false 8796093022208000 (-43)))
              (Some (S754_finite false 6004799503160661 (-53))) 300 300)
  /\ SFleb (double_of_Z 0) (S754_finite false 6004799503160661 (-53)) = true
  /\ SFleb (S754_finite false 6004799503160661 (-53)) (double_of_Z 1) = true.
Proof.
  split; [vm_compute; reflexivity|].
  destruct (metrics_running_average ∅ (mkCall 100 7 "debugger" 1000 200 (double_of_Z 1500) true)
              sample_calls) as [_ Hbound].
  destruct (Hbound (7, "debugger")
              (mkMetric 3 2400 600 3000
                 (Some (S754_finite false 8796093022208000 (-43)))
                 (Some (S754_finite false 6004799503160661 (-53))) 300 300)
              ltac:(vm_compute; reflexivity)) as (rate & Hrate & Hle).
  injection Hrate as <-. exact Hle.
Defined.


(** * Properties of the rest of the store and of the routes *)

(** ** ORDER BY ... LIMIT over a filtered table *)

Section Listing.
Context {A : Type} (R : relation A) `{forall x y, Decision (R x y)}.
Context `{!Total R} `{!Transitive R}.

Lemma Sorted_take n : forall l : list A, Sorted R l -> Sorted R (take n l).
Proof.
  induction n as [|n IH]; intros l Hl; [constructor|].
  destruct l as [|x l]; simpl; [constructor|].
  apply Sorted_inv in Hl as [Hl Hx]. constructor; [now apply IH|].
  destruct l as [|y l]; [destruct n; constructor|].
  apply HdRel_inv in Hx. destruct n; constructor. exact Hx.
Qed.

Lemma elem_of_filter_bool (f : A -> bool) (l : list A) x :
  x ∈ List.filter f l <-> x ∈ l /\ f x = true.
Proof. rewrite !list_elem_of_In. apply filter_In. Qed.

(** What every listing of the store returns: the wanted rows, in order,
    cut after [n] rows, the rows cut off coming after the rows kept. *)
Lemma listing_spec (f : A -> bool) (n : Z) (l : list A) :
  let result := sql_limit n (merge_sort R (List.filter f l)) in
  Sorted R result
  /\ (forall x, x ∈ result -> x ∈ l /\ f x = true)
  /\ (0 <= n -> (length result <= Z.to_nat n)%nat)
  /\ exists rest,
       List.app result rest ≡ₚ List.filter f l
       /\ (forall x y, x ∈ result -> y ∈ rest -> R x y)
       /\ (n < 0 \/ (length l <= Z.to_nat n)%nat -> rest = []).
Proof.
  intros result. subst result.
  pose proof (Sorted_merge_sort R (List.filter f l)) as Hsorted.
  pose proof (merge_sort_Permutation R (List.filter f l)) as Hperm.
  set (sorted := merge_sort R (List.filter f l)) in *.
  assert (forall x, x ∈ sorted -> x ∈ l /\ f x = true) as Hmem.
  { intros x Hx. apply elem_of_filter_bool. now rewrite <- Hperm. }
  unfold sql_limit. destruct (Z.ltb_spec n 0) as [Hneg|Hpos].
  - split; [exact Hsorted|]. split; [exact Hmem|]. split; [lia|].
    exists []. rewrite app_nil_r. split; [exact Hperm|]. split; [|reflexivity].
    intros x y _ Hy. inversion Hy.
  - split; [now apply Sorted_take|]. split.
    { intros x Hx. apply Hmem. exact (subseteq_take _ _ x Hx). }
    split; [intros _; rewrite length_take; lia|].
    exists (drop (Z.to_nat n) sorted). rewrite take_drop.
    split; [exact Hperm|]. split.
    + intros x y Hx Hy.
      apply (StronglySorted_app_1_elem_of R (take (Z.to_nat n) sorted)
               (drop (Z.to_nat n) sorted)); [|assumption|assumption].
      rewrite take_drop. now apply Sorted_StronglySorted.
    + intros [Hlt|Hlen]; [lia|]. apply drop_ge.
      rewrite Hperm. etransitivity; [|exact Hlen].
      clear. induction l as [|x l IH]; simpl; [lia|].
      destruct (f x); simpl; lia.
Qed.

End Listing.

#[export] Instance null_le_total : Total null_le.
Proof. intros [x|] [y|]; simpl; auto; lia. Qed.

#[export] Instance null_le_trans : Transitive null_le.
Proof. intros [x|] [y|] [z|]; simpl; auto; try lia; tauto. Qed.

#[export] Instance newer_session_total : Total newer_session.
Proof. intros a b. unfold newer_session. lia. Qed.

#[export] Instance newer_session_trans : Transitive newer_session.
Proof. intros a b c. unfold newer_session. lia. Qed.

#[export] Instance later_worker_total : Total later_worker.
Proof. intros a b. unfold later_worker. apply null_le_total. Qed.

#[export] Instance later_worker_trans : Transitive later_worker.
Proof. intros a b c Hab Hbc. unfold later_worker in *. now transitivity (started_at b). Qed.

#[export] Instance newer_operation_total : Total newer_operation.
Proof. intros a b. unfold newer_operation. lia. Qed.

#[export] Instance newer_operation_trans : Transitive newer_operation.
Proof. intros a b c. unfold newer_operation. lia. Qed.

(** ** Integrity of sessions and workers *)

Lemma session_rowid_exists_spec rid db :
  session_rowid_exists rid db = true
  <-> exists sid row, swarm_sessions db !! sid = Some row /\ row_id row = rid.
Proof.
  unfold session_rowid_exists. rewrite existsb_exists. split.
  - intros [[sid row] [Hin Hid]]. exists sid, row. simpl in Hid.
    apply list_elem_of_In, elem_of_map_to_list in Hin.
    split; [exact Hin | now apply Z.eqb_eq].
  - intros (sid & row & Hrow & Hid). exists (sid, row). split.
    + now apply list_elem_of_In, elem_of_map_to_list.
    + simpl. now apply Z.eqb_eq.
Qed.

(** Replacing a session row by one with the same integer key keeps the
    store sound. *)
Lemma store_ok_replace db sid row row' :
  store_ok db ->
  swarm_sessions db !! sid = Some row ->
  row_id row' = row_id row ->
  store_ok (with_sessions db (<[sid := row']> (swarm_sessions db))).
Proof.
  intros (Hseq & Hrange & Huniq & Hworkers) Hrow Hid.
  assert (forall s r, <[sid := row']> (swarm_sessions db) !! s = Some r ->
            exists r0, swarm_sessions db !! s = Some r0 /\ row_id r0 = row_id r) as Hback.
  { intros s r. destruct (decide (sid = s)) as [<-|Hne].
    - rewrite lookup_insert_eq. intros [= <-]. exists row. now split.
    - rewrite lookup_insert_ne by assumption. intros Hs. now exists r. }
  split; [exact Hseq|]. split; [|split]; simpl.
  - intros s r Hs. apply Hback in Hs as (r0 & Hr0 & <-). now apply (Hrange s).
  - intros s1 s2 r1 r2 H1 H2 Heq.
    apply Hback in H1 as (a & Ha & Hida). apply Hback in H2 as (b & Hb & Hidb).
    apply (Huniq s1 s2 a b Ha Hb). congruence.
  - intros w Hw. destruct (Hworkers w Hw) as (Htok & s & r & Hs & Hr).
    split; [exact Htok|]. destruct (decide (sid = s)) as [<-|Hne].
    + exists sid, row'. rewrite lookup_insert_eq. split; [reflexivity|]. congruence.
    + exists s, r. rewrite lookup_insert_ne by assumption. now split.
Qed.

Lemma updateSwarmStatus_ok now sid st err db :
  store_ok db -> store_ok (fst (updateSwarmStatus now sid st err db)).
Proof.
  intros Hdb. unfold updateSwarmStatus.
  destruct (swarm_sessions db !! sid) as [row|] eqn:Hrow; simpl; [|exact Hdb].
  now apply (store_ok_replace db sid row).
Qed.

Lemma setQueenAgent_ok sid queen db :
  store_ok db -> store_ok (fst (setQueenAgent sid queen db)).
Proof.
  intros Hdb. unfold setQueenAgent.
  destruct (swarm_sessions db !! sid) as [row|] eqn:Hrow; simpl; [|exact Hdb].
  now apply (store_ok_replace db sid row).
Qed.

Lemma swarm_create_ok now uuid req db :
  store_ok db -> store_ok (fst (swarm_create now uuid req db)).
Proof.
  intros Hdb. unfold swarm_create.
  destruct (falsy (cr_projectName req) || falsy (cr_projectPath req)
            || falsy (cr_taskDescription req)); simpl; [assumption|].
  generalize ("swarm-" ++ uuid). intros sid0. unfold createSwarmSession.
  destruct (swarm_sessions db !! sid0) eqn:Hfree; simpl; [assumption|].
  destruct Hdb as (Hseq & Hrange & Huniq & Hworkers).
  split; [|split; [|split]]; cbn [swarm_sessions session_seq swarm_workers fst].
  - lia.
  - intros s r. destruct (decide (sid0 = s)) as [<-|Hne].
    + rewrite lookup_insert_eq. intros [= <-]. simpl. lia.
    + rewrite lookup_insert_ne by assumption. intros Hs.
      specialize (Hrange s r Hs). lia.
  - intros s1 s2 r1 r2.
    destruct (decide (sid0 = s1)) as [<-|Hne1];
      destruct (decide (sid0 = s2)) as [<-|Hne2];
      rewrite ?lookup_insert_eq, ?lookup_insert_ne by assumption; try congruence.
    + intros [= <-] H2 Heq. simpl in Heq. specialize (Hrange s2 r2 H2). lia.
    + intros H1 [= <-] Heq. simpl in Heq. specialize (Hrange s1 r1 H1). lia.
    + apply Huniq.
  - intros w Hw. destruct (Hworkers w Hw) as (Htok & s & r & Hs & Hr).
    split; [exact Htok|]. exists s, r. split; [|exact Hr].
    rewrite lookup_insert_ne; [exact Hs|]. intros ->. congruence.
Qed.

Lemma swarm_abort_ok now sid db :
  store_ok db -> store_ok (fst (swarm_abort now sid db)).
Proof.
  intros Hdb. unfold swarm_abort.
  destruct (getSwarmSession sid db); simpl; [|assumption].
  now apply updateSwarmStatus_ok.
Qed.

Lemma elem_of_map_inv {A B} (f : A -> B) (l : list A) y :
  y ∈ List.map f l -> exists x, y = f x /\ x ∈ l.
Proof.
  rewrite list_elem_of_In, in_map_iff. intros (x & Hy & Hx).
  exists x. split; [congruence | now apply list_elem_of_In].
Qed.

(** An UPDATE of [swarm_workers] that keeps the session reference and
    leaves every row with a consistent token total. *)
Lemma store_ok_workers db (f : SwarmWorker -> SwarmWorker) :
  store_ok db ->
  (forall w, swarm_session_id (f w) = swarm_session_id w) ->
  (forall w, total_tokens w = js_add (input_tokens w) (output_tokens w) ->
             total_tokens (f w) = js_add (input_tokens (f w)) (output_tokens (f w))) ->
  store_ok (with_workers db (List.map f (swarm_workers db))).
Proof.
  intros (Hseq & Hrange & Huniq & Hworkers) Hsession Htokens.
  split; [exact Hseq|]. split; [exact Hrange|]. split; [exact Huniq|].
  simpl. intros w' Hw'. apply elem_of_map_inv in Hw' as (w & -> & Hw).
  destruct (Hworkers w Hw) as (Htok & s & r & Hs & Hr).
  split; [now apply Htokens|]. exists s, r. rewrite Hsession. now split.
Qed.

Lemma updateWorkerStatus_ok now wid st res err db :
  store_ok db -> store_ok (fst (updateWorkerStatus now wid st res err db)).
Proof.
  intros Hdb. unfold updateWorkerStatus. simpl.
  apply store_ok_workers; [exact Hdb | |]; intros w;
    destruct (worker_matches wid w); simpl; auto.
Qed.

Lemma updateWorkerTokens_ok wid i o db :
  store_ok db -> store_ok (fst (updateWorkerTokens wid i o db)).
Proof.
  intros Hdb. unfold updateWorkerTokens. simpl.
  apply store_ok_workers; [exact Hdb | |]; intros w;
    destruct (worker_matches wid w); simpl; auto.
Qed.

Lemma createWorker_ok rid wid aty name task meta db db' out :
  store_ok db ->
  createWorker rid wid aty name task meta db = inr (db', out) ->
  store_ok db'.
Proof.
  intros (Hseq & Hrange & Huniq & Hworkers). unfold createWorker.
  destruct (session_rowid_exists rid db) eqn:Hfk; [|discriminate].
  intros [= <- <-]. apply session_rowid_exists_spec in Hfk.
  split; [exact Hseq|]. split; [exact Hrange|]. split; [exact Huniq|].
  simpl. intros w Hw. apply elem_of_app in Hw as [Hw|Hw]; [now apply Hworkers|].
  apply list_elem_of_singleton in Hw as ->. simpl. split; [reflexivity | exact Hfk].
Qed.

Lemma store_step_ok db o : store_ok db -> store_ok (store_step db o).
Proof.
  intros Hdb.
  destruct o as [now [uuid req | sid st err | sid | sid queen
                     | rid wid aty name task meta | wid st res err | wid i o]]; simpl.
  - now apply swarm_create_ok.
  - now apply updateSwarmStatus_ok.
  - now apply swarm_abort_ok.
  - now apply setQueenAgent_ok.
  - destruct (createWorker rid wid aty name task meta db) as [msg|[db' out]] eqn:Hcreate;
      [exact Hdb | exact (createWorker_ok _ _ _ _ _ _ _ _ _ Hdb Hcreate)].
  - now apply updateWorkerStatus_ok.
  - now apply updateWorkerTokens_ok.
Qed.

Lemma run_store_ok ops : forall db, store_ok db -> store_ok (run_store ops db).
Proof.
  induction ops as [|o ops IH]; intros db Hdb; simpl; [assumption|].
  apply IH, store_step_ok, Hdb.
Qed.

Lemma empty_db_ok : store_ok empty_db.
Proof.
  split; [simpl; lia|]. split; [|split]; simpl.
  - intros sid row. now rewrite lookup_empty.
  - intros s1 s2 r1 r2. now rewrite lookup_empty.
  - intros w Hw. inversion Hw.
Qed.

(** X1: in every store reached from the empty one by the operations on
    sessions and workers, the integer keys of the sessions are positive
    and no two sessions share one, so that [session.id] names one
    session. *)
Theorem session_row_ids_unique ops sid1 sid2 row1 row2 :
  swarm_sessions (run_store ops empty_db) !! sid1 = Some row1 ->
  swarm_sessions (run_store ops empty_db) !! sid2 = Some row2 ->
  1 <= row_id row1 <= session_seq (run_store ops empty_db)
  /\ (row_id row1 = row_id row2 -> sid1 = sid2).
Proof.
  intros H1 H2.
  destruct (run_store_ok ops empty_db empty_db_ok) as (_ & Hrange & Huniq & _).
  split; [exact (Hrange sid1 row1 H1) | exact (Huniq sid1 sid2 row1 row2 H1 H2)].
Qed.


(** ** Creating and reading sessions *)

Lemma falsy_some_false s : s <> "" -> falsy (Some s) = false.
Proof. intros Hs. simpl. now apply str_eq_false. Qed.


(** X4: when the generated identifier is already that of a session, the
    INSERT fails on the UNIQUE constraint: the create route answers 500
    and the store is unchanged. *)
Theorem create_duplicate_identifier now uuid req db pn pp td row :
  cr_projectName req = Some pn -> pn <> "" ->
  cr_projectPath req = Some pp -> pp <> "" ->
  cr_taskDescription req = Some td -> td <> "" ->
  swarm_sessions db !! ("swarm-" ++ uuid) = Some row ->
  swarm_create now uuid req db =
    (db, mkReply 500 (ErrorBody "Failed to create swarm"
                        (Some "UNIQUE constraint failed: swarm_sessions.session_id"))).
Proof.
  intros Hpn Hpn' Hpp Hpp' Htd Htd' Htaken.
  unfold swarm_create. rewrite Hpn, Hpp, Htd.
  rewrite !falsy_some_false by assumption. cbn [orb or_default].
  generalize dependent ("swarm-" ++ uuid). intros sid0 Htaken.
  unfold createSwarmSession. now rewrite Htaken.
Qed.

Lemma elem_of_session_rows db row :
  row ∈ session_rows db <-> exists sid, swarm_sessions db !! sid = Some row.
Proof.
  unfold session_rows. split.
  - intros Hrow. apply elem_of_map_inv in Hrow as ([sid r] & -> & Hin).
    exists sid. now apply elem_of_map_to_list.
  - intros [sid Hsid]. apply list_elem_of_In, in_map_iff. exists (sid, row).
    split; [reflexivity|]. now apply list_elem_of_In, elem_of_map_to_list.
Qed.

(** X5: [getSwarmSessions] returns sessions of the store that belong to
    the user (and to the project, when a project name is given), newest
    first and at most [limit] of them (50 by default, all of them for a
    negative limit); every session it leaves out is no newer than every
    session it returns. *)
Theorem getSwarmSessions_spec userId projectName limit db :
  let result := getSwarmSessions userId projectName limit db in
  let wanted row :=
    (exists sid, swarm_sessions db !! sid = Some row)
    /\ user_id row = userId
    /\ (falsy projectName = false -> projectName = Some (project_name row)) in
  Sorted newer_session result
  /\ (0 <= default 50 limit -> (length result <= Z.to_nat (default 50%Z limit))%nat)
  /\ exists rest,
       (forall row, row ∈ result \/ row ∈ rest <-> wanted row)
       /\ (forall x y, x ∈ result -> y ∈ rest -> created_at y <= created_at x)
       /\ (default 50 limit < 0 -> rest = []).
Proof.
  intros result wanted. subst result. unfold getSwarmSessions.
  match goal with
  | |- context [List.filter ?f _] => set (keep := f)
  end.
  destruct (listing_spec newer_session keep (default 50 limit) (session_rows db))
    as (Hsorted & _ & Hlen & rest & Hperm & Horder & Hall).
  split; [exact Hsorted|]. split; [exact Hlen|].
  exists rest. split; [|split].
  - intros row. rewrite <- elem_of_app, Hperm, elem_of_filter_bool.
    rewrite elem_of_session_rows. subst keep wanted. cbv beta.
    rewrite andb_true_iff, Z.eqb_eq.
    destruct projectName as [pn|]; simpl.
    + destruct (str_eq pn "") eqn:Hpn.
      * intuition congruence.
      * rewrite str_eq_true. intuition congruence.
    + intuition congruence.
  - exact Horder.
  - intros Hneg. apply Hall. now left.
Qed.

(** X6: the details route answers 404 for an unknown identifier; for a
    session it sends the session with exactly the worker rows that point
    to its integer key, those started last first and those not started
    at the end, and their number as [workerCount]. *)
Theorem swarm_session_route_spec sessionId db :
  match swarm_sessions db !! sessionId with
  | None =>
      swarm_session_route sessionId db = Refused 404 "Swarm session not found" None
  | Some session =>
      exists workers,
        swarm_session_route sessionId db = Sent (session, workers, length workers)
        /\ Sorted later_worker workers
        /\ workers ≡ₚ
             List.filter (fun w => Z.eqb (swarm_session_id w) (row_id session))
               (swarm_workers db)
  end.
Proof.
  unfold swarm_session_route, getSwarmSession.
  destruct (swarm_sessions db !! sessionId) as [session|]; [|reflexivity].
  exists (getWorkers (row_id session) db). split; [reflexivity|].
  unfold getWorkers. split; [apply Sorted_merge_sort, _ | apply merge_sort_Permutation].
Qed.

(** ** The execute route from spawn to exit *)

(** X7: for a request that names an existing session, with a task and an
    active credential of the owner, the execute route spawns [npx
    claude-flow@alpha swarm <task> --claude] in the project path stored
    with the session and with that credential; [--hive-mind] is added
    exactly when the request says [hive-mind], whatever kind the session
    was created with. *)
Theorem execute_spawns now req db sid taskDescription row key :
  er_sessionId req = Some sid -> sid <> "" ->
  er_taskDescription req = Some taskDescription -> taskDescription <> "" ->
  swarm_sessions db !! sid = Some row ->
  getActiveCredential (request_user (er_user req)) "claude_api_key" db = Some key ->
  let streaming := default true (er_streaming req) in
  swarm_execute now req db =
    Started
      (mkSpawn "npx"
         (List.app ["claude-flow@alpha"; "swarm"; taskDescription; "--claude"]
            (if str_eq (or_default (er_swarmType req) "quick") "hive-mind"
             then ["--hive-mind"] else []))
         (project_path row) key)
      (mkRunner sid streaming now "" ""
         (if streaming
          then mkRes [mkEvent "status" "Initializing swarm..." sid None None None]
                 None false
          else fresh_res)).
Proof.
  intros Hsid Hs Htask Ht Hrow Hkey streaming. subst streaming.
  unfold swarm_execute, getSwarmSession. rewrite Hsid, Htask.
  rewrite !falsy_some_false by assumption. cbn [orb or_default].
  rewrite Hrow, Hkey. now destruct (default true (er_streaming req)).
Qed.

Lemma swarm_execute_runner now req db child r0 :
  swarm_execute now req db = Started child r0 ->
  r0 = mkRunner (or_default (er_sessionId req) "") (default true (er_streaming req))
         now "" ""
         (sendEvent (default true (er_streaming req))
            (mkEvent "status" "Initializing swarm..."
               (or_default (er_sessionId req) "") None None None) fresh_res).
Proof.
  unfold swarm_execute.
  destruct (falsy (er_sessionId req) || falsy (er_taskDescription req)); [discriminate|].
  destruct (getSwarmSession _ db); [|discriminate].
  destruct (getActiveCredential _ _ db); [|discriminate].
  now intros [= _ <-].
Qed.

Lemma on_chunks_runner chunks : forall r,
  on_chunks chunks r =
    mkRunner (r_sessionId r) (r_streaming r) (startTime r)
      (stdout r ++ stdout_text chunks) (stderr r ++ stderr_text chunks)
      (if r_streaming r
       then mkRes (List.app (written (r_res r))
                     (List.map (chunk_event (r_sessionId r)) chunks))
              (reply (r_res r)) (ended (r_res r))
       else r_res r).
Proof.
  induction chunks as [|c chunks IH]; intros r.
  - simpl. rewrite !append_empty_r, app_nil_r.
    destruct r as [sid streaming t0 out err [w rp e]]. simpl. now destruct streaming.
  - change (on_chunks (c :: chunks) r) with (on_chunks chunks (on_data r c)).
    rewrite IH. destruct r as [sid streaming t0 out err [w rp e]].
    destruct c as [chunk|chunk], streaming; simpl;
      rewrite ?append_assoc, <- ?app_assoc; reflexivity.
Qed.

(** X8: the event stream of a streaming execution, from the request to
    the exit of the child process, is the [status] frame, then one frame
    per chunk in the order of arrival ([output] for the output channel,
    [error] for the error channel), then one [completed] or [failed] frame
    carrying the duration and the accumulated text; the stream is then
    ended and no JSON reply is sent. *)
Theorem streaming_transcript t0 req db0 child r0 chunks now exit_code db :
  swarm_execute t0 req db0 = Started child r0 ->
  default true (er_streaming req) = true ->
  let sid := r_sessionId r0 in
  r_res (snd (on_close now exit_code (on_chunks chunks r0) db)) =
    mkRes
      (List.app
         (mkEvent "status" "Initializing swarm..." sid None None None
            :: List.map (chunk_event sid) chunks)
         [match exit_code with
          | Some 0 =>
              mkEvent "completed" "Swarm completed successfully" sid
                (Some (now - t0)) (Some (stdout_text chunks)) None
          | _ =>
              mkEvent "failed" "Swarm execution failed" sid
                (Some (now - t0)) None (Some (stderr_text chunks))
          end])
      None true.
Proof.
  intros Hexec Hstreaming sid. subst sid.
  apply swarm_execute_runner in Hexec as ->. rewrite Hstreaming.
  rewrite on_chunks_runner. unfold on_close. cbn -[Z.sub Z.eqb].
  destruct exit_code as [[|p|p]|]; reflexivity.
Qed.

(** X9: without streaming nothing is written to the response before the
    exit of the child process, and the one reply has status 200 for every
    exit code, with [success] true only for the exit code 0, the duration,
    and the text accumulated on each channel. *)
Theorem plain_reply t0 req db0 child r0 chunks now exit_code db :
  swarm_execute t0 req db0 = Started child r0 ->
  er_streaming req = Some false ->
  r_res (on_chunks chunks r0) = fresh_res
  /\ r_res (snd (on_close now exit_code (on_chunks chunks r0) db)) =
       mkRes []
         (Some (mkReply 200
                  (ExecutedBody
                     (match exit_code with Some 0 => true | _ => false end)
                     (r_sessionId r0) (now - t0)
                     (stdout_text chunks) (stderr_text chunks))))
         false.
Proof.
  intros Hexec Hstreaming.
  apply swarm_execute_runner in Hexec as ->. rewrite Hstreaming.
  rewrite on_chunks_runner. unfold on_close. cbn -[Z.sub Z.eqb].
  split; [reflexivity|]. destruct exit_code as [[|p|p]|]; reflexivity.
Qed.

(** X10: when the child process cannot be spawned, the [error] callback
    stores [failed] with the spawn error message and a completion time
    for the session, and answers 500 when not streaming, or with an
    [error] frame and the end of the stream when streaming.  The [close]
    callback, which Node runs after it with a code other than 0 and
    without any output having arrived, stores [failed] once more, with
    the time of the close and the empty text of the error channel: the
    message of the spawn error does not stay in the store.  The other
    sessions are as they were. *)
Theorem spawn_error_marks_failed t0 req db0 child r0 now message now2 exit_code db row :
  swarm_execute t0 req db0 = Started child r0 ->
  swarm_sessions db !! r_sessionId r0 = Some row ->
  exit_code <> Some 0 ->
  let '(db', r') := on_error now message r0 db in
  swarm_sessions db' !! r_sessionId r0 =
    Some (mkSession (row_id row) (user_id row) (project_name row)
            (project_path row) (swarm_type row) (queen_agent row)
            (task_description row) "failed" (namespace row) (created_at row)
            (Some now) (Some message) (metadata row))
  /\ r_res r' =
       (if default true (er_streaming req)
        then mkRes [mkEvent "status" "Initializing swarm..." (r_sessionId r0)
                      None None None;
                    mkEvent "error" message (r_sessionId r0) None None None]
               None true
        else mkRes [] (Some (mkReply 500 (ErrorBody "Failed to execute swarm"
                                            (Some message)))) false)
  /\ swarm_sessions (fst (on_close now2 exit_code r' db')) !! r_sessionId r0 =
       Some (mkSession (row_id row) (user_id row) (project_name row)
               (project_path row) (swarm_type row) (queen_agent row)
               (task_description row) "failed" (namespace row) (created_at row)
               (Some now2) (Some "") (metadata row))
  /\ (forall sid, sid <> r_sessionId r0 ->
        swarm_sessions (fst (on_close now2 exit_code r' db')) !! sid =
          swarm_sessions db !! sid).
Proof.
  intros Hexec Hrow Hcode.
  apply swarm_execute_runner in Hexec. subst r0. cbn [r_sessionId] in *.
  unfold on_error. cbn [r_sessionId r_streaming r_res].
  pose proof (updateSwarmStatus_lookup now _ "failed" (Some message) _ _ Hrow) as Hfailed.
  split; [exact Hfailed|]. split.
  - simpl. now destruct (default true (er_streaming req)).
  - assert (match exit_code with Some c => Z.eqb c 0 | None => false end = false) as Hok.
    { destruct exit_code as [[|p|p]|]; try reflexivity. now contradiction Hcode. }
    unfold on_close. cbn [r_sessionId r_streaming startTime stdout stderr r_res with_res].
    rewrite Hok. cbn [fst]. split.
    + now rewrite (updateSwarmStatus_lookup now2 _ "failed" (Some "") _ _ Hfailed).
    + intros sid Hsid. now rewrite !updateSwarmStatus_other by now symmetry.
Qed.

(** ** Workers *)

(** X11: [createWorker] for the integer key of an existing session adds
    one row after the others, in status [pending], without timestamps and
    with all token counts at 0, returns the new key, and [getWorkers]
    lists the row under that session; for a key that no session has, the
    INSERT fails on the foreign key. *)
Theorem createWorker_spec rid wid aty name task meta db :
  let pending := mkWorker (worker_seq db + 1) rid wid aty name task "pending"
                   None None 0 0 0 None None (Some meta) in
  ((exists sid row, swarm_sessions db !! sid = Some row /\ row_id row = rid) ->
     exists db',
       createWorker rid wid aty name task meta db = inr (db', (worker_seq db + 1, wid))
       /\ swarm_workers db' = List.app (swarm_workers db) [pending]
       /\ swarm_sessions db' = swarm_sessions db
       /\ pending ∈ getWorkers rid db')
  /\ ((forall sid row, swarm_sessions db !! sid = Some row -> row_id row <> rid) ->
        createWorker rid wid aty name task meta db = inl "FOREIGN KEY constraint failed").
Proof.
  intros pending. split.
  - intros Hsession. apply session_rowid_exists_spec in Hsession.
    unfold createWorker. rewrite Hsession. eexists. split; [reflexivity|].
    cbn [swarm_workers swarm_sessions]. split; [reflexivity|]. split; [reflexivity|].
    unfold getWorkers. rewrite merge_sort_Permutation.
    apply elem_of_filter_bool. cbn [swarm_workers]. split.
    + apply elem_of_app. right. now apply list_elem_of_singleton.
    + simpl. apply Z.eqb_refl.
  - intros Hnone. unfold createWorker.
    destruct (session_rowid_exists rid db) eqn:Hfk; [|reflexivity].
    apply session_rowid_exists_spec in Hfk as (sid & row & Hrow & Hid).
    now destruct (Hnone sid row Hrow).
Qed.

Lemma map_unmatched (h : SwarmWorker -> SwarmWorker) wid (l : list SwarmWorker) :
  (forall w, w ∈ l -> worker_id w <> wid) ->
  (forall w, worker_matches wid w = false -> h w = w) ->
  List.map h l = l /\ length (List.filter (worker_matches wid) l) = 0%nat.
Proof.
  intros Hl Hh. induction l as [|x l IH]; [now split|].
  assert (worker_matches wid x = false) as Hx.
  { unfold worker_matches. apply str_eq_false, Hl. now left. }
  destruct IH as [IHmap IHlen]; [intros w Hw; apply Hl; now right|].
  simpl. rewrite Hx, IHmap, (Hh x Hx). now split.
Qed.

(** X12: for a worker identifier that no row carries, [updateWorkerStatus]
    and [updateWorkerTokens] report [false] and leave the store as it
    was. *)
Theorem unknown_worker_untouched now wid st res err i o db :
  (forall w, w ∈ swarm_workers db -> worker_id w <> wid) ->
  updateWorkerStatus now wid st res err db = (db, false)
  /\ updateWorkerTokens wid i o db = (db, false).
Proof.
  intros Hnone. unfold updateWorkerStatus, updateWorkerTokens, worker_changes.
  cbv zeta. split.
  - match goal with
    | |- context [List.map ?h _] =>
        destruct (map_unmatched h wid _ Hnone) as [Hmap Hlen];
          [intros w Hw; now rewrite Hw|]
    end.
    rewrite Hmap, Hlen. now destruct db.
  - match goal with
    | |- context [List.map ?h _] =>
        destruct (map_unmatched h wid _ Hnone) as [Hmap Hlen];
          [intros w Hw; now rewrite Hw|]
    end.
    rewrite Hmap, Hlen. now destruct db.
Qed.

Lemma worker_changes_map (f : SwarmWorker -> SwarmWorker) wid db :
  (forall w, worker_id (f w) = worker_id w) ->
  worker_changes wid (with_workers db (List.map f (swarm_workers db)))
  = worker_changes wid db.
Proof.
  intros Hf. unfold worker_changes. cbn [with_workers swarm_workers].
  assert (forall w, worker_matches wid (f w) = worker_matches wid w) as Hsame
    by (intros w; unfold worker_matches; now rewrite Hf).
  induction (swarm_workers db) as [|x l IH]; [reflexivity|].
  cbn [List.map List.filter]. rewrite Hsame.
  destruct (worker_matches wid x); cbn [length]; now rewrite IH.
Qed.

(** X13: a status update and a token update of workers commute: applied
    in either order they give the same store and report the same
    results, for the same or for different worker identifiers. *)
Theorem worker_updates_commute now wid1 st res err wid2 i o db :
  let status_first := updateWorkerTokens wid2 i o
                        (fst (updateWorkerStatus now wid1 st res err db)) in
  let tokens_first := updateWorkerStatus now wid1 st res err
                        (fst (updateWorkerTokens wid2 i o db)) in
  fst status_first = fst tokens_first
  /\ snd status_first = snd (updateWorkerTokens wid2 i o db)
  /\ snd tokens_first = snd (updateWorkerStatus now wid1 st res err db).
Proof.
  intros status_first tokens_first. subst status_first tokens_first.
  split; [|split].
  - unfold updateWorkerTokens, updateWorkerStatus, with_workers. simpl.
    f_equal. rewrite !List.map_map. apply List.map_ext. intros w.
    unfold worker_matches.
    destruct (str_eq (worker_id w) wid1) eqn:H1,
             (str_eq (worker_id w) wid2) eqn:H2; simpl; rewrite ?H1, ?H2; reflexivity.
  - unfold updateWorkerTokens. cbn [snd]. f_equal.
    unfold updateWorkerStatus. cbn [fst]. apply worker_changes_map.
    intros w. now destruct (worker_matches wid1 w).
  - unfold updateWorkerStatus. cbn [snd]. f_equal.
    unfold updateWorkerTokens. cbn [fst]. apply worker_changes_map.
    intros w. now destruct (worker_matches wid2 w).
Qed.

(** ** Reading back the agent metrics *)

Section AgentMetricsTotals.
Context {F : Type} `{Number F}.

Lemma apply_calls_snoc (calls : list (MetricCall F)) c tbl :
  apply_calls (List.app calls [c]) tbl = apply_call (apply_calls calls tbl) c.
Proof. unfold apply_calls. now rewrite fold_left_app. Qed.

Lemma calls_for_snoc userId agentType (calls : list (MetricCall F)) c :
  calls_for userId agentType (List.app calls [c]) =
    List.app (calls_for userId agentType calls)
      (if Z.eqb (mc_userId c) userId && str_eq (mc_agentType c) agentType
       then [c] else []).
Proof. unfold calls_for. now rewrite List.filter_app. Qed.

Lemma sum_of_snoc {A} (f : A -> Z) (l : list A) x :
  sum_of f (List.app l [x]) = sum_of f l + f x.
Proof. induction l as [|y l IH]; simpl; [lia | rewrite IH; lia]. Qed.

Lemma call_key_eq (c : MetricCall F) userId agentType :
  Z.eqb (mc_userId c) userId && str_eq (mc_agentType c) agentType = true
  <-> (mc_userId c, mc_agentType c) = (userId, agentType).
Proof.
  rewrite andb_true_iff, Z.eqb_eq, str_eq_true. split; [intros [-> ->] | intros [= -> ->]]; auto.
Qed.

Lemma sum_of_nonneg {A} (f : A -> Z) (l : list A) :
  forallb (fun x => Z.leb 0 (f x)) l = true -> 0 <= sum_of f l.
Proof.
  induction l as [|x l IH]; simpl; [lia|].
  rewrite andb_true_iff, Z.leb_le. intros [Hx Hl]. specialize (IH Hl). lia.
Qed.

Lemma js_add_nonneg a b : 0 <= a -> 0 <= b -> a + b <= 2 ^ 53 -> js_add a b = a + b.
Proof. intros Ha Hb Hsum. apply js_add_exact. lia. Qed.

(** X14: after any sequence of [updateAgentMetrics] calls on an empty
    table, the row of a pair (user, agent type) exists exactly when some
    call addressed the pair; as long as the token counts of those calls
    are not negative and their number and the sum of all their tokens are
    at most 2^53, where the addition of doubles is exact, its
    [usage_count] is the number of those calls, its cumulative input and
    output tokens are the sums of theirs, and its [total_tokens] is the
    sum of the two. *)
Theorem metrics_count_calls (calls : list (MetricCall F))
    (userId : Z) (agentType : string) :
  let mine := calls_for userId agentType calls in
  match apply_calls calls ∅ !! (userId, agentType) with
  | Some m =>
      mine <> []
      /\ (forallb (fun c => Z.leb 0 (mc_inputTokens c)) mine = true ->
          forallb (fun c => Z.leb 0 (mc_outputTokens c)) mine = true ->
          Z.of_nat (length mine) <= 2 ^ 53 ->
          sum_of mc_inputTokens mine + sum_of mc_outputTokens mine <= 2 ^ 53 ->
          usage_count m = Z.of_nat (length mine)
          /\ total_input_tokens m = sum_of mc_inputTokens mine
          /\ total_output_tokens m = sum_of mc_outputTokens mine
          /\ m_total_tokens m = total_input_tokens m + total_output_tokens m)
  | None => mine = []
  end.
Proof.
  induction calls as [|c calls IH] using rev_ind; intros mine; subst mine.
  - simpl. now rewrite lookup_empty.
  - rewrite apply_calls_snoc, calls_for_snoc. cbv zeta in IH.
    unfold apply_call, updateAgentMetrics.
    destruct (Z.eqb (mc_userId c) userId && str_eq (mc_agentType c) agentType) eqn:Hkey.
    + apply call_key_eq in Hkey. rewrite Hkey.
      destruct (apply_calls calls ∅ !! (userId, agentType)) as [m|] eqn:Hm;
        cbn [fst]; rewrite lookup_insert_eq.
      * destruct IH as [_ IH].
        split; [now destruct (calls_for userId agentType calls)|].
        rewrite !forallb_app, !andb_true_iff, length_app, !sum_of_snoc.
        cbn [forallb length]. rewrite !andb_true_r, !Z.leb_le.
        intros [Hins Hin] [Houts Hout] Hlen Hsum.
        pose proof (sum_of_nonneg _ _ Hins) as Hin0.
        pose proof (sum_of_nonneg _ _ Houts) as Hout0.
        destruct (IH Hins Houts ltac:(lia) ltac:(lia)) as (Hcount & Hmin & Hmout & Htotal).
        cbn [usage_count total_input_tokens total_output_tokens m_total_tokens
             updated_metric].
        rewrite (js_add_nonneg (mc_inputTokens c) (mc_outputTokens c)) by lia.
        rewrite !js_add_nonneg by lia. lia.
      * rewrite IH. split; [discriminate|].
        cbn [usage_count total_input_tokens total_output_tokens m_total_tokens
             inserted_metric sum_of fold_right length app forallb].
        rewrite !andb_true_r, !Z.leb_le. intros Hin Hout _ Hsum.
        rewrite js_add_nonneg by lia. lia.
    + assert ((mc_userId c, mc_agentType c) <> (userId, agentType)) as Hne.
      { intros Heq. apply call_key_eq in Heq. congruence. }
      rewrite app_nil_r.
      destruct (apply_calls calls ∅ !! (mc_userId c, mc_agentType c)); cbn [fst];
        rewrite lookup_insert_ne by assumption; exact IH.
Qed.

#[export] Instance busier_metric_total : Total (busier_metric (F := F)).
Proof. intros a b. unfold busier_metric. lia. Qed.

Lemma singleton_of_NoDup {A} (l : list A) a :
  NoDup l -> a ∈ l -> (forall x, x ∈ l -> x = a) -> l = [a].
Proof.
  intros Hnodup Ha Hall. destruct l as [|x l]; [inversion Ha|].
  assert (x = a) as -> by (apply Hall; now left).
  destruct l as [|y l]; [reflexivity|].
  assert (y = a) as -> by (apply Hall; right; now left).
  apply NoDup_cons in Hnodup as [Hnotin _]. destruct Hnotin. now left.
Qed.

(** X15: [getAgentMetrics] for a user returns the rows of that user,
    most used first; with an agent type it returns the one row of the
    pair, or nothing when the pair has no row. *)
Theorem getAgentMetrics_spec (userId : Z) (agentType : string)
    (tbl : gmap (Z * string) (AgentMetric F)) :
  Sorted busier_metric (getAgentMetrics userId None tbl)
  /\ (forall key m,
        (key, m) ∈ getAgentMetrics userId None tbl
        <-> tbl !! key = Some m /\ fst key = userId)
  /\ (agentType <> "" ->
      getAgentMetrics userId (Some agentType) tbl =
        match tbl !! (userId, agentType) with
        | Some m => [(userId, agentType, m)]
        | None => []
        end).
Proof.
  split; [apply Sorted_merge_sort, _|]. split.
  - intros key m. unfold getAgentMetrics. rewrite merge_sort_Permutation.
    rewrite elem_of_filter_bool, elem_of_map_to_list. simpl.
    rewrite andb_true_r, Z.eqb_eq. reflexivity.
  - intros Hty. unfold getAgentMetrics. simpl.
    apply str_eq_false in Hty. rewrite Hty.
    set (keep := fun kv : Z * string * AgentMetric F =>
                   Z.eqb (fst (fst kv)) userId && str_eq (snd (fst kv)) agentType).
    assert (forall kv, kv ∈ List.filter keep (map_to_list tbl)
                       <-> tbl !! (userId, agentType) = Some (snd kv)
                           /\ fst kv = (userId, agentType)) as Hmem.
    { intros [[u a] m]. rewrite elem_of_filter_bool, elem_of_map_to_list.
      subst keep. simpl. rewrite andb_true_iff, Z.eqb_eq, str_eq_true.
      split; [intros (Hm & -> & ->); now split | intros (Hm & [= -> ->]); now split]. }
    assert (NoDup (List.filter keep (map_to_list tbl))) as Hnodup.
    { apply NoDup_ListNoDup, List.NoDup_filter, NoDup_ListNoDup, NoDup_map_to_list. }
    destruct (tbl !! (userId, agentType)) as [m|] eqn:Hm.
    + rewrite (singleton_of_NoDup _ (userId, agentType, m) Hnodup); [reflexivity| |].
      * apply Hmem. now split.
      * intros [k x] Hx. apply Hmem in Hx as [Hx Hk]. simpl in *. congruence.
    + destruct (List.filter keep (map_to_list tbl)) as [|kv l] eqn:Hl; [reflexivity|].
      assert (kv ∈ kv :: l) as Hkv by now left.
      apply Hmem in Hkv as [Hkv _]. discriminate.
Qed.

End AgentMetricsTotals.

(** ** The memory routes and their log *)

Lemma store_on_data_chunks chunks : forall r,
  fold_left store_on_data chunks r =
    mkStoreRunner (st_userId r) (st_namespace r) (st_key r) (st_startTime r)
      (st_stdout r ++ stdout_text chunks) (st_stderr r ++ stderr_text chunks).
Proof.
  induction chunks as [|c chunks IH]; intros r.
  - simpl. rewrite !append_empty_r. now destruct r.
  - simpl fold_left. rewrite IH. destruct r, c; simpl; now rewrite append_assoc.
Qed.

Lemma query_on_data_chunks chunks : forall r,
  fold_left query_on_data chunks r =
    mkQueryRunner (q_userId r) (q_namespace r) (q_query r) (q_operationType r)
      (q_startTime r)
      (q_stdout r ++ stdout_text chunks) (q_stderr r ++ stderr_text chunks).
Proof.
  induction chunks as [|c chunks IH]; intros r.
  - simpl. rewrite !append_empty_r. now destruct r.
  - simpl fold_left. rewrite IH. destruct r, c; simpl; now rewrite append_assoc.
Qed.

(** X16: neither memory route spawns a child process for a request that
    lacks a required field or whose owner has no active credential: both
    answer 400, and in every other case they do spawn. *)
Theorem memory_routes_reject now cwd0 sreq qreq db :
  (launched (memory_store now cwd0 sreq db) = []
   <-> falsy (sr_namespace sreq) = true \/ falsy (sr_key sreq) = true
       \/ falsy (sr_content sreq) = true
       \/ getActiveCredential (request_user (sr_user sreq)) "claude_api_key" db = None)
  /\ (launched (memory_query now cwd0 qreq db) = []
      <-> falsy (qr_namespace qreq) = true \/ falsy (qr_query qreq) = true
          \/ getActiveCredential (request_user (qr_user qreq)) "claude_api_key" db = None)
  /\ (launched (memory_store now cwd0 sreq db) = [] ->
        exists error details, memory_store now cwd0 sreq db = Rejected 400 error details)
  /\ (launched (memory_query now cwd0 qreq db) = [] ->
        exists error details, memory_query now cwd0 qreq db = Rejected 400 error details).
Proof.
  unfold memory_store, memory_query.
  destruct (falsy (sr_namespace sreq)), (falsy (sr_key sreq)), (falsy (sr_content sreq)),
    (getActiveCredential (request_user (sr_user sreq)) "claude_api_key" db),
    (falsy (qr_namespace qreq)), (falsy (qr_query qreq)),
    (getActiveCredential (request_user (qr_user qreq)) "claude_api_key" db);
    simpl; repeat split; intros; eauto; try discriminate;
    repeat match goal with
    | Hx : _ \/ _ |- _ => destruct Hx
    end; discriminate.
Qed.


Section MemoryQueryProperties.
Context {json : Type} (JSON_parse : string -> option json)
        (array_length : json -> option nat).


End MemoryQueryProperties.

(** X19: [getMemoryOperations] returns logged operations of the user (and
    of the namespace, when one is given), newest first and at most [limit]
    of them (100 by default, all of them for a negative limit); every
    operation it leaves out is no newer than every operation it
    returns. *)
Theorem getMemoryOperations_spec userId limit namespace log :
  let result := getMemoryOperations userId limit namespace log in
  let wanted row :=
    row ∈ mo_rows log
    /\ mo_user_id row = userId
    /\ (falsy namespace = false -> mo_namespace row = namespace) in
  Sorted newer_operation result
  /\ (0 <= default 100 limit -> (length result <= Z.to_nat (default 100%Z limit))%nat)
  /\ exists rest,
       (forall row, row ∈ result \/ row ∈ rest <-> wanted row)
       /\ (forall x y, x ∈ result -> y ∈ rest -> mo_created_at y <= mo_created_at x)
       /\ (default 100 limit < 0 -> rest = []).
Proof.
  intros result wanted. subst result. unfold getMemoryOperations.
  match goal with
  | |- context [List.filter ?f _] => set (keep := f)
  end.
  destruct (listing_spec newer_operation keep (default 100 limit) (mo_rows log))
    as (Hsorted & _ & Hlen & rest & Hperm & Horder & Hall).
  split; [exact Hsorted|]. split; [exact Hlen|].
  exists rest. split; [|split].
  - intros row. rewrite <- elem_of_app, Hperm, elem_of_filter_bool.
    subst keep wanted. cbv beta. rewrite andb_true_iff, Z.eqb_eq.
    destruct namespace as [ns|]; simpl.
    + destruct (str_eq ns "") eqn:Hns; [intuition congruence|].
      destruct (mo_namespace row) as [ns'|].
      * rewrite str_eq_true. intuition congruence.
      * intuition congruence.
    + intuition congruence.
  - exact Horder.
  - intros Hneg. apply Hall. now left.
Qed.

(** ** Templates *)

#[export] Instance template_before_total : Total template_before.
Proof.
  intros a b. unfold template_before.
  destruct (is_system a), (is_system b); simpl; lia.
Qed.

#[export] Instance template_before_trans : Transitive template_before.
Proof.
  intros a b c. unfold template_before.
  destruct (is_system a), (is_system b), (is_system c); simpl; lia.
Qed.

Lemma request_user_truthy user : truthy_id (Some (request_user user)) = true.
Proof.
  unfold request_user. destruct user as [uid|]; [|reflexivity].
  destruct (Z.eqb uid 0) eqn:Hz; [reflexivity|]. simpl. now rewrite Hz.
Qed.

Lemma request_user_nonzero user : request_user user <> 0.
Proof.
  unfold request_user. destruct user as [uid|]; [|discriminate].
  destruct (Z.eqb_spec uid 0); [discriminate | assumption].
Qed.

(** X20: [getSwarmTemplates] lists a template exactly when it is a system
    template and system templates are asked for, or when it belongs to
    the given user (a user id that is neither NULL nor 0); system
    templates come first, and within each group the newest first.  No
    template of another user is ever listed. *)
Theorem getSwarmTemplates_visibility userId includeSystem t :
  Sorted template_before (getSwarmTemplates userId includeSystem t)
  /\ forall row,
       row ∈ getSwarmTemplates userId includeSystem t
       <-> row ∈ t_rows t
           /\ ((includeSystem = true /\ is_system row = true)
               \/ (truthy_id userId = true /\ t_user_id row = userId)).
Proof.
  assert (forall row, truthy_id userId = true ->
            (owned_by userId row = true <-> t_user_id row = userId)) as Howned.
  { intros row. destruct userId as [uid|]; [|discriminate]. intros _.
    unfold owned_by. destruct (t_user_id row) as [owner|].
    - rewrite Z.eqb_eq. split; congruence.
    - split; discriminate. }
  unfold getSwarmTemplates.
  destruct includeSystem, (truthy_id userId) eqn:Htruthy; simpl.
  - split; [apply Sorted_merge_sort, _|]. intros row.
    rewrite merge_sort_Permutation, elem_of_filter_bool, orb_true_iff, Howned by reflexivity.
    intuition congruence.
  - split; [apply Sorted_merge_sort, _|]. intros row.
    rewrite merge_sort_Permutation, elem_of_filter_bool. intuition congruence.
  - split; [apply Sorted_merge_sort, _|]. intros row.
    rewrite merge_sort_Permutation, elem_of_filter_bool, Howned by reflexivity.
    intuition congruence.
  - split; [constructor|]. intros row. split; [intros Hrow; inversion Hrow|].
    intuition congruence.
Qed.

(** X21: a template request with a name, a description, a kind and an
    array of agent types (the empty array included) is answered with the
    new key and the name; the row is added after the others as a user
    template of the requester, who sees it in GET /templates, while no
    other user does. *)
Theorem created_template_listed now req t name description kind agents :
  tr_templateName req = Some name -> name <> "" ->
  tr_description req = Some description ->
  tr_swarmType req = Some kind -> kind <> "" ->
  tr_agentTypes req = Some agents ->
  let owner := request_user (tr_user req) in
  let row := mkTemplate (t_seq t + 1) (Some owner) name (Some description) kind
               agents (tr_defaultNamespace req) (tr_taskTemplate req) false now now in
  let t' := fst (create_template_route now req t) in
  snd (create_template_route now req t) = Sent (t_seq t + 1, name)
  /\ t_rows t' = List.app (t_rows t) [row]
  /\ (forall includeSystem, row ∈ getSwarmTemplates (Some owner) includeSystem t')
  /\ (forall other includeSystem,
        other <> owner -> row ∉ getSwarmTemplates (Some other) includeSystem t').
Proof.
  intros Hname Hname' Hdescription Hkind Hkind' Hagents owner row t'.
  assert (create_template_route now req t =
            (mkTemplates (List.app (t_rows t) [row]) (t_seq t + 1),
             Sent (t_seq t + 1, name))) as Hroute.
  { unfold create_template_route. rewrite Hname, Hkind, Hagents, Hdescription.
    rewrite !falsy_some_false by assumption. reflexivity. }
  subst t'. rewrite Hroute. cbn [fst snd t_rows].
  split; [reflexivity|]. split; [reflexivity|]. split.
  - intros includeSystem. apply getSwarmTemplates_visibility. cbn [t_rows]. split.
    + apply elem_of_app. right. now apply list_elem_of_singleton.
    + right. split; [apply request_user_truthy | reflexivity].
  - intros other includeSystem Hother Hin.
    apply getSwarmTemplates_visibility in Hin as [_ [[_ Hsys]|[_ Howner]]].
    + discriminate.
    + simpl in Howner. congruence.
Qed.

(** X27: GET /templates sends, with their number, exactly the templates
    that are system templates (unless the query says
    [includeSystem=false]) or that belong to the requester, a request
    without a user id being served as user 1. *)
Theorem templates_route_spec user includeSystem t :
  exists templates,
    templates_route user includeSystem t = Sent (templates, length templates)
    /\ forall row,
         row ∈ templates
         <-> row ∈ t_rows t
             /\ ((includeSystem <> Some "false" /\ is_system row = true)
                 \/ t_user_id row = Some (request_user user)).
Proof.
  unfold templates_route. eexists. split; [reflexivity|]. intros row.
  rewrite (proj2 (getSwarmTemplates_visibility _ _ t) row), request_user_truthy.
  assert ((match includeSystem with
           | Some s => negb (str_eq s "false")
           | None => true
           end) = true <-> includeSystem <> Some "false") as ->.
  { destruct includeSystem as [s|]; [|split; [discriminate | reflexivity]].
    rewrite negb_true_iff, str_eq_false. split; congruence. }
  tauto.
Qed.

(** X22: the template route answers 400, and adds no row, exactly when
    the request lacks a template name, a kind or an [agentTypes] value. *)
Theorem template_request_refused now req t :
  create_template_route now req t =
    (t, Refused 400 "Missing required fields"
          (Some "templateName, swarmType, and agentTypes are required"))
  <-> falsy (tr_templateName req) = true \/ falsy (tr_swarmType req) = true
      \/ tr_agentTypes req = None.
Proof.
  unfold create_template_route, createSwarmTemplate.
  destruct (falsy (tr_templateName req)), (falsy (tr_swarmType req)),
    (tr_agentTypes req) as [agents|]; simpl; split; intros Hx;
    auto; try discriminate.
  destruct Hx as [Hx|[Hx|Hx]]; discriminate.
Qed.

Lemma insert_system_templates_rows now t :
  exists seeds,
    t_rows (insert_system_templates now t) = List.app (t_rows t) seeds
    /\ length seeds = 6%nat
    /\ Forall (fun row => is_system row = true /\ t_user_id row = None) seeds.
Proof.
  unfold insert_system_templates, insert_template. cbn [t_rows t_seq].
  eexists. split.
  - rewrite <- !app_assoc. reflexivity.
  - split; [reflexivity|]. repeat constructor.
Qed.

(** X23: the schema script adds its six system templates each time it is
    executed, since no constraint of [swarm_templates] makes OR IGNORE
    skip a row: after [n] executions on any table there are [6 n] more
    system templates than before, and a table that started empty lists
    [6 n] of them. *)
Theorem schema_templates_accumulate nows t :
  length (List.filter is_system (t_rows (run_schema nows t)))
  = (length (List.filter is_system (t_rows t)) + 6 * length nows)%nat
  /\ length (getSwarmTemplates None true (run_schema nows empty_templates))
     = (6 * length nows)%nat.
Proof.
  assert (forall t0,
            length (List.filter is_system (t_rows (run_schema nows t0)))
            = (length (List.filter is_system (t_rows t0)) + 6 * length nows)%nat) as Hcount.
  { induction nows as [|now nows IH]; intros t0; simpl; [lia|].
    unfold run_schema in IH. rewrite IH.
    destruct (insert_system_templates_rows now t0) as (seeds & -> & Hlen & Hsys).
    rewrite List.filter_app, length_app.
    assert (List.filter is_system seeds = seeds) as ->.
    { clear Hlen. induction Hsys as [|row l [Hrow _] _ IHl]; simpl; [reflexivity|].
      now rewrite Hrow, IHl. }
    lia. }
  split; [apply Hcount|].
  unfold getSwarmTemplates. simpl.
  rewrite merge_sort_Permutation. now rewrite Hcount.
Qed.

(** ** API keys *)

Lemma hex_value_digit n : (n < 16)%N -> hex_value (hex_digit n) = n.
Proof.
  intros Hn. destruct n as [|p]; [reflexivity|].
  do 4 (try destruct p as [p|p|]); try reflexivity; exfalso; lia.
Qed.

Lemma byte_digits_inj (a b : Byte.byte) :
  hex_digit (N.div (Byte.to_N a) 16) = hex_digit (N.div (Byte.to_N b) 16) ->
  hex_digit (N.modulo (Byte.to_N a) 16) = hex_digit (N.modulo (Byte.to_N b) 16) ->
  a = b.
Proof.
  intros Hhi Hlo.
  pose proof (Byte.to_N_bounded a) as Ha. pose proof (Byte.to_N_bounded b) as Hb.
  apply (f_equal hex_value) in Hhi, Hlo.
  rewrite !hex_value_digit in Hhi, Hlo
    by (try (apply N.mod_lt; lia); apply N.Div0.div_lt_upper_bound; lia).
  assert (Byte.to_N a = Byte.to_N b) as Heq.
  { rewrite (N.div_mod (Byte.to_N a) 16), (N.div_mod (Byte.to_N b) 16) by lia.
    now rewrite Hhi, Hlo. }
  apply (f_equal Byte.of_N) in Heq. rewrite !Byte.of_to_N in Heq. congruence.
Qed.

Lemma to_hex_inj : forall a b, to_hex a = to_hex b -> a = b.
Proof.
  induction a as [|x a IH]; intros [|y b]; simpl; try discriminate; [reflexivity|].
  intros [= Hhi Hlo Hrest]. f_equal; [now apply byte_digits_inj | now apply IH].
Qed.

Lemma to_hex_length bytes : String.length (to_hex bytes) = (2 * length bytes)%nat.
Proof. induction bytes as [|b bytes IH]; simpl; [reflexivity | rewrite IH; lia]. Qed.

Lemma hex_digit_is_hex n : is_hex_digit (hex_digit n) = true.
Proof.
  destruct n as [|p]; [reflexivity|].
  do 4 (try destruct p as [p|p|]); reflexivity.
Qed.

Lemma to_hex_digits bytes : all_chars is_hex_digit (to_hex bytes) = true.
Proof.
  induction bytes as [|b bytes IH]; [reflexivity|].
  cbn [to_hex all_chars]. now rewrite !hex_digit_is_hex, IH.
Qed.

(** X24: an API key is [ck_] followed by two characters per random byte,
    each of them one of the lowercase hexadecimal digits [0] to [9] and
    [a] to [f]: 67 characters for the 32 bytes drawn; different byte
    strings give different keys. *)
Theorem generateApiKey_format random :
  String.length (generateApiKey random) = (3 + 2 * length random)%nat
  /\ (length random = 32%nat -> String.length (generateApiKey random) = 67%nat)
  /\ String.substring 0 3 (generateApiKey random) = "ck_"
  /\ (exists digits,
        generateApiKey random = String "c" (String "k" (String "_" digits))
        /\ String.length digits = (2 * length random)%nat
        /\ all_chars is_hex_digit digits = true)
  /\ (forall random', generateApiKey random = generateApiKey random' -> random = random').
Proof.
  unfold generateApiKey.
  assert (String.length ("ck_" ++ to_hex random) = (3 + 2 * length random)%nat) as Hlen
    by (change ("ck_" ++ to_hex random) with (String "c" (String "k" (String "_" (to_hex random))));
        simpl; now rewrite to_hex_length).
  split; [exact Hlen|]. split; [intros H32; rewrite Hlen, H32; reflexivity|]. split; [|split].
  - change ("ck_" ++ to_hex random) with (String "c" (String "k" (String "_" (to_hex random)))).
    simpl. now destruct (to_hex random).
  - exists (to_hex random). split; [reflexivity|].
    split; [apply to_hex_length | apply to_hex_digits].
  - intros random' Heq.
    change (String "c" (String "k" (String "_" (to_hex random)))
            = String "c" (String "k" (String "_" (to_hex random')))) in Heq.
    injection Heq as Heq. now apply to_hex_inj.
Qed.

(** ** Credentials *)

Lemma newest_spec rows :
  match newest rows with
  | Some c => c ∈ rows /\ forall c', c' ∈ rows -> c_created_at c' <= c_created_at c
  | None => rows = []
  end.
Proof.
  induction rows as [|x rows IH]; simpl; [reflexivity|].
  destruct (newest rows) as [d|].
  - destruct IH as [Hd Hmax]. destruct (Z.ltb_spec (c_created_at x) (c_created_at d)).
    + split; [now right|]. intros c' Hc'. apply elem_of_cons in Hc' as [->|Hc'].
      * lia.
      * now apply Hmax.
    + split; [now left|]. intros c' Hc'. apply elem_of_cons in Hc' as [->|Hc'].
      * lia.
      * specialize (Hmax c' Hc'). lia.
  - subst rows. split; [now left|]. intros c' Hc'.
    apply list_elem_of_singleton in Hc' as ->. lia.
Qed.

(** X25: [getActiveCredential] returns only a non-empty value of a
    credential that is active, of the asked type and of the asked user,
    and that is the newest such credential; it returns nothing when there
    is no such credential, and also when a newest one holds an empty
    value, older ones not being tried.  The GitHub token reader is the
    same lookup for the type [github_token]. *)
Theorem getActiveCredential_spec userId credentialType db :
  match getActiveCredential userId credentialType db with
  | Some value =>
      value <> ""
      /\ exists c, c ∈ user_credentials db
           /\ active_for userId credentialType c
           /\ credential_value c = value
           /\ forall c', c' ∈ user_credentials db ->
                active_for userId credentialType c' ->
                c_created_at c' <= c_created_at c
  | None =>
      (forall c, c ∈ user_credentials db -> ~ active_for userId credentialType c)
      \/ exists c, c ∈ user_credentials db
           /\ active_for userId credentialType c
           /\ credential_value c = ""
           /\ forall c', c' ∈ user_credentials db ->
                active_for userId credentialType c' ->
                c_created_at c' <= c_created_at c
  end
  /\ getActiveGithubToken userId db = getActiveCredential userId "github_token" db.
Proof.
  split; [|reflexivity]. unfold getActiveCredential.
  match goal with
  | |- context [List.filter ?f _] => set (keep := f)
  end.
  assert (forall c, c ∈ List.filter keep (user_credentials db)
                    <-> c ∈ user_credentials db /\ active_for userId credentialType c)
    as Hmem.
  { intros c. rewrite elem_of_filter_bool. subst keep. unfold active_for. cbv beta.
    rewrite !andb_true_iff, Z.eqb_eq, str_eq_true. tauto. }
  pose proof (newest_spec (List.filter keep (user_credentials db))) as Hnewest.
  destruct (newest (List.filter keep (user_credentials db))) as [c|].
  - destruct Hnewest as [Hc Hmax]. apply Hmem in Hc as [Hc Hactive].
    assert (forall c', c' ∈ user_credentials db -> active_for userId credentialType c' ->
                       c_created_at c' <= c_created_at c) as Hmax'
      by (intros c' Hc' Ha; apply Hmax, Hmem; now split).
    destruct (str_eq (credential_value c) "") eqn:Hvalue.
    + right. exists c. apply str_eq_true in Hvalue.
      split; [exact Hc|]. split; [exact Hactive|]. split; [exact Hvalue | exact Hmax'].
    + apply str_eq_false in Hvalue. split; [exact Hvalue|]. exists c.
      split; [exact Hc|]. split; [exact Hactive|]. split; [reflexivity | exact Hmax'].
  - left. intros c Hc Hactive.
    assert (c ∈ List.filter keep (user_credentials db)) as Hin by (apply Hmem; now split).
    rewrite Hnewest in Hin. inversion Hin.
Qed.

(** ** The agent selector *)

Lemma includes_spec selected agentType :
  includes selected agentType = true <-> agentType ∈ selected.
Proof.
  unfold includes. rewrite existsb_exists. split.
  - intros (a & Ha & Heq). apply str_eq_true in Heq as ->. now apply list_elem_of_In.
  - intros Hin. exists agentType. split; [now apply list_elem_of_In|].
    apply String.eqb_refl.
Qed.

Lemma filter_absent (l : list string) a :
  a ∉ l -> List.filter (fun x => negb (str_eq x a)) l = l.
Proof.
  induction l as [|x l IH]; intros Hnot; [reflexivity|]. simpl.
  assert (str_eq x a = false) as ->.
  { apply str_eq_false. intros ->. apply Hnot. now left. }
  simpl. f_equal. apply IH. intros Hin. apply Hnot. now right.
Qed.

(** X26: [handleToggle] flips the selection of the agent it is given and
    of no other; it never introduces a duplicate; and toggling twice an
    agent that was not selected gives back the selection as it was. *)
Theorem handleToggle_spec selected agentType :
  (agentType ∈ handleToggle selected agentType <-> agentType ∉ selected)
  /\ (forall other, other <> agentType ->
        (other ∈ handleToggle selected agentType <-> other ∈ selected))
  /\ (NoDup selected -> NoDup (handleToggle selected agentType))
  /\ (agentType ∉ selected ->
        handleToggle (handleToggle selected agentType) agentType = selected).
Proof.
  assert (forall x, x ∈ List.filter (fun a => negb (str_eq a agentType)) selected
                    <-> x ∈ selected /\ x <> agentType) as Hfilter.
  { intros x. rewrite list_elem_of_In, filter_In, <- list_elem_of_In.
    rewrite negb_true_iff, str_eq_false. reflexivity. }
  unfold handleToggle at 1 2 3.
  destruct (includes selected agentType) eqn:Hinc.
  - apply includes_spec in Hinc. split; [|split; [|split]].
    + rewrite Hfilter. tauto.
    + intros other Hother. rewrite Hfilter. tauto.
    + intros Hnodup. apply NoDup_ListNoDup, List.NoDup_filter, NoDup_ListNoDup, Hnodup.
    + intros Hnot. now destruct Hnot.
  - assert (agentType ∉ selected) as Hnot.
    { intros Hin. apply includes_spec in Hin. congruence. }
    split; [|split; [|split]].
    + rewrite elem_of_app, list_elem_of_singleton. tauto.
    + intros other Hother. rewrite elem_of_app, list_elem_of_singleton. tauto.
    + intros Hnodup. apply NoDup_app. split; [exact Hnodup|]. split.
      * intros x Hx Hx'. apply list_elem_of_singleton in Hx' as ->. contradiction.
      * apply NoDup_singleton.
    + intros _. unfold handleToggle at 2. rewrite Hinc. unfold handleToggle.
      assert (includes (List.app selected [agentType]) agentType = true) as ->.
      { apply includes_spec, elem_of_app. right. now apply list_elem_of_singleton. }
      rewrite List.filter_app. simpl. rewrite String.eqb_refl. simpl.
      rewrite app_nil_r. now apply filter_absent.
Qed.

(** ** The properties on the sample data *)

Lemma session_row_ids_unique_witness :
  1 <= row_id sample_row_completed <= session_seq (run_store sample_store_ops empty_db)
  /\ (row_id sample_row_completed = row_id sample_row_beta -> "swarm-u1" = "swarm-u2").
Proof.
  apply (session_row_ids_unique sample_store_ops "swarm-u1" "swarm-u2"
           sample_row_completed sample_row_beta); vm_compute; reflexivity.
Defined.



Lemma create_duplicate_identifier_witness :
  fst (swarm_create 1500 "u1" sample_request sample_db_active) = sample_db_active
  /\ code (snd (swarm_create 1500 "u1" sample_request sample_db_active)) = 500.
Proof.
  rewrite (create_duplicate_identifier 1500 "u1" sample_request sample_db_active
             "acme" "/srv/acme" "fix bug" sample_row_active);
    first [split; reflexivity | reflexivity | discriminate].
Defined.

Lemma execute_spawns_witness :
  swarm_execute 1500 sample_exec_request sample_db_keyed
  = Started sample_child sample_runner.
Proof.
  rewrite (execute_spawns 1500 sample_exec_request sample_db_keyed "swarm-u1" "fix bug"
             sample_row_active "sk-new");
    first [reflexivity | discriminate].
Defined.

Lemma streaming_transcript_witness :
  List.map ev_type
    (written (r_res (snd (on_close 9000 (Some 0)
                            (on_chunks sample_chunks sample_runner) sample_db_keyed))))
  = ["status"; "error"; "output"; "error"; "completed"].
Proof.
  rewrite (streaming_transcript 1500 sample_exec_request sample_db_keyed sample_child
             sample_runner sample_chunks 9000 (Some 0) sample_db_keyed);
    reflexivity.
Defined.

Lemma plain_reply_witness :
  let req := mkExecRequest (Some "swarm-u1") (Some "fix bug") None (Some false) (Some 7) in
  let r0 := mkRunner "swarm-u1" false 1500 "" "" fresh_res in
  reply (r_res (snd (on_close 9000 (Some 2) (on_chunks sample_chunks r0) sample_db_keyed)))
  = Some (mkReply 200 (ExecutedBody false "swarm-u1" 7500 "working" "warn: no such file")).
Proof.
  intros req r0.
  destruct (plain_reply 1500 req sample_db_keyed sample_child r0 sample_chunks 9000
              (Some 2) sample_db_keyed) as [_ Hreply]; [reflexivity | reflexivity |].
  rewrite Hreply. reflexivity.
Defined.

Lemma spawn_error_marks_failed_witness :
  error_message <$> swarm_sessions
               (fst (on_error 1600 "spawn npx ENOENT" sample_runner sample_db_keyed))
               !! "swarm-u1"
  = Some (Some "spawn npx ENOENT")
  /\ (fun row => (status row, completed_at row, error_message row)) <$>
       swarm_sessions
         (fst (on_close 1601 (Some (-2))
                 (snd (on_error 1600 "spawn npx ENOENT" sample_runner sample_db_keyed))
                 (fst (on_error 1600 "spawn npx ENOENT" sample_runner sample_db_keyed))))
         !! "swarm-u1"
     = Some ("failed", Some 1601, Some "").
Proof.
  pose proof (spawn_error_marks_failed 1500 sample_exec_request sample_db_keyed
                sample_child sample_runner 1600 "spawn npx ENOENT" 1601 (Some (-2))
                sample_db_keyed sample_row_active eq_refl eq_refl) as Hfailed.
  destruct (on_error 1600 "spawn npx ENOENT" sample_runner sample_db_keyed)
    as [db' r'] eqn:Herror.
  destruct Hfailed as (Hrow & _ & Hclose & _); [discriminate|]. cbn [fst snd].
  change (r_sessionId sample_runner) with "swarm-u1" in Hrow, Hclose.
  rewrite Hrow, Hclose. split; reflexivity.
Defined.

Lemma unknown_worker_untouched_witness :
  updateWorkerTokens "w9" 10 20 sample_store = (sample_store, false).
Proof.
  apply (unknown_worker_untouched 0 "w9" "active" None None 10 20 sample_store).
  intros w Hw.
  change (swarm_workers sample_store) with [sample_worker_started] in Hw.
  apply list_elem_of_singleton in Hw as ->. discriminate.
Defined.

Lemma metrics_count_calls_witness :
  (fun m => (usage_count m, total_input_tokens m, total_output_tokens m, m_total_tokens m))
    <$> apply_calls sample_calls ∅ !! (7, "debugger")
  = Some (3, 2400, 600, 3000).
Proof.
  pose proof (metrics_count_calls sample_calls 7 "debugger") as Hcalls.
  destruct (apply_calls sample_calls ∅ !! (7, "debugger")) as [m|];
    [|discriminate Hcalls].
  destruct Hcalls as [_ Hcalls].
  destruct (Hcalls eq_refl eq_refl ltac:(vm_compute; discriminate)
              ltac:(vm_compute; discriminate))
    as (Hcount & Hin & Hout & Htotal).
  cbn [fmap option_fmap option_map]. rewrite Htotal, Hcount, Hin, Hout. reflexivity.
Defined.



Lemma created_template_listed_witness :
  snd (create_template_route 4000 sample_template_request empty_templates)
  = Sent (1, "Nightly")
  /\ last (List.map template_name
             (getSwarmTemplates (Some 7) true
                (fst (create_template_route 4000 sample_template_request
                        (insert_system_templates 10 empty_templates)))))
     = Some "Nightly".
Proof.
  split; [|vm_compute; reflexivity].
  apply (created_template_listed 4000 sample_template_request empty_templates
           "Nightly" "Runs every night" "quick" []); first [reflexivity | discriminate].
Defined.
